(** * dx7dump: the binary core of the Yamaha DX7 sysex dumper

    A shallow embedding of the decoding core of [dx7dump.cpp] (v1.03a):
    the checksum engine, the structural validators [Verify] and
    [VerifySingle], the repair engine [FixFile], the duplicate detector
    [FindDupes] and the file ingestion part of [processFile].

    Conventions of the embedding.
    - An [unsigned char] is a [Z]; every store truncates with [to_uchar]
      and the 8-bit wrap-around of arithmetic is written out.  The [int]
      [fsize] is a [Z] too, converted with [to_int] when it is assigned and
      with [to_unsigned] when it is compared with an [unsigned] constant.
    - The program reinterprets its global [unsigned char buffer[sysexSize]]
      as a [DX7Sysex] or a [DX7SingleSysex].  A struct is therefore the
      byte list itself, and a member is the offset it has in the byte
      layout the program relies on (6 header bytes, 32 voices of 128 bytes
      or one voice of 155 bytes, checksum, end marker).
    - Global variables live in the record [globals]; a C function body is a
      statement [stmt R]: a function from the globals to the new globals and
      to [Some r] when a [return r] was executed.
    - What the program prints and the system calls it makes are appended to
      the [trace] field; the answers of the operating system come from an
      [os] record, so that every theorem holds for every behaviour of it. *)

From Stdlib Require Import ZArith List Lia Sorted.
From stdpp Require Import base list strings pretty.

Local Open Scope Z_scope.

(** ** Sizes *)

(** sysex file-size of a dx7 bank-dump *)
Definition sysexSize : nat := 4104.
(** file-size of a headerless dx7 bank-dump *)
Definition rawDataSize : nat := 4096.
(** sysex file-size of a dx7 single-voice-dump *)
Definition singleSysexSize : nat := 163.
(** file-size of a headerless dx7 single-voice-dump *)
Definition singleRawDataSize : nat := 155.

(** [sizeof(VoicePacked)]: six 17-byte packed operators and 26 more bytes,
    the last ten of them the name. *)
Definition sizeof_VoicePacked : nat := 128.
(** [sizeof(VoiceUnpacked)]: six 21-byte operators and 29 more bytes. *)
Definition sizeof_VoiceUnpacked : nat := 155.

(** ** Bytes and memory *)

(** Conversion to [unsigned char]. *)
Definition to_uchar (z : Z) : Z := z mod 256.

(** [p[i]] for a byte array [p].  The program only reads inside its
    buffer; a read past the end of the list yields 0 here. *)
Definition load (p : list Z) (i : nat) : Z := default 0 (p !! i).

(** [p[i] = v] for a byte array [p].  The program only writes inside its
    buffer; a write past the end of the list does nothing here. *)
Definition store (p : list Z) (i : nat) (v : Z) : list Z := <[i := to_uchar v]> p.

(** C's [a != b] as the [int] it evaluates to. *)
Definition c_ne (a b : Z) : Z := if Z.eqb a b then 0 else 1.
(** A C condition holds when its value is not zero. *)
Definition c_true (a : Z) : bool := negb (Z.eqb a 0).

(** Member offsets of [struct DX7Sysex]. *)
Module DX7Sysex.
Definition sysexBeginF0 : nat := 0.
Definition yamaha43 : nat := 1.
Definition subStatusAndChannel : nat := 2.
Definition format9 : nat := 3.
Definition sizeMSB : nat := 4.
Definition sizeLSB : nat := 5.
Definition voices : nat := 6.
Definition checksum : nat := 4102.
Definition sysexEndF7 : nat := 4103.
End DX7Sysex.

(** Member offsets of [struct DX7SingleSysex]. *)
Module DX7SingleSysex.
Definition sysexBeginF0 : nat := 0.
Definition yamaha43 : nat := 1.
Definition subStatusAndChannel : nat := 2.
Definition format0 : nat := 3.
Definition sizeMSB : nat := 4.
Definition sizeLSB : nat := 5.
Definition voice : nat := 6.
Definition checksum : nat := 161.
Definition sysexEndF7 : nat := 162.
End DX7SingleSysex.

(** The 4096 payload bytes of a bank, [sysex->voices] seen as bytes. *)
Definition voices (sysex : list Z) : list Z :=
  take rawDataSize (drop DX7Sysex.voices sysex).

(** The [i]-th packed voice record of a bank, as its 128 bytes. *)
Definition voice_record (sysex : list Z) (i : nat) : list Z :=
  take sizeof_VoicePacked (drop (DX7Sysex.voices + sizeof_VoicePacked * i) sysex).

(** ** Checksum engine *)

(** The loop shared by [Checksum] and [ChecksumSingle]:
    [for (i = 0; i < n; ++i) sum += (p[i] & 0x7F);] on an [unsigned char]
    [sum], with [p] the bytes of [mem] from offset [base] on. *)
Definition sum_loop (mem : list Z) (base n : nat) : Z :=
  fold_left (fun sum i => to_uchar (sum + Z.land (load mem (base + i)) 0x7F))
            (seq 0 n) 0.

(** [sum = (~sum) + 1; sum &= 0x7F;] on an [unsigned char]. *)
Definition negate_mask (sum : Z) : Z :=
  let sum := to_uchar (Z.lnot sum + 1) in
  to_uchar (Z.land sum 0x7F).

Definition Checksum (sysex : list Z) : Z :=
  negate_mask (sum_loop sysex DX7Sysex.voices rawDataSize).

Definition ChecksumSingle (mem : list Z) (voice : nat) (blocksize : nat) : Z :=
  negate_mask (sum_loop mem voice blocksize).

(** The sum of the bytes of a block, each masked to its low 7 bits, as an
    unbounded integer. *)
Definition sum_7bit (block : list Z) : Z :=
  foldr (fun b acc => Z.land b 0x7F + acc) 0 block.

(** ** Diagnostics, events, globals *)

(** The texts the program formats, by format string; the arguments are
    the values printed. *)
Inductive message : Type :=
| Msg_no_F0                         (* "Did not find sysex start F0\n" *)
| Msg_no_43                         (* "Did not find Yamaha ID 0x43\n" *)
| Msg_substatus (substatus : Z)     (* "Did not find substatus 0. (substatus=%d)\n" *)
| Msg_format9                       (* "Did not find format 9 (32 voices)\n" *)
| Msg_size (sizeMSB sizeLSB : Z)    (* "WARNING: Declared data byte count is not 4096. (sizeMSB=0x%X, sizeLSB=0x%X)\n" *)
| Msg_no_F7                         (* "Did not find sysex end F7\n" *)
| Msg_checksum (sum : Z)            (* "CHECKSUM FAILED: Should have been 0x%X\n" *)
| Msg_checksum_single (sum : Z)     (* "CHECKSUM FAILED: Should have been 0x%2.2X\n" *)
| Msg_rename_failed                 (* "File could not be renamed for backup. File-fix aborted. %s\n" *)
| Msg_cant_open_for_writing (filename : string)  (* "Can't open the file for writing: %s. %s\n" *)
| Msg_write_error (filename : string)            (* "Error writing to file: %s. %s\n" *)
| Msg_cant_open                     (* "ERROR: Can't open the file: %s\n" *)
| Msg_file_read_error               (* "File read error" *)
| Msg_too_small (fsize : Z)         (* "File too small (%d Bytes)\n\n" *)
| Msg_too_big (fsize : Z)           (* "File too big (%d Bytes)\n\n" *)
| Msg_headerless (fsize : Z)        (* "WARNING: file seems to be a headerless dump (%d Bytes)\n" *)
| Msg_single_voice_dump (name : list Z)  (* File is a Single Voice Dump: <%10s of the name> *)
| Msg_fix_this_file                 (* "Fix this file? [Y/n] " *)
| Msg_found_duplicate (a b : Z)     (* "Found duplicate: %d = %d\n" *)
| Msg_empty_line.                   (* puts of the empty string *)

(** What the program does to the outside world, in the order it does it. *)
Inductive event : Type :=
| Ev_print (m : message)                      (* printf / puts of a text *)
| Ev_print_msgBuffer (m : option message)     (* puts(msgBuffer) / printf of msgBuffer *)
| Ev_PrintFilename (filename : string)        (* PrintFilename(filename) *)
| Ev_Format (sysex : list Z)                  (* Format(sysex, filename): the listing of these bytes *)
| Ev_fopen_r (filename : string) (ok : bool)  (* fopen(filename, "r") *)
| Ev_fread (offset size : nat) (ok : bool)    (* fread(buffer + offset, size, 1, file) *)
| Ev_fgets (choice : Z)                       (* fgets(choice, 2, stdin) *)
| Ev_rename (old new : string) (rc : Z)       (* rename(old, new) *)
| Ev_fopen_wb (filename : string) (ok : bool) (* fopen(filename, "wb") *)
| Ev_fwrite (data : list Z) (ok : bool).      (* fwrite(sysex, sysexSize, 1, file) *)

(** The answers of the operating system and of the user. *)
Record os : Type := {
  (** the bytes of the file when [fopen(filename, "r")] succeeds *)
  os_fopen_r : string -> option (list Z);
  (** whether [fread] returns the one object asked for *)
  os_fread_ok : bool;
  (** the first character typed at the prompt *)
  os_fgets : Z;
  (** the return value of [rename(old, new)], 0 on success *)
  os_rename : string -> string -> Z;
  (** whether [fopen(filename, "wb")] returns a file *)
  os_fopen_wb : string -> bool;
  (** whether [fwrite] writes the one object it is given *)
  os_fwrite_ok : list Z -> bool
}.

(** The option flags the code below reads; [processOpts] sets them before
    a file is processed and nothing changes them afterwards. *)
Record options : Type := {
  errorsOnly : bool;
  findDupes : bool;
  fixFiles : bool;
  askToFix : bool;
  noBackup : bool
}.

(** The global variables that change while a file is processed. *)
Record globals : Type := {
  fsize : Z;
  buffer : list Z;             (* unsigned char buffer[sysexSize] *)
  msgBuffer : option message;  (* char msgBuffer[100]; None is the empty string *)
  softError : bool;
  sysexFile : bool;
  fixNeeded : bool;
  singleVoiceFile : bool;
  trace : list event
}.

(** The globals as their initialisers leave them when [main] starts. *)
Definition globals_init : globals := {|
  fsize := 0;
  buffer := replicate sysexSize 0;
  msgBuffer := None;
  softError := false;
  sysexFile := true;
  fixNeeded := false;
  singleVoiceFile := false;
  trace := []
|}.

Definition set_fsize (v : Z) (g : globals) : globals :=
  {| fsize := v; buffer := buffer g; msgBuffer := msgBuffer g;
     softError := softError g; sysexFile := sysexFile g;
     fixNeeded := fixNeeded g; singleVoiceFile := singleVoiceFile g;
     trace := trace g |}.
Definition set_buffer (v : list Z) (g : globals) : globals :=
  {| fsize := fsize g; buffer := v; msgBuffer := msgBuffer g;
     softError := softError g; sysexFile := sysexFile g;
     fixNeeded := fixNeeded g; singleVoiceFile := singleVoiceFile g;
     trace := trace g |}.
Definition set_msgBuffer (v : option message) (g : globals) : globals :=
  {| fsize := fsize g; buffer := buffer g; msgBuffer := v;
     softError := softError g; sysexFile := sysexFile g;
     fixNeeded := fixNeeded g; singleVoiceFile := singleVoiceFile g;
     trace := trace g |}.
Definition set_softError (v : bool) (g : globals) : globals :=
  {| fsize := fsize g; buffer := buffer g; msgBuffer := msgBuffer g;
     softError := v; sysexFile := sysexFile g;
     fixNeeded := fixNeeded g; singleVoiceFile := singleVoiceFile g;
     trace := trace g |}.
Definition set_sysexFile (v : bool) (g : globals) : globals :=
  {| fsize := fsize g; buffer := buffer g; msgBuffer := msgBuffer g;
     softError := softError g; sysexFile := v;
     fixNeeded := fixNeeded g; singleVoiceFile := singleVoiceFile g;
     trace := trace g |}.
Definition set_fixNeeded (v : bool) (g : globals) : globals :=
  {| fsize := fsize g; buffer := buffer g; msgBuffer := msgBuffer g;
     softError := softError g; sysexFile := sysexFile g;
     fixNeeded := v; singleVoiceFile := singleVoiceFile g;
     trace := trace g |}.
Definition set_singleVoiceFile (v : bool) (g : globals) : globals :=
  {| fsize := fsize g; buffer := buffer g; msgBuffer := msgBuffer g;
     softError := softError g; sysexFile := sysexFile g;
     fixNeeded := fixNeeded g; singleVoiceFile := v;
     trace := trace g |}.
Definition emit (e : event) (g : globals) : globals :=
  {| fsize := fsize g; buffer := buffer g; msgBuffer := msgBuffer g;
     softError := softError g; sysexFile := sysexFile g;
     fixNeeded := fixNeeded g; singleVoiceFile := singleVoiceFile g;
     trace := trace g ++ [e] |}.

(** ** Statements *)

(** A statement runs on the globals; [Some r] says that it executed
    [return r], [None] that control reaches the statement after it. *)
Definition stmt (R : Type) : Type := globals -> globals * option R.

Definition skip {R} : stmt R := fun g => (g, None).
Definition Return {R} (r : R) : stmt R := fun g => (g, Some r).
(** An assignment to a global, a [printf], a [sprintf]. *)
Definition exec {R} (f : globals -> globals) : stmt R := fun g => (f g, None).
Definition seq_stmt {R} (s1 s2 : stmt R) : stmt R :=
  fun g => match s1 g with
           | (g', None) => s2 g'
           | (g', Some r) => (g', Some r)
           end.
(** An expression over the globals, bound to a local. *)
Definition eval {A R} (e : globals -> A) (k : A -> stmt R) : stmt R :=
  fun g => k (e g) g.
Definition IfThenElse {R} (c : globals -> bool) (s1 s2 : stmt R) : stmt R :=
  fun g => if c g then s1 g else s2 g.
Definition IfThen {R} (c : globals -> bool) (s : stmt R) : stmt R :=
  IfThenElse c s skip.
(** The call of a function whose body is [body]; a body that ends without
    [return] yields [dflt]. *)
Definition call {A R} (body : stmt A) (dflt : A) (k : A -> stmt R) : stmt R :=
  fun g => match body g with
           | (g', Some a) => k a g'
           | (g', None) => k dflt g'
           end.
Declare Scope stmt_scope.
Delimit Scope stmt_scope with stmt.
Bind Scope stmt_scope with stmt.
Notation "s1 ;; s2" := (seq_stmt s1 s2)
  (at level 100, s2 at level 200, right associativity) : stmt_scope.
Notation "'LET' x ':=' e 'IN' k" := (eval e (fun x => k))
  (at level 10, x name, e at level 100, k at level 200) : stmt_scope.
Notation "'IF' c 'THEN' s 'FI'" := (IfThen c s)
  (at level 0, c at level 200, s at level 200) : stmt_scope.
Notation "'IF' c 'THEN' s1 'ELSE' s2 'FI'" := (IfThenElse c s1 s2)
  (at level 0, c at level 200, s1 at level 200, s2 at level 200) : stmt_scope.

Definition sprintf_msgBuffer {R} (m : message) : stmt R :=
  exec (set_msgBuffer (Some m)).
Definition printf {R} (m : message) : stmt R := exec (emit (Ev_print m)).
Definition PrintFilename {R} (filename : string) : stmt R :=
  exec (emit (Ev_PrintFilename filename)).

(** [sysex->member], for the [sysex] that [processFile] points at the global
    buffer. *)
Definition member (m : nat) (g : globals) : Z := load (buffer g) m.
(** [sysex->member = v;] *)
Definition assign_member {R} (m : nat) (v : globals -> Z) : stmt R :=
  exec (fun g => set_buffer (store (buffer g) m (v g)) g).

(** ** Repair engine *)

Definition FixFile (opt : options) (w : os) (filename : string) : stmt Z :=
  (assign_member DX7Sysex.sysexBeginF0 (fun _ => 0xF0) ;;
   assign_member DX7Sysex.yamaha43 (fun _ => 0x43) ;;
   assign_member DX7Sysex.subStatusAndChannel (fun _ => 0) ;;
   assign_member DX7Sysex.format9 (fun _ => 0x09) ;;
   assign_member DX7Sysex.sizeMSB (fun _ => 0x20) ;;
   assign_member DX7Sysex.sizeLSB (fun _ => 0) ;;
   assign_member DX7Sysex.checksum (fun g => Checksum (buffer g)) ;;
   assign_member DX7Sysex.sysexEndF7 (fun _ => 0xF7) ;;
   IF (fun _ => negb (noBackup opt)) THEN
     (* create a backup of the sysex-file *)
     let backupFile := filename +:+ ".ORIG" in
     let rc := os_rename w filename backupFile in
     exec (emit (Ev_rename filename backupFile rc)) ;;
     IF (fun _ => c_true rc) THEN
       printf Msg_rename_failed ;;
       Return 1
     FI
   FI ;;
   (* fix file *)
   let file := os_fopen_wb w filename in
   exec (emit (Ev_fopen_wb filename file)) ;;
   IF (fun _ => negb file) THEN
     printf (Msg_cant_open_for_writing filename) ;;
     Return 1
   FI ;;
   LET data := (fun g => take sysexSize (buffer g)) IN
   let written := os_fwrite_ok w data in
   exec (emit (Ev_fwrite data written)) ;;
   IF (fun _ => negb written) THEN
     printf (Msg_write_error filename) ;;
     Return 1
   FI ;;
   Return 0)%stmt.

(** ** Structural validators *)

Definition Verify : stmt Z :=
  ((* *** Verify Header and Footer *** *)
   IF (fun g => c_true (c_ne (member DX7Sysex.sysexBeginF0 g) 0xF0)) THEN
     sprintf_msgBuffer Msg_no_F0 ;;
     Return 1
   FI ;;
   IF (fun g => c_true (c_ne (member DX7Sysex.yamaha43 g) 0x43)) THEN
     sprintf_msgBuffer Msg_no_43 ;;
     Return 1
   FI ;;
   (* only checking subStatus, but not Channel *)
   (* [sysex->subStatusAndChannel & 0xF0 != 0]: in C, [!=] binds tighter
      than [&] *)
   IF (fun g => c_true (Z.land (member DX7Sysex.subStatusAndChannel g) (c_ne 0xF0 0))) THEN
     LET substatus :=
       (fun g => Z.shiftr (Z.land (member DX7Sysex.subStatusAndChannel g) 0xF0) 4) IN
     sprintf_msgBuffer (Msg_substatus substatus) ;;
     exec (set_fixNeeded true)
   FI ;;
   IF (fun g => c_true (c_ne (member DX7Sysex.format9 g) 0x09)) THEN
     sprintf_msgBuffer Msg_format9 ;;
     exec (set_fixNeeded true)
   FI ;;
   IF (fun g => c_true (c_ne (member DX7Sysex.sizeMSB g) 0x20)
                || c_true (c_ne (member DX7Sysex.sizeLSB g) 0)) THEN
     LET msb := member DX7Sysex.sizeMSB IN
     LET lsb := member DX7Sysex.sizeLSB IN
     sprintf_msgBuffer (Msg_size msb lsb) ;;
     exec (set_fixNeeded true)
   FI ;;
   IF (fun g => c_true (c_ne (member DX7Sysex.sysexEndF7 g) 0xF7)) THEN
     sprintf_msgBuffer Msg_no_F7 ;;
     Return 1
   FI ;;
   (* verify checksum *)
   LET sum := (fun g => Checksum (buffer g)) IN
   IF (fun g => c_true (c_ne sum (member DX7Sysex.checksum g))) THEN
     sprintf_msgBuffer (Msg_checksum sum) ;;
     exec (set_fixNeeded true)
   FI ;;
   Return 0)%stmt.

(** The local [error] of [VerifySingle] after the seven header and footer
    tests ([error += 128], [+= 64], ...). *)
Definition VerifySingle_header_error (sysex : list Z) : Z :=
  let error := 0 in
  let error := if c_true (c_ne (load sysex DX7SingleSysex.sysexBeginF0) 0xF0)
               then error + 128 else error in
  let error := if c_true (c_ne (load sysex DX7SingleSysex.yamaha43) 0x43)
               then error + 64 else error in
  (* only checking subStatus, but not Channel; parsed as for [Verify] *)
  let error := if c_true (Z.land (load sysex DX7SingleSysex.subStatusAndChannel)
                                 (c_ne 0xF0 0))
               then error + 32 else error in
  let error := if c_true (c_ne (load sysex DX7SingleSysex.format0) 0x00)
               then error + 16 else error in
  let error := if c_true (c_ne (load sysex DX7SingleSysex.sizeMSB) 0x01)
               then error + 8 else error in
  let error := if c_true (c_ne (load sysex DX7SingleSysex.sizeLSB) 0x1B)
               then error + 4 else error in
  (* we are not checking checksum here *)
  let error := if c_true (c_ne (load sysex DX7SingleSysex.sysexEndF7) 0xF7)
               then error + 1 else error in
  error.

(** The body of [VerifySingle].  It returns the pair of the function's
    return value and of the value its local [error] has at that
    [return]. *)
Definition VerifySingle_body : stmt (Z * Z) :=
  (LET error := (fun g => VerifySingle_header_error (buffer g)) IN
   IF (fun _ => Z.eqb error 0) THEN
     (* verify checksum *)
     LET sum := (fun g => ChecksumSingle (buffer g) DX7SingleSysex.voice
                            sizeof_VoiceUnpacked) IN
     IF (fun g => c_true (c_ne sum (member DX7SingleSysex.checksum g))) THEN
       (* error += 2; *)
       printf (Msg_checksum_single sum) ;;
       (* basic check passed *)
       Return (0, error + 2)
     FI ;;
     (* basic check passed *)
     Return (0, error)
   FI ;;
   Return (1, error))%stmt.

Definition VerifySingle : stmt Z :=
  fun g => let (g', r) := VerifySingle_body g in (g', fst <$> r).

(** ** Duplicate detector *)

(** [memcmp(mem + s1, mem + s2, n)]: the difference of the first pair of
    bytes that differ, 0 when there is none. *)
Fixpoint memcmp (mem : list Z) (s1 s2 : nat) (n : nat) : Z :=
  match n with
  | O => 0
  | S n' =>
      let d := load mem s1 - load mem s2 in
      if Z.eqb d 0 then memcmp mem (S s1) (S s2) n' else d
  end.

(** [&(sysex->voices[i])] *)
Definition voice_addr (i : nat) : nat :=
  (DX7Sysex.voices + sizeof_VoicePacked * i)%nat.

(** A [for] loop over the values of [range] that updates the globals and
    the local [dupeFound]. *)
Definition for_loop (range : list nat)
    (body : nat -> globals * bool -> globals * bool)
    (s : globals * bool) : globals * bool :=
  fold_left (fun s i => body i s) range s.

Definition FindDupes : stmt unit :=
  fun g =>
    let dupeFound := false in
    let (g, dupeFound) :=
      (* For each patch *)
      for_loop (seq 0 31) (fun i =>
        (* For each patch after that patch *)
        for_loop (seq (i + 1) (32 - (i + 1))) (fun j '(g, dupeFound) =>
          (* memcmp the patches.  Subtract 10 to remove the name from the
             diff. *)
          let rc := memcmp (buffer g) (voice_addr i) (voice_addr j)
                           (sizeof_VoicePacked - 10) in
          if Z.eqb rc 0
          then (emit (Ev_print (Msg_found_duplicate (Z.of_nat i + 1)
                                                    (Z.of_nat j + 1))) g,
                true)
          else (g, dupeFound)))
        (g, dupeFound) in
    if dupeFound then printf Msg_empty_line g else (g, None).

(** The pairs of voice indices (from 0) that the "Found duplicate" lines of
    a trace report, in the order of the lines. *)
Fixpoint reported_pairs (t : list event) : list (Z * Z) :=
  match t with
  | [] => []
  | Ev_print (Msg_found_duplicate a b) :: t' => (a - 1, b - 1) :: reported_pairs t'
  | _ :: t' => reported_pairs t'
  end.

(** The lexicographic order on pairs: ascending first component, then
    ascending second. *)
Definition pair_lt (p q : Z * Z) : Prop :=
  fst p < fst q \/ (fst p = fst q /\ snd p < snd q).

(** ** File ingestion *)

(** [objCnt = fread(buffer + offset, size, 1, file)] on a file positioned
    at its start: the count returned is 1 when the read succeeds, and the
    [size] bytes are then in the buffer.  After a failed read every caller
    returns at once, so what a failed read leaves in the buffer is not
    modelled. *)
Definition fread {R} (w : os) (offset size : nat) (file : list Z)
    (k : Z -> stmt R) : stmt R :=
  (let ok := os_fread_ok w in
   exec (emit (Ev_fread offset size ok)) ;;
   IF (fun _ => ok) THEN
     exec (fun g => set_buffer (list_inserts offset (take size file) (buffer g)) g)
   FI ;;
   k (if ok then 1 else 0))%stmt.

(** Conversion to [int], 32 bits in two's complement: what the global
    [int fsize] keeps of the [long] that [ftell] returns (the low 32 bits,
    as the compiler of the Makefile converts). *)
Definition to_int (z : Z) : Z := (z + 2 ^ 31) mod 2 ^ 32 - 2 ^ 31.

(** Conversion of an [int] to [unsigned]: [fsize] is compared with the
    size constants, which are [const unsigned]. *)
Definition to_unsigned (z : Z) : Z := z mod 2 ^ 32.

(** The first part of [processFile]: the file is opened, measured and read
    into the buffer according to its size. *)
Definition processFile_read (w : os) (filename : string) : stmt Z :=
  match os_fopen_r w filename with
  | None =>
      (exec (emit (Ev_fopen_r filename false)) ;;
       printf Msg_cant_open ;;
       Return 1)%stmt
  | Some file =>
      (exec (emit (Ev_fopen_r filename true)) ;;
       exec (set_fsize (to_int (Z.of_nat (length file)))) ;;
       IF (fun g => Z.eqb (to_unsigned (fsize g)) (Z.of_nat sysexSize)) THEN
         fread w 0 sysexSize file (fun objCnt =>
         IF (fun _ => c_true (c_ne objCnt 1)) THEN
           PrintFilename filename ;;
           printf Msg_file_read_error ;;
           Return 1
         FI)
       ELSE IF (fun g => Z.eqb (to_unsigned (fsize g)) (Z.of_nat rawDataSize)) THEN
         (* check if file could be a raw file *)
         fread w 6 rawDataSize file (fun objCnt =>
         PrintFilename filename ;;
         IF (fun _ => c_true (c_ne objCnt 1)) THEN
           printf Msg_file_read_error ;;
           LET n := fsize IN
           printf (Msg_too_small n) ;;
           Return 1
         FI ;;
         LET n := fsize IN
         printf (Msg_headerless n) ;;
         exec (set_softError true) ;;
         exec (set_sysexFile false) ;;
         exec (set_fixNeeded true))
       ELSE IF (fun g => Z.eqb (to_unsigned (fsize g)) (Z.of_nat singleSysexSize)) THEN
         fread w 0 singleSysexSize file (fun objCnt =>
         IF (fun _ => c_true (c_ne objCnt 1)) THEN
           PrintFilename filename ;;
           printf Msg_file_read_error ;;
           Return 1
         FI ;;
         exec (set_singleVoiceFile true))
       ELSE IF (fun g => Z.ltb (Z.of_nat sysexSize) (to_unsigned (fsize g))) THEN
         PrintFilename filename ;;
         LET n := fsize IN
         printf (Msg_too_big n) ;;
         Return 1
       ELSE
         PrintFilename filename ;;
         LET n := fsize IN
         printf (Msg_too_small n) ;;
         Return 1
       FI FI FI FI)%stmt
  end.

Section ProcessFile.

(** The structural validator of bank dumps that [processFile] calls. *)
Variable validator : stmt Z.

(** The second part of [processFile], from [if (singleVoiceFile)] on. *)
Definition processFile_rest (opt : options) (w : os) (filename : string)
    : stmt Z :=
  (IF singleVoiceFile THEN
     (* check only if it is a single voice sysex *)
     PrintFilename filename ;;
     call VerifySingle 0 (fun rc =>
     IF (fun _ => Z.eqb rc 0) THEN
       LET name := (fun g => take 10 (drop 151 (buffer g))) IN
       printf (Msg_single_voice_dump name)
     ELSE
       LET n := fsize IN
       printf (Msg_too_small n)
     FI) ;;
     Return 1
   FI ;;
   (* Make sure this is a valid DX7 sysex dump.
      there is no validation for headerless dumps! *)
   IF sysexFile THEN
     call validator 0 (fun rc =>
     IF (fun _ => c_true (c_ne rc 0)) THEN
       (* unrecoverable file error *)
       PrintFilename filename ;;
       exec (fun g => emit (Ev_print_msgBuffer (msgBuffer g)) g) ;;
       Return 1
     FI)
   FI ;;
   IF (fun g => bool_decide (msgBuffer g <> None)) THEN
     (* we have a recoverable file error *)
     exec (set_softError true) ;;
     PrintFilename filename ;;
     exec (fun g => emit (Ev_print_msgBuffer (msgBuffer g)) g)
   FI ;;
   (* Format and print the bank *)
   IF (fun _ => negb (errorsOnly opt)) THEN
     exec (fun g => emit (Ev_Format (buffer g)) g)
   ELSE IF softError THEN
     printf Msg_empty_line
   FI FI ;;
   (* Fix file if neccessary *)
   IF (fun g => fixFiles opt && fixNeeded g) THEN
     IF (fun _ => askToFix opt) THEN
       printf Msg_fix_this_file ;;
       let choice := os_fgets w in
       exec (emit (Ev_fgets choice)) ;;
       IF (fun _ => Z.eqb choice 78 || Z.eqb choice 110) THEN  (* 'N', 'n' *)
         Return 0
       FI
     FI ;;
     call (FixFile opt w filename) 0 (fun _ => skip)
   FI ;;
   IF (fun _ => findDupes opt) THEN
     call FindDupes tt (fun _ => skip)
   FI ;;
   Return 0)%stmt.

Definition processFile_with (opt : options) (w : os) (filename : string)
    : stmt Z :=
  (processFile_read w filename ;; processFile_rest opt w filename)%stmt.

End ProcessFile.

Definition processFile : options -> os -> string -> stmt Z :=
  processFile_with Verify.

(** The canonical header of a bank dump. *)
Definition canonical_header : list Z := [0xF0; 0x43; 0; 0x09; 0x20; 0].

(** An event of the repair: the question whether to fix, or one of the
    system calls of [FixFile]. *)
Definition repair_event (e : event) : bool :=
  match e with
  | Ev_print Msg_fix_this_file => true
  | Ev_fgets _ => true
  | Ev_rename _ _ _ => true
  | Ev_fopen_wb _ _ => true
  | Ev_fwrite _ _ => true
  | _ => false
  end.

(** An event that opens a file for writing, or writes to it. *)
Definition write_event (e : event) : bool :=
  match e with
  | Ev_fopen_wb _ _ => true
  | Ev_fwrite _ _ => true
  | _ => false
  end.

(** ** Properties of statements used in the proofs *)

(** A statement that leaves every byte of the buffer as it is. *)
Definition keeps_buffer {R} (s : stmt R) : Prop :=
  forall g, buffer (fst (s g)) = buffer g.

(** The recoverable deviations of the header, as [Verify] tests them. *)
Definition header_deviation (sysex : list Z) : Prop :=
  Z.testbit (load sysex DX7Sysex.subStatusAndChannel) 0 = true
  \/ load sysex DX7Sysex.format9 <> 0x09
  \/ load sysex DX7Sysex.sizeMSB <> 0x20
  \/ load sysex DX7Sysex.sizeLSB <> 0.

(** The bytes [FixFile] leaves in a buffer that held [sysex]. *)
Definition FixFile_bytes (sysex : list Z) : list Z :=
  let sysex := store sysex DX7Sysex.sysexBeginF0 0xF0 in
  let sysex := store sysex DX7Sysex.yamaha43 0x43 in
  let sysex := store sysex DX7Sysex.subStatusAndChannel 0 in
  let sysex := store sysex DX7Sysex.format9 0x09 in
  let sysex := store sysex DX7Sysex.sizeMSB 0x20 in
  let sysex := store sysex DX7Sysex.sizeLSB 0 in
  let sysex := store sysex DX7Sysex.checksum (Checksum sysex) in
  store sysex DX7Sysex.sysexEndF7 0xF7.

(** ** Example inputs *)

(** A bank-dump laid out as header, payload, checksum, end marker. *)
Definition bank (header payload : list Z) (checksum endF7 : Z) : list Z :=
  header ++ payload ++ [checksum; endF7].

(** An operating system that serves the bytes [file] for every name, whose
    reads and writes succeed, whose user answers 'Y', and whose [rename]
    returns [rename_rc]. *)
Definition example_os (file : list Z) (rename_rc : Z) : os := {|
  os_fopen_r := fun _ => Some file;
  os_fread_ok := true;
  os_fgets := 89;
  os_rename := fun _ _ => rename_rc;
  os_fopen_wb := fun _ => true;
  os_fwrite_ok := fun _ => true
|}.

(** Options: listing and repair, after a question, with a backup. *)
Definition example_options : options := {|
  errorsOnly := false;
  findDupes := false;
  fixFiles := true;
  askToFix := true;
  noBackup := false
|}.

(** The globals when [main] starts, but with [sysex] in the buffer. *)
Definition globals_with (sysex : list Z) : globals :=
  set_buffer sysex globals_init.

(** A bank with a bad sub-status, format id, size pair and checksum. *)
Definition bank_recoverable : list Z :=
  bank [0xF0; 0x43; 0x31; 0x08; 0x21; 0x05] (replicate 4096 5) 0x11 0xF7.

(** A canonical bank of zero bytes. *)
Definition bank_zero : list Z :=
  bank canonical_header (replicate 4096 0) 0 0xF7.

(** The same payload behind another header, checksum byte and end
    marker. *)
Definition bank_zero_other_frame : list Z :=
  bank [0x55; 0x55; 0x55; 0x55; 0x55; 0x55] (replicate 4096 0) 0x7F 0x00.

(** A canonical bank but for the sub-status 1 in the high nibble of its
    third byte. *)
Definition bank_substatus_1 : list Z :=
  bank [0xF0; 0x43; 0x10; 0x09; 0x20; 0] (replicate 4096 0) 0 0xF7.

(** A canonical bank but for the channel 1 in the low nibble of its third
    byte. *)
Definition bank_channel_1 : list Z :=
  bank [0xF0; 0x43; 0x01; 0x09; 0x20; 0] (replicate 4096 0) 0 0xF7.

(** A bank whose end marker is wrong, and its format id too. *)
Definition bank_bad_end : list Z :=
  bank [0xF0; 0x43; 0; 0x08; 0x20; 0] (replicate 4096 0) 0 0xF0.

(** A single-voice dump of zero bytes with the checksum byte [ck]. *)
Definition single_dump (ck : Z) : list Z :=
  [0xF0; 0x43; 0; 0; 0x01; 0x1B] ++ replicate 155 0 ++ [ck; 0xF7].

(** A headerless dump: 4096 bytes. *)
Definition raw_dump : list Z := replicate 4096 1.

(** A bank in which voices 1 and 3 (from 0) differ from the others, and
    from each other in their names only. *)
Definition bank_dupes : list Z :=
  bank canonical_header
       (replicate 128 0 ++ (replicate 118 1 ++ replicate 10 65)
        ++ replicate 128 0 ++ (replicate 118 1 ++ replicate 10 66)
        ++ replicate (28 * 128) 0) 0 0xF7.

(** ** Properties of the duplicate detector used in the proofs *)

(** The test [rc == 0] of [FindDupes] for the voices [i] and [j]. *)
Definition dupe (sysex : list Z) (i j : nat) : bool :=
  Z.eqb (memcmp sysex (voice_addr i) (voice_addr j) (sizeof_VoicePacked - 10)) 0.

(** The line [FindDupes] prints for the voices [i] and [j]. *)
Definition found_event (i j : nat) : event :=
  Ev_print (Msg_found_duplicate (Z.of_nat i + 1) (Z.of_nat j + 1)).

(** The globals after some more events. *)
Definition add_events (evs : list event) (g : globals) : globals :=
  {| fsize := fsize g; buffer := buffer g; msgBuffer := msgBuffer g;
     softError := softError g; sysexFile := sysexFile g;
     fixNeeded := fixNeeded g; singleVoiceFile := singleVoiceFile g;
     trace := trace g ++ evs |}.

(** The pairs of voices [FindDupes] compares and finds equal, in the order
    of its two loops. *)
Definition dupes_in_loop_order (sysex : list Z) : list (nat * nat) :=
  flat_map (fun i => map (pair i)
                         (List.filter (dupe sysex i) (seq (i + 1) (32 - (i + 1)))))
           (seq 0 31).

(** The events [FindDupes] adds to the trace of [g]. *)
Definition FindDupes_events (g : globals) : list event :=
  drop (length (trace g)) (trace (fst (FindDupes g))).

(** * Further definitions

    The rest of the file covers more of [dx7dump.cpp]: [UnpackVoice] and
    the members of the packed structs, the functions that convert data to
    text, [Name2Ascii], the order of the voice name listing of [Format],
    and more properties of [Checksum], [Verify], [FixFile], [FindDupes]
    and [processFile]. *)

(** ** Events and inputs used in the further proofs *)

(** The events of [FixFile], by the answers of the operating system. *)
Definition FixFile_events (opt : options) (w : os) (filename : string)
    (data : list Z) : list event * Z :=
  let backup :=
    if noBackup opt then []
    else [Ev_rename filename (filename +:+ ".ORIG")
                    (os_rename w filename (filename +:+ ".ORIG"))] in
  if negb (noBackup opt)
     && negb (Z.eqb (os_rename w filename (filename +:+ ".ORIG")) 0)
  then (backup ++ [Ev_print Msg_rename_failed], 1)
  else if negb (os_fopen_wb w filename)
  then (backup ++ [Ev_fopen_wb filename false;
                   Ev_print (Msg_cant_open_for_writing filename)], 1)
  else if negb (os_fwrite_ok w data)
  then (backup ++ [Ev_fopen_wb filename true; Ev_fwrite data false;
                   Ev_print (Msg_write_error filename)], 1)
  else (backup ++ [Ev_fopen_wb filename true; Ev_fwrite data true], 0).

(** An operating system on which renaming works and no file can be opened
    for writing. *)
Definition os_read_only : os := {|
  os_fopen_r := fun _ => Some bank_recoverable;
  os_fread_ok := true;
  os_fgets := 89;
  os_rename := fun _ _ => 0;
  os_fopen_wb := fun _ => false;
  os_fwrite_ok := fun _ => true
|}.

(** A canonical bank whose payload bytes are all 0x80: zero but for the
    top bit. *)
Definition bank_top_bits : list Z :=
  bank canonical_header (replicate 4096 0x80) 0 0xF7.

(** A statement that only adds events to the trace, all of them
    satisfying [P]. *)
Definition emits {R} (P : event -> Prop) (s : stmt R) : Prop :=
  forall g, exists evs,
    trace (fst (s g)) = trace g ++ evs /\ Forall P evs.

(** A statement that, when it returns, returns [r]. *)
Definition returns_only {R} (r : R) (s : stmt R) : Prop :=
  forall g, snd (s g) = None \/ snd (s g) = Some r.

(** A printed text other than the question whether to fix. *)
Definition is_report (e : event) : Prop :=
  match e with
  | Ev_print Msg_fix_this_file => False
  | Ev_print _ => True
  | _ => False
  end.

(** An event that changes a file: a rename, an open for writing, a
    write. *)
Definition file_change_event (e : event) : bool :=
  match e with
  | Ev_rename _ _ _ => true
  | Ev_fopen_wb _ _ => true
  | Ev_fwrite _ _ => true
  | _ => false
  end.

(** An event of the part of [processFile] before the repair: no question,
    no answer, no change of a file, no report of a duplicate. *)
Definition before_repair (e : event) : Prop :=
  match e with
  | Ev_print Msg_fix_this_file => False
  | Ev_print (Msg_found_duplicate _ _) => False
  | Ev_fgets _ => False
  | _ => file_change_event e = false
  end.

(** An event of the part of [processFile] before the listing. *)
Definition is_ingest (e : event) : Prop :=
  match e with
  | Ev_Format _ => False
  | _ => before_repair e
  end.

(** Options: listing and duplicate search, no repair. *)
Definition options_list_only : options := {|
  errorsOnly := false;
  findDupes := true;
  fixFiles := false;
  askToFix := true;
  noBackup := false
|}.

(** An operating system that serves a bank in need of repair and a user
    who answers 'n'. *)
Definition os_answer_no : os := {|
  os_fopen_r := fun _ => Some bank_recoverable;
  os_fread_ok := true;
  os_fgets := 110;
  os_rename := fun _ _ => 0;
  os_fopen_wb := fun _ => true;
  os_fwrite_ok := fun _ => true
|}.

(** ** Packed voices *)

(** The member [pos .. pos + width - 1] of a byte of bit-fields.  The
    bit-fields of [OperatorPacked] and [VoicePacked] are [unsigned char]
    members that share a byte; the layout the program relies on gives the
    first declared member the least significant bits, and the unnamed
    member the most significant ones. *)
Definition bitfield (byte : Z) (pos width : Z) : Z :=
  Z.land (Z.shiftr byte pos) (Z.ones width).

(** [sizeof(OperatorPacked)]: eleven bytes, three bytes of bit-fields
    around them, and three more bytes. *)
Definition sizeof_OperatorPacked : nat := 17.

(** The members of [pVoice->op[i]], for the 128 bytes [pVoice] of a
    [VoicePacked]. *)
Module OperatorPacked.
Section Members.
Variable pVoice : list Z.
Variable i : nat.
Definition byte (k : nat) : Z := load pVoice (sizeof_OperatorPacked * i + k).
Definition EG_R1 : Z := byte 0.
Definition EG_R2 : Z := byte 1.
Definition EG_R3 : Z := byte 2.
Definition EG_R4 : Z := byte 3.
Definition EG_L1 : Z := byte 4.
Definition EG_L2 : Z := byte 5.
Definition EG_L3 : Z := byte 6.
Definition EG_L4 : Z := byte 7.
Definition levelScalingBreakPoint : Z := byte 8.
Definition scaleLeftDepth : Z := byte 9.
Definition scaleRightDepth : Z := byte 10.
Definition scaleLeftCurve : Z := bitfield (byte 11) 0 2.
Definition scaleRightCurve : Z := bitfield (byte 11) 2 2.
Definition rateScale : Z := bitfield (byte 12) 0 3.
Definition detune : Z := bitfield (byte 12) 3 4.
Definition amplitudeModulationSensitivity : Z := bitfield (byte 13) 0 2.
Definition keyVelocitySensitivity : Z := bitfield (byte 13) 2 3.
Definition outputLevel : Z := byte 14.
Definition oscillatorMode : Z := bitfield (byte 15) 0 1.
Definition frequencyCoarse : Z := bitfield (byte 15) 1 5.
Definition frequencyFine : Z := byte 16.
End Members.
End OperatorPacked.

(** The members of [*pVoice] after the six operators. *)
Module VoicePacked.
Section Members.
Variable pVoice : list Z.
Definition pitchEGR1 : Z := load pVoice 102.
Definition pitchEGR2 : Z := load pVoice 103.
Definition pitchEGR3 : Z := load pVoice 104.
Definition pitchEGR4 : Z := load pVoice 105.
Definition pitchEGL1 : Z := load pVoice 106.
Definition pitchEGL2 : Z := load pVoice 107.
Definition pitchEGL3 : Z := load pVoice 108.
Definition pitchEGL4 : Z := load pVoice 109.
Definition algorithm : Z := bitfield (load pVoice 110) 0 5.
Definition feedback : Z := bitfield (load pVoice 111) 0 3.
Definition oscKeySync : Z := bitfield (load pVoice 111) 3 1.
Definition lfoSpeed : Z := load pVoice 112.
Definition lfoDelay : Z := load pVoice 113.
Definition lfoPitchModDepth : Z := load pVoice 114.
Definition lfoAMDepth : Z := load pVoice 115.
Definition lfoSync : Z := bitfield (load pVoice 116) 0 1.
Definition lfoWave : Z := bitfield (load pVoice 116) 1 3.
Definition lfoPitchModSensitivity : Z := bitfield (load pVoice 116) 4 3.
Definition transpose : Z := load pVoice 117.
Definition name (k : nat) : Z := load pVoice (118 + k).
End Members.
End VoicePacked.

(** The body of the first loop of [UnpackVoice]: the 21 bytes written to
    [uVoice->op[i]], in the order of the members of [OperatorUnpacked]. *)
Definition UnpackOperator (pVoice : list Z) (i : nat) : list Z :=
  map to_uchar
    [ OperatorPacked.EG_R1 pVoice i;
      OperatorPacked.EG_R2 pVoice i;
      OperatorPacked.EG_R3 pVoice i;
      OperatorPacked.EG_R4 pVoice i;
      OperatorPacked.EG_L1 pVoice i;
      OperatorPacked.EG_L2 pVoice i;
      OperatorPacked.EG_L3 pVoice i;
      OperatorPacked.EG_L4 pVoice i;
      OperatorPacked.levelScalingBreakPoint pVoice i;
      OperatorPacked.scaleLeftDepth pVoice i;
      OperatorPacked.scaleRightDepth pVoice i;
      OperatorPacked.scaleLeftCurve pVoice i;
      OperatorPacked.scaleRightCurve pVoice i;
      OperatorPacked.rateScale pVoice i;
      OperatorPacked.amplitudeModulationSensitivity pVoice i;
      OperatorPacked.keyVelocitySensitivity pVoice i;
      OperatorPacked.outputLevel pVoice i;
      OperatorPacked.oscillatorMode pVoice i;
      OperatorPacked.frequencyCoarse pVoice i;
      OperatorPacked.frequencyFine pVoice i;
      OperatorPacked.detune pVoice i ].

(** [UnpackVoice(uVoice, pVoice)]: the 155 bytes of [*uVoice] afterwards,
    every member of which the function assigns. *)
Definition UnpackVoice (pVoice : list Z) : list Z :=
  (* unpack data for each operator *)
  flat_map (UnpackOperator pVoice) (seq 0 6)
  (* unpack remaining part of voice *)
  ++ map to_uchar
       [ VoicePacked.pitchEGR1 pVoice;
         VoicePacked.pitchEGR2 pVoice;
         VoicePacked.pitchEGR3 pVoice;
         VoicePacked.pitchEGR4 pVoice;
         VoicePacked.pitchEGL1 pVoice;
         VoicePacked.pitchEGL2 pVoice;
         VoicePacked.pitchEGL3 pVoice;
         VoicePacked.pitchEGL4 pVoice;
         VoicePacked.algorithm pVoice;
         VoicePacked.feedback pVoice;
         VoicePacked.oscKeySync pVoice;
         VoicePacked.lfoSpeed pVoice;
         VoicePacked.lfoDelay pVoice;
         VoicePacked.lfoPitchModDepth pVoice;
         VoicePacked.lfoAMDepth pVoice;
         VoicePacked.lfoSync pVoice;
         VoicePacked.lfoWave pVoice;
         VoicePacked.lfoPitchModSensitivity pVoice;
         VoicePacked.transpose pVoice ]
  ++ map (fun k => to_uchar (VoicePacked.name pVoice k)) (seq 0 10).

(** The bits of each byte of an [OperatorPacked] that belong to a named
    member: all but the unnamed bit-fields. *)
Definition OperatorPacked_named_bits : list Z :=
  replicate 11 0xFF ++ [0x0F; 0x7F; 0x1F; 0xFF; 0x3F; 0xFF].

(** The same for the 26 bytes of a [VoicePacked] after the operators. *)
Definition VoicePacked_named_bits : list Z :=
  replicate 8 0xFF ++ [0x1F; 0x0F] ++ replicate 4 0xFF ++ [0x7F; 0xFF]
  ++ replicate 10 0xFF.

(** The 17 bytes of [pVoice->op[i]] with the unnamed bit-fields cleared. *)
Definition operator_named_bits (pVoice : list Z) (i : nat) : list Z :=
  zip_with Z.land (map (OperatorPacked.byte pVoice i) (seq 0 sizeof_OperatorPacked))
           OperatorPacked_named_bits.

(** The 128 bytes of a packed voice with the unnamed bit-fields
    cleared. *)
Definition named_bits (pVoice : list Z) : list Z :=
  flat_map (operator_named_bits pVoice) (seq 0 6)
  ++ zip_with Z.land (map (load pVoice) (seq 102 26)) VoicePacked_named_bits.

(** A [DX7SingleSysex] with the constants named in its declaration, the
    unpacked voice [voice], and the checksum byte that [Format] prints
    after the voice data: [ChecksumSingle(uVoice, sizeof(unpackedVoice))]. *)
Definition single_voice_message (voice : list Z) : list Z :=
  [0xF0; 0x43; 0; 0; 0x01; 0x1B] ++ voice
  ++ [ChecksumSingle voice 0 sizeof_VoiceUnpacked; 0xF7].

(** A packed voice whose bytes are 11, 48, 85, ... (steps of 37 modulo
    256). *)
Definition voice_steps : list Z :=
  map (fun i => to_uchar (Z.of_nat i * 37 + 11)) (seq 0 128).

(** What the compiled [UnpackVoice] leaves in [*uVoice] for
    [voice_steps]. *)
Definition voice_steps_unpacked : list Z :=
  [11;48;85;122;159;196;233;14;51;88;125;2;0;7;0;3;17;0;27;91;8;
   128;165;202;239;20;57;94;131;168;205;242;3;1;4;1;0;134;1;21;208;7;
   245;26;63;100;137;174;211;248;29;66;103;0;3;1;2;5;251;0;16;69;6;
   106;143;180;217;254;35;72;109;146;183;220;1;0;6;3;2;112;1;10;186;4;
   223;4;41;78;115;152;189;226;7;44;81;2;1;3;0;0;229;0;5;47;3;
   84;121;158;195;232;13;50;87;124;161;198;3;2;0;1;5;90;1;31;164;2;
   201;238;19;56;93;130;167;204;17;6;0;59;96;133;170;1;7;4;244;
   25;62;99;136;173;210;247;28;65;102].

(** ** Conversion of data to text *)

(** [snprintf(buffer, size, ...)] keeps at most [size - 1] characters of
    the text [s] that its format gives. *)
Definition snprintf (size : nat) (s : string) : string :=
  String.substring 0 (size - 1) s.

(** [table[x]] for an array of texts. *)
Definition index (table : list string) (x : Z) : string :=
  nth (Z.to_nat x) table EmptyString.

Section Conversion.

(** The global [tabularListing]. *)
Variable tabularListing : bool.

Definition OutOfRange : string :=
  if tabularListing then "~~~" else "*out of range*".

Definition OnOff (x : Z) : string :=
  if Z.ltb 1 x then OutOfRange
  else index ["Off"; "On"] x.

Definition Curve (x : Z) : string :=
  if Z.ltb 3 x then OutOfRange
  else index ["-LIN"; "-EXP"; "+EXP"; "+LIN"] x.

Definition LFOWave (x : Z) : string :=
  if Z.ltb 5 x then OutOfRange
  else
    let waves := ["Triangle"; "Saw Down"; "Saw Up"; "Square"; "Sine";
                  "Sample & Hold"] in
    let waves_tableview := ["Triangle"; "Saw Down"; "Saw Up"; "Square"; "Sine";
                            "S/H"] in
    if tabularListing then index waves_tableview x else index waves x.

Definition Mode (x : Z) : string :=
  if Z.ltb 1 x then OutOfRange
  else
    let modes := ["Frequency (Ratio)"; "Fixed Frequency (Hz)"] in
    let modes_tableview := ["Ratio"; "Fixed"] in
    if tabularListing then index modes_tableview x else index modes x.

Definition Note (x : Z) : string :=
  let x := x mod 12 in
  index ["C"; "C#"; "D"; "D#"; "E"; "F"; "F#"; "G"; "G#"; "A"; "A#"; "B"] x.

Definition Transpose (x : Z) : string :=
  if Z.ltb 48 x then OutOfRange
  else snprintf 9 (Note x +:+ pretty (x / 12 + 1)).

Definition Breakpoint (x : Z) : string :=
  if Z.ltb 99 x then OutOfRange
  else
    (* Playing some tricks (add 12 tones, subtract one octave) to avoid
       the fact that -3/12 rounds to 0 and messes everything up. *)
    let octave := Z.quot (x - 3 + 12) 12 - 1 in
    snprintf 9 (Note (x + 9) +:+ pretty octave).

End Conversion.

(** ** Voice names *)

(** LCD-character translation table for 7-bit ASCII (voice-name in sysex
    is also 7-bit).  One line for each of 0x00, 0x10, ... 0x70. *)
Definition lcdTableAscii : list Ascii.ascii :=
  String.list_ascii_of_string
    ("                "                                        (* 0x00 *)
     +:+ "                "                                    (* 0x10 *)
     +:+ " !" +:+ String (Ascii.ascii_of_nat 34) "#$%&'()*+,-./"  (* 0x20 *)
     +:+ "0123456789:;<=>?"                                    (* 0x30 *)
     +:+ "@ABCDEFGHIJKLMNO"                                    (* 0x40 *)
     +:+ "PQRSTUVWXYZ[Y]^_"                                    (* 0x50 *)
     +:+ "`abcdefghijklmno"                                    (* 0x60 *)
     +:+ "pqrstuvwxyz{|}><").                                  (* 0x70 *)

(** [Name2Ascii(nameAscii, nameLcd)] with [useUnicode] off, for the ten
    bytes [nameLcd] of a name: the text left in [nameAscii], or [None] when
    the function reads outside [lcdTableAscii]. *)
Definition Name2Ascii (nameLcd : list Z) : option string :=
  (* convert characters from LCD to ASCII *)
  String.string_of_list_ascii
    <$> mapM (fun i => lcdTableAscii !! Z.to_nat (load nameLcd i)) (seq 0 10).

(** A printable character of 7-bit ASCII. *)
Definition printable (c : Ascii.ascii) : bool :=
  (32 <=? Ascii.nat_of_ascii c)%nat && (Ascii.nat_of_ascii c <=? 126)%nat.

(** A name of the bank of examples. *)
Definition name_brass : list Z := [66; 82; 65; 83; 83; 32; 32; 32; 49; 32].

(** ** The voice name listing *)

(** The name listing of [Format] (the branch of [!voiceDataList]): the
    [voiceNum] of every entry that its two loops print, one list for each
    line. *)
Definition name_listing (tabularListing showHex : bool) : list (list nat) :=
  let rows := 32%nat in
  let columns := 1%nat in
  let '(rows, columns) :=
    if tabularListing
    then if negb showHex then (8%nat, 4%nat) else (16%nat, 2%nat)
    else (rows, columns) in
  map (fun row => map (fun column => (column * rows + row)%nat) (seq 0 columns))
      (seq 0 rows).

(** ** Output of the duplicate detector *)

(** Whether a list has an element. *)
Definition nonempty {A} (l : list A) : bool :=
  match l with [] => false | _ => true end.

(** The line that reports the pair [p] of voice indices (from 0). *)
Definition found_line (p : Z * Z) : event :=
  Ev_print (Msg_found_duplicate (fst p + 1) (snd p + 1)).

(** * Proofs *)

(** ** Bytes and memory: basic facts *)

Lemma load_lookup (p : list Z) (i : nat) (v : Z) : p !! i = Some v -> load p i = v.
Proof. unfold load. intros ->. reflexivity. Qed.

Lemma load_ge (p : list Z) (i : nat) : (length p <= i)%nat -> load p i = 0.
Proof. intros H. unfold load. rewrite lookup_ge_None_2 by lia. reflexivity. Qed.

Lemma load_store_eq (p : list Z) (i : nat) (v : Z) :
  (i < length p)%nat -> load (store p i v) i = to_uchar v.
Proof.
  intros H. unfold load, store. rewrite list_lookup_insert_eq by exact H. reflexivity.
Qed.

Lemma load_store_ne (p : list Z) (i j : nat) (v : Z) :
  i <> j -> load (store p i v) j = load p j.
Proof.
  intros H. unfold load, store. rewrite list_lookup_insert_ne by exact H. reflexivity.
Qed.

Lemma length_store (p : list Z) (i : nat) (v : Z) : length (store p i v) = length p.
Proof. apply length_insert. Qed.

Lemma load_drop (p : list Z) (base i : nat) : load (drop base p) i = load p (base + i).
Proof. unfold load. rewrite lookup_drop. reflexivity. Qed.

Lemma load_take (p : list Z) (n i : nat) : (i < n)%nat -> load (take n p) i = load p i.
Proof. intros H. unfold load. rewrite lookup_take_lt by exact H. reflexivity. Qed.

(** ** Checksum engine: the loop is a sum modulo 256 *)

Lemma sum_7bit_app (l1 l2 : list Z) : sum_7bit (l1 ++ l2) = sum_7bit l1 + sum_7bit l2.
Proof.
  unfold sum_7bit. induction l1 as [|b l1 IH]; simpl; [reflexivity|].
  rewrite IH. lia.
Qed.

Lemma sum_7bit_take_S (l : list Z) (n : nat) :
  sum_7bit (take (S n) l) = sum_7bit (take n l) + Z.land (load l n) 0x7F.
Proof.
  destruct (l !! n) as [b|] eqn:E.
  - rewrite (take_S_r l n b E), sum_7bit_app, (load_lookup _ _ _ E).
    unfold sum_7bit at 2. simpl. lia.
  - apply lookup_ge_None_1 in E.
    rewrite !take_ge by lia. rewrite load_ge by lia. rewrite Z.land_0_l. lia.
Qed.

Lemma sum_loop_S (mem : list Z) (base n : nat) :
  sum_loop mem base (S n) =
  to_uchar (sum_loop mem base n + Z.land (load mem (base + n)) 0x7F).
Proof.
  unfold sum_loop. rewrite seq_S, fold_left_app. reflexivity.
Qed.

Lemma sum_loop_spec (mem : list Z) (base n : nat) :
  sum_loop mem base n = sum_7bit (take n (drop base mem)) mod 256.
Proof.
  induction n as [|n IH].
  - reflexivity.
  - rewrite sum_loop_S, IH, sum_7bit_take_S, load_drop. unfold to_uchar.
    rewrite Zplus_mod_idemp_l. reflexivity.
Qed.

Lemma negate_mask_spec (sum : Z) : negate_mask sum = (- sum) mod 128.
Proof.
  unfold negate_mask, to_uchar.
  change 127 with (Z.ones 7). rewrite Z.land_ones by lia.
  replace (Z.lnot sum + 1) with (- sum) by (unfold Z.lnot; lia).
  change (2 ^ 7) with 128.
  rewrite (Z.mod_small (_ mod 128) 256) by (pose proof (Z.mod_pos_bound ((- sum) mod 256) 128); lia).
  change 256 with (128 * 2). rewrite Z.rem_mul_r by lia.
  rewrite (Z.mul_comm 128), Z.mod_add by lia. apply Z.mod_mod. lia.
Qed.

Lemma Checksum_voices (sysex : list Z) :
  Checksum sysex = negate_mask (sum_7bit (voices sysex) mod 256).
Proof. unfold Checksum, voices. rewrite sum_loop_spec. reflexivity. Qed.

Lemma Checksum_range (sysex : list Z) : 0 <= Checksum sysex <= 127.
Proof.
  unfold Checksum. rewrite negate_mask_spec.
  pose proof (Z.mod_pos_bound (- sum_loop sysex DX7Sysex.voices rawDataSize) 128). lia.
Qed.

(** The scenario of a canonical bank of zero bytes: its checksum is 0. *)
Example Checksum_bank_zero : Checksum bank_zero = 0.
Proof. vm_compute. reflexivity. Qed.

(** C1.  The bank checksum is the two's complement ([~sum + 1], as an
    8-bit value) of the sum, accumulated modulo 256, of the payload bytes
    each masked to 7 bits, itself masked to 7 bits.  Consequently the
    7-bit sum of the payload plus the checksum is 0 modulo 128, and the
    checksum lies in 0..127.  The payload [voices sysex] is the 4096 bytes
    after the 6-byte header. *)
Theorem C1_Checksum_twos_complement (sysex : list Z) :
  Checksum sysex
    = Z.land (to_uchar (Z.lnot (sum_7bit (voices sysex) mod 256) + 1)) 0x7F
  /\ (sum_7bit (voices sysex) + Checksum sysex) mod 128 = 0
  /\ 0 <= Checksum sysex <= 127.
Proof.
  split; [|split].
  - rewrite Checksum_voices. unfold negate_mask.
    set (x := Z.land _ 127). unfold to_uchar at 1.
    apply Z.mod_small. subst x.
    change 127 with (Z.ones 7). rewrite Z.land_ones by lia.
    pose proof (Z.mod_pos_bound (to_uchar (Z.lnot (sum_7bit (voices sysex) mod 256) + 1)) (2 ^ 7)).
    lia.
  - rewrite Checksum_voices, negate_mask_spec.
    set (s := sum_7bit (voices sysex)).
    rewrite Zplus_mod_idemp_r.
    replace (- (s mod 256)) with (- s + 128 * (2 * (s / 256))) by
      (pose proof (Z.div_mod s 256); lia).
    replace (s + (- s + 128 * (2 * (s / 256)))) with ((2 * (s / 256)) * 128) by lia.
    apply Z.mod_mul. lia.
  - apply Checksum_range.
Qed.

(** C10.  The bank checksum depends only on the 4096 payload bytes: two
    buffers with the same voices array have the same checksum, whatever
    their header bytes, stored checksum byte and end marker are. *)
Theorem C10_Checksum_depends_on_voices_only (sysex1 sysex2 : list Z) :
  voices sysex1 = voices sysex2 -> Checksum sysex1 = Checksum sysex2.
Proof. intros H. rewrite !Checksum_voices, H. reflexivity. Qed.

Lemma C10_Checksum_depends_on_voices_only_witness :
  voices bank_zero = voices bank_zero_other_frame
  /\ Checksum bank_zero = Checksum bank_zero_other_frame.
Proof.
  split; [vm_compute; reflexivity|].
  apply (C10_Checksum_depends_on_voices_only bank_zero bank_zero_other_frame).
  vm_compute. reflexivity.
Defined.

(** ** Statements that keep the buffer *)

Create HintDb keeps discriminated.

Lemma keeps_skip {R} : keeps_buffer (@skip R).
Proof. intros g. reflexivity. Qed.

Lemma keeps_Return {R} (r : R) : keeps_buffer (Return r).
Proof. intros g. reflexivity. Qed.

Lemma keeps_seq {R} (s1 s2 : stmt R) :
  keeps_buffer s1 -> keeps_buffer s2 -> keeps_buffer (seq_stmt s1 s2).
Proof.
  intros H1 H2 g. unfold seq_stmt. specialize (H1 g).
  destruct (s1 g) as [g' [r|]]; simpl in *; [exact H1|].
  rewrite H2. exact H1.
Qed.

Lemma keeps_eval {A R} (e : globals -> A) (k : A -> stmt R) :
  (forall a, keeps_buffer (k a)) -> keeps_buffer (eval e k).
Proof. intros H g. apply H. Qed.

Lemma keeps_IfThenElse {R} (c : globals -> bool) (s1 s2 : stmt R) :
  keeps_buffer s1 -> keeps_buffer s2 -> keeps_buffer (IfThenElse c s1 s2).
Proof. intros H1 H2 g. unfold IfThenElse. destruct (c g); [apply H1 | apply H2]. Qed.

Lemma keeps_IfThen {R} (c : globals -> bool) (s : stmt R) :
  keeps_buffer s -> keeps_buffer (IfThen c s).
Proof. intros H. apply keeps_IfThenElse; [exact H | apply keeps_skip]. Qed.

Lemma keeps_sprintf_msgBuffer {R} (m : message) : keeps_buffer (@sprintf_msgBuffer R m).
Proof. intros g. reflexivity. Qed.

Lemma keeps_printf {R} (m : message) : keeps_buffer (@printf R m).
Proof. intros g. reflexivity. Qed.

Lemma keeps_emit {R} (e : globals -> event) :
  keeps_buffer (@exec R (fun g => emit (e g) g)).
Proof. intros g. reflexivity. Qed.

Lemma keeps_set_fixNeeded {R} (v : bool) : keeps_buffer (@exec R (set_fixNeeded v)).
Proof. intros g. reflexivity. Qed.

#[local] Hint Resolve keeps_skip keeps_Return keeps_seq keeps_eval
  keeps_IfThenElse keeps_IfThen keeps_sprintf_msgBuffer keeps_printf
  keeps_emit keeps_set_fixNeeded : keeps.

(** C9.  The structural validator only reads the buffer: after [Verify]
    every byte of the buffer is what it was before, whether [Verify]
    returns 0 or 1 and whether or not it sets [fixNeeded]; its diagnostics
    go to [msgBuffer] and [fixNeeded]. *)
Theorem C9_Verify_leaves_buffer_unchanged (g : globals) :
  buffer (fst (Verify g)) = buffer g.
Proof.
  assert (K : keeps_buffer Verify).
  { (* every test reads, every branch writes [msgBuffer] or [fixNeeded] *)
    unfold Verify. auto 20 with keeps. }
  exact (K g).
Qed.

(** ** C conditions *)

Lemma c_true_c_ne (a b : Z) : c_true (c_ne a b) = negb (Z.eqb a b).
Proof. unfold c_true, c_ne. destruct (Z.eqb a b); reflexivity. Qed.

Lemma c_true_c_ne_false (a b : Z) : a = b -> c_true (c_ne a b) = false.
Proof. intros ->. rewrite c_true_c_ne, Z.eqb_refl. reflexivity. Qed.

Lemma c_true_c_ne_true (a b : Z) : a <> b -> c_true (c_ne a b) = true.
Proof. intros H. rewrite c_true_c_ne. apply Z.eqb_neq in H. rewrite H. reflexivity. Qed.

(** The sub-status test of both validators: the mask [0xF0 != 0] is 1, so
    the test reads bit 0 of the byte. *)
Lemma substatus_test (b : Z) :
  c_true (Z.land b (c_ne 0xF0 0)) = Z.testbit b 0.
Proof.
  change (c_ne 240 0) with (Z.ones 1). rewrite Z.land_ones by lia.
  change (2 ^ 1) with 2. rewrite Zmod_odd, Z.bit0_odd.
  destruct (Z.odd b); reflexivity.
Qed.

(** ** The repaired buffer *)

Lemma voices_store (sysex : list Z) (i : nat) (v : Z) :
  (i < DX7Sysex.voices \/ DX7Sysex.checksum <= i)%nat ->
  voices (store sysex i v) = voices sysex.
Proof.
  unfold DX7Sysex.voices, DX7Sysex.checksum. intros H.
  unfold voices, store, DX7Sysex.voices, rawDataSize.
  apply list_eq. intros k.
  destruct (decide (k < 4096)%nat) as [Hk|Hk].
  - rewrite !lookup_take_lt, !lookup_drop by exact Hk.
    apply list_lookup_insert_ne. lia.
  - rewrite !lookup_take_ge by lia. reflexivity.
Qed.

Lemma Checksum_store (sysex : list Z) (i : nat) (v : Z) :
  (i < DX7Sysex.voices \/ DX7Sysex.checksum <= i)%nat ->
  Checksum (store sysex i v) = Checksum sysex.
Proof. intros H. rewrite !Checksum_voices, voices_store by exact H. reflexivity. Qed.

Lemma to_uchar_Checksum (sysex : list Z) : to_uchar (Checksum sysex) = Checksum sysex.
Proof. unfold to_uchar. apply Z.mod_small. pose proof (Checksum_range sysex). lia. Qed.

Ltac offsets :=
  unfold DX7Sysex.sysexBeginF0, DX7Sysex.yamaha43, DX7Sysex.subStatusAndChannel,
    DX7Sysex.format9, DX7Sysex.sizeMSB, DX7Sysex.sizeLSB, DX7Sysex.voices,
    DX7Sysex.checksum, DX7Sysex.sysexEndF7, sysexSize, rawDataSize in *.

(** Reading a member back from nested stores. *)
Ltac load_stores :=
  repeat first
    [ rewrite load_store_ne by (offsets; lia)
    | rewrite load_store_eq by (rewrite ?length_store; offsets; lia) ].

Lemma FixFile_bytes_header (sysex : list Z) :
  length sysex = sysexSize ->
  load (FixFile_bytes sysex) DX7Sysex.sysexBeginF0 = 0xF0
  /\ load (FixFile_bytes sysex) DX7Sysex.yamaha43 = 0x43
  /\ load (FixFile_bytes sysex) DX7Sysex.subStatusAndChannel = 0
  /\ load (FixFile_bytes sysex) DX7Sysex.format9 = 0x09
  /\ load (FixFile_bytes sysex) DX7Sysex.sizeMSB = 0x20
  /\ load (FixFile_bytes sysex) DX7Sysex.sizeLSB = 0
  /\ load (FixFile_bytes sysex) DX7Sysex.sysexEndF7 = 0xF7.
Proof.
  intros Hlen. unfold FixFile_bytes. cbv zeta.
  repeat split; load_stores; reflexivity.
Qed.

Lemma FixFile_bytes_checksum (sysex : list Z) :
  length sysex = sysexSize ->
  load (FixFile_bytes sysex) DX7Sysex.checksum = Checksum (FixFile_bytes sysex).
Proof.
  intros Hlen. unfold FixFile_bytes. cbv zeta.
  rewrite (Checksum_store _ DX7Sysex.sysexEndF7) by (offsets; lia).
  rewrite (Checksum_store _ DX7Sysex.checksum) by (offsets; lia).
  load_stores. apply to_uchar_Checksum.
Qed.

(** ** Stepping through statements *)

Lemma seq_IfThen_skip {R} (c : globals -> bool) (s k : stmt R) (g : globals) :
  c g = false -> seq_stmt (IfThen c s) k g = k g.
Proof. intros H. unfold seq_stmt, IfThen, IfThenElse, skip. rewrite H. reflexivity. Qed.

Lemma seq_IfThen_enter {R} (c : globals -> bool) (s k : stmt R) (g : globals) :
  c g = true -> seq_stmt (IfThen c s) k g = seq_stmt s k g.
Proof. intros H. unfold seq_stmt, IfThen, IfThenElse. rewrite H. reflexivity. Qed.

Lemma seq_exec {R} (f : globals -> globals) (k : stmt R) (g : globals) :
  seq_stmt (exec f) k g = k (f g).
Proof. reflexivity. Qed.

Lemma seq_Return {R} (r : R) (k : stmt R) (g : globals) :
  seq_stmt (Return r) k g = (g, Some r).
Proof. reflexivity. Qed.

Lemma seq_assoc {R} (s1 s2 s3 : stmt R) (g : globals) :
  seq_stmt (seq_stmt s1 s2) s3 g = seq_stmt s1 (seq_stmt s2 s3) g.
Proof.
  unfold seq_stmt. destruct (s1 g) as [g1 [r|]]; [reflexivity|].
  destruct (s2 g1) as [g2 [r|]]; reflexivity.
Qed.

Lemma eval_step {A R} (e : globals -> A) (k : A -> stmt R) (g : globals) :
  eval e k g = k (e g) g.
Proof. reflexivity. Qed.

Lemma seq_eval {A R} (e : globals -> A) (k1 : A -> stmt R) (k : stmt R) (g : globals) :
  seq_stmt (eval e k1) k g = seq_stmt (k1 (e g)) k g.
Proof. reflexivity. Qed.

Lemma seq_IfThenElse_true {R} (c : globals -> bool) (s1 s2 k : stmt R) (g : globals) :
  c g = true -> seq_stmt (IfThenElse c s1 s2) k g = seq_stmt s1 k g.
Proof. intros H. unfold seq_stmt, IfThenElse. rewrite H. reflexivity. Qed.

Lemma seq_call {A R} (body : stmt A) (dflt : A) (k1 : A -> stmt R) (k : stmt R)
    (g g' : globals) (a : A) :
  body g = (g', Some a) -> seq_stmt (call body dflt k1) k g = seq_stmt (k1 a) k g'.
Proof. intros H. unfold seq_stmt, call. rewrite H. reflexivity. Qed.



(** Straight-line steps of a statement sequence. *)
Ltac step :=
  repeat first
    [ rewrite seq_assoc
    | rewrite seq_exec
    | rewrite seq_eval
    | rewrite seq_Return
    | progress unfold sprintf_msgBuffer, printf, PrintFilename ].

(** Case analysis on the condition of the [IF] a sequence starts with. *)
Ltac step_if E :=
  match goal with
  | |- context [seq_stmt (IfThen ?c ?s) ?k ?g] =>
      destruct (c g) eqn:E;
      [ rewrite (seq_IfThen_enter c s k g E)
      | rewrite (seq_IfThen_skip c s k g E) ]
  end.

(** ** Running the validator *)

(** The scenario of a canonical bank of zero bytes: [Verify] returns 0 and
    changes nothing. *)
Example Verify_bank_zero :
  Verify (globals_with bank_zero) = (globals_with bank_zero, Some 0).
Proof. vm_compute. reflexivity. Qed.

(** The same bank with the checksum byte 1: [Verify] returns 0, sets
    [fixNeeded] and the checksum message, and [FixFile] writes the byte 0
    back. *)
Example Verify_bank_zero_bad_checksum :
  snd (Verify (globals_with (store bank_zero DX7Sysex.checksum 1))) = Some 0
  /\ fixNeeded (fst (Verify (globals_with (store bank_zero DX7Sysex.checksum 1))))
     = true
  /\ msgBuffer (fst (Verify (globals_with (store bank_zero DX7Sysex.checksum 1))))
     = Some (Msg_checksum 0)
  /\ FixFile_bytes (store bank_zero DX7Sysex.checksum 1) = bank_zero.
Proof. split; [|split; [|split]]; vm_compute; reflexivity. Qed.

(** A buffer on which every test of [Verify] passes makes it return 0
    with the globals as they were. *)
Lemma Verify_pass (g : globals) :
  member DX7Sysex.sysexBeginF0 g = 0xF0 ->
  member DX7Sysex.yamaha43 g = 0x43 ->
  Z.testbit (member DX7Sysex.subStatusAndChannel g) 0 = false ->
  member DX7Sysex.format9 g = 0x09 ->
  member DX7Sysex.sizeMSB g = 0x20 ->
  member DX7Sysex.sizeLSB g = 0 ->
  member DX7Sysex.sysexEndF7 g = 0xF7 ->
  member DX7Sysex.checksum g = Checksum (buffer g) ->
  Verify g = (g, Some 0).
Proof.
  intros H0 H1 H2 H3 H4 H5 H7 H6. unfold Verify.
  rewrite seq_IfThen_skip by (apply c_true_c_ne_false; exact H0).
  rewrite seq_IfThen_skip by (apply c_true_c_ne_false; exact H1).
  rewrite seq_IfThen_skip by (rewrite substatus_test; exact H2).
  rewrite seq_IfThen_skip by (apply c_true_c_ne_false; exact H3).
  rewrite seq_IfThen_skip by (rewrite !c_true_c_ne_false by assumption; reflexivity).
  rewrite seq_IfThen_skip by (apply c_true_c_ne_false; exact H7).
  rewrite eval_step.
  rewrite seq_IfThen_skip by (apply c_true_c_ne_false; symmetry; exact H6).
  reflexivity.
Qed.

Lemma FixFile_buffer (opt : options) (w : os) (filename : string) (g : globals) :
  buffer (fst (FixFile opt w filename g)) = FixFile_bytes (buffer g).
Proof.
  unfold FixFile, assign_member. cbv zeta. rewrite !seq_exec.
  match goal with
  | |- buffer (fst (?s ?g')) = _ =>
      assert (K : keeps_buffer s) by (unfold printf; auto 20 with keeps);
      rewrite K
  end.
  reflexivity.
Qed.

(** ** Repair engine *)

(** C3.  Repair convergence.  Take any bank buffer of [sysexSize] bytes
    (in particular one whose only deviations are the recoverable ones: bad
    sub-status, format id, size bytes or checksum) and let [FixFile] repair
    it.  Validating the repaired bytes, in globals whose [fixNeeded] is
    clear, returns 0 (pass), leaves [fixNeeded] clear (no repair needed)
    and writes no diagnostic. *)
Theorem C3_repair_convergence
    (opt : options) (w : os) (filename : string) (g g0 : globals) :
  length (buffer g) = sysexSize ->
  fixNeeded g0 = false ->
  let g' := set_buffer (buffer (fst (FixFile opt w filename g))) g0 in
  snd (Verify g') = Some 0
  /\ fixNeeded (fst (Verify g')) = false
  /\ msgBuffer (fst (Verify g')) = msgBuffer g0.
Proof.
  intros Hlen Hfix g'.
  assert (Hbuf : buffer g' = FixFile_bytes (buffer g))
    by (unfold g'; rewrite FixFile_buffer; reflexivity).
  destruct (FixFile_bytes_header (buffer g) Hlen)
    as (H0 & H1 & H2 & H3 & H4 & H5 & H7).
  pose proof (FixFile_bytes_checksum (buffer g) Hlen) as H6.
  rewrite <- Hbuf in H0, H1, H2, H3, H4, H5, H6, H7.
  rewrite (Verify_pass g' H0 H1 (f_equal (fun b => Z.testbit b 0) H2)
             H3 H4 H5 H7 H6).
  cbn [fst snd]. auto.
Qed.

Lemma C3_repair_convergence_witness :
  length (buffer (globals_with bank_recoverable)) = sysexSize
  /\ snd (Verify (set_buffer
        (buffer (fst (FixFile example_options (example_os bank_recoverable 0)
                              "bank.syx" (globals_with bank_recoverable))))
        globals_init)) = Some 0
  /\ fixNeeded (fst (Verify (set_buffer
        (buffer (fst (FixFile example_options (example_os bank_recoverable 0)
                              "bank.syx" (globals_with bank_recoverable))))
        globals_init))) = false
  /\ msgBuffer (fst (Verify (set_buffer
        (buffer (fst (FixFile example_options (example_os bank_recoverable 0)
                              "bank.syx" (globals_with bank_recoverable))))
        globals_init))) = None.
Proof.
  split; [reflexivity|].
  apply (C3_repair_convergence example_options (example_os bank_recoverable 0)
           "bank.syx" (globals_with bank_recoverable) globals_init);
    reflexivity.
Defined.

(** C2.  When a backup is requested ([noBackup] is off) and [rename] of the
    file to [<filename>.ORIG] fails, [FixFile] returns 1 after the failed
    [rename] and its message: the events it adds to the trace are these
    two, so the file is neither opened for writing nor written. *)
Theorem C2_failed_backup_aborts_before_write
    (opt : options) (w : os) (filename : string) (g : globals) :
  noBackup opt = false ->
  os_rename w filename (filename +:+ ".ORIG") <> 0 ->
  snd (FixFile opt w filename g) = Some 1
  /\ trace (fst (FixFile opt w filename g))
     = trace g ++ [Ev_rename filename (filename +:+ ".ORIG")
                     (os_rename w filename (filename +:+ ".ORIG"));
                   Ev_print Msg_rename_failed]
  /\ Forall (fun e => write_event e = false)
            (drop (length (trace g)) (trace (fst (FixFile opt w filename g)))).
Proof.
  intros Hbackup Hrc.
  assert (E : FixFile opt w filename g
              = (emit (Ev_print Msg_rename_failed)
                   (emit (Ev_rename filename (filename +:+ ".ORIG")
                            (os_rename w filename (filename +:+ ".ORIG")))
                      (set_buffer (FixFile_bytes (buffer g)) g)),
                 Some 1)).
  { unfold FixFile, assign_member. cbv zeta. rewrite !seq_exec.
    rewrite seq_IfThen_enter by (rewrite Hbackup; reflexivity).
    rewrite seq_assoc, seq_exec.
    rewrite seq_IfThen_enter
      by (unfold c_true; apply Z.eqb_neq in Hrc; rewrite Hrc; reflexivity).
    unfold printf. rewrite seq_assoc, seq_exec, seq_Return.
    reflexivity. }
  rewrite E. cbn [fst snd trace emit set_buffer]. rewrite <- app_assoc.
  split; [reflexivity|]. split; [reflexivity|].
  rewrite drop_app_length. repeat constructor.
Qed.

Lemma C2_failed_backup_aborts_before_write_witness :
  snd (FixFile example_options (example_os bank_recoverable (-1)) "bank.syx"
               (globals_with bank_recoverable)) = Some 1
  /\ trace (fst (FixFile example_options (example_os bank_recoverable (-1))
                         "bank.syx" (globals_with bank_recoverable)))
     = trace (globals_with bank_recoverable)
       ++ [Ev_rename "bank.syx" ("bank.syx" +:+ ".ORIG")
             (os_rename (example_os bank_recoverable (-1))
                        "bank.syx" ("bank.syx" +:+ ".ORIG"));
           Ev_print Msg_rename_failed]
  /\ Forall (fun e => write_event e = false)
            (drop (length (trace (globals_with bank_recoverable)))
                  (trace (fst (FixFile example_options
                                 (example_os bank_recoverable (-1)) "bank.syx"
                                 (globals_with bank_recoverable))))).
Proof.
  apply (C2_failed_backup_aborts_before_write example_options
           (example_os bank_recoverable (-1)) "bank.syx"
           (globals_with bank_recoverable)).
  - reflexivity.
  - cbn [os_rename example_os]. lia.
Defined.

(** ** A wrong end marker *)

Lemma c_true_c_ne_inv (a b : Z) : c_true (c_ne a b) = true -> a <> b.
Proof. rewrite c_true_c_ne. intros H ->. rewrite Z.eqb_refl in H. discriminate. Qed.

(** What [Verify] does to a buffer whose end marker is wrong. *)
Lemma Verify_bad_end (g : globals) :
  member DX7Sysex.sysexEndF7 g <> 0xF7 ->
  exists m fx,
    Verify g = (set_msgBuffer (Some m) (set_fixNeeded fx g), Some 1)
    /\ (m = Msg_no_F0 \/ m = Msg_no_43 \/ m = Msg_no_F7)
    /\ (fx = true -> fixNeeded g = true \/ header_deviation (buffer g)).
Proof.
  intros Hend. unfold Verify.
  step_if E0.
  { step. exists Msg_no_F0, (fixNeeded g). destruct g; auto. }
  step_if E1.
  { step. exists Msg_no_43, (fixNeeded g). destruct g; auto. }
  exists Msg_no_F7.
  step_if E2; step; (step_if E3; step); (step_if E4; step);
    (rewrite seq_IfThen_enter
       by (apply c_true_c_ne_true; exact Hend));
    step.
  all: try (exists true; split; [destruct g; reflexivity|]; split; [auto|];
            intros _; right; unfold header_deviation).
  all: try (exists (fixNeeded g); split; [destruct g; reflexivity|]; split; [auto|];
            intros H; left; exact H).
  all: unfold member in *; cbn [buffer set_msgBuffer set_fixNeeded] in *.
  all: try (rewrite substatus_test in E2; tauto).
  all: try (apply c_true_c_ne_inv in E3; tauto).
  all: apply orb_true_iff in E4; destruct E4 as [E4|E4];
       apply c_true_c_ne_inv in E4; tauto.
Qed.

Lemma list_inserts_whole (k l : list Z) :
  length k = length l -> list_inserts 0 k l = k.
Proof.
  intros H. rewrite <- (app_nil_r l), list_inserts_0_r by exact H.
  apply app_nil_r.
Qed.

(** Reading a whole bank-dump into the buffer. *)
Lemma fread_whole_bank (file : list Z) :
  length file = sysexSize ->
  list_inserts 0 (take sysexSize file) (buffer globals_init) = file.
Proof.
  intros H. rewrite <- H, firstn_all.
  apply list_inserts_whole. cbn [buffer globals_init].
  rewrite length_replicate. exact H.
Qed.

(** C6.  A bank buffer whose end marker is not 0xF7 is fatal.  [Verify]
    returns 1; the message it leaves is one of the three fatal ones, never
    the checksum one, so the checksum test is not reached; and [fixNeeded]
    is set afterwards only if it was set before or the header has one of
    the recoverable deviations, never because of the end marker.  And when
    [processFile] reads such bytes from a file of [sysexSize] bytes it
    returns 1 without asking whether to fix and without any system call of
    the repair. *)
Theorem C6_bad_end_marker_is_fatal
    (g : globals) (opt : options) (w : os) (filename : string) (file : list Z) :
  member DX7Sysex.sysexEndF7 g <> 0xF7 ->
  os_fopen_r w filename = Some file ->
  length file = sysexSize ->
  load file DX7Sysex.sysexEndF7 <> 0xF7 ->
  (snd (Verify g) = Some 1
   /\ (forall sum, msgBuffer (fst (Verify g)) <> Some (Msg_checksum sum))
   /\ (fixNeeded (fst (Verify g)) = true ->
       fixNeeded g = true \/ header_deviation (buffer g)))
  /\ (snd (processFile opt w filename globals_init) = Some 1
      /\ Forall (fun e => repair_event e = false)
                (trace (fst (processFile opt w filename globals_init)))).
Proof.
  intros Hend Hopen Hlen Hfile. split.
  - destruct (Verify_bad_end g Hend) as (m & fx & -> & Hm & Hfx).
    cbn [fst snd msgBuffer fixNeeded set_msgBuffer set_fixNeeded].
    split; [reflexivity|]. split; [|exact Hfx].
    intros sum. destruct Hm as [-> | [-> | ->]]; discriminate.
  - unfold processFile, processFile_with, processFile_read.
    rewrite Hopen. step.
    rewrite seq_IfThenElse_true
      by (cbn [fsize set_fsize]; rewrite Hlen; reflexivity).
    unfold fread. cbv zeta. step.
    destruct (os_fread_ok w) eqn:Hread.
    + rewrite seq_IfThen_enter by reflexivity. step.
      rewrite seq_IfThen_skip by reflexivity.
      unfold processFile_rest.
      rewrite seq_IfThen_skip by reflexivity.
      rewrite seq_IfThen_enter by reflexivity.
      match goal with
      | |- context [seq_stmt (call Verify 0 ?k1) ?k ?g1] =>
          assert (Hend1 : member DX7Sysex.sysexEndF7 g1 <> 0xF7)
            by (unfold member; cbn [buffer set_buffer emit set_fsize];
                rewrite (fread_whole_bank file Hlen); exact Hfile);
          destruct (Verify_bad_end g1 Hend1) as (m & fx & HV & _ & _);
          rewrite (seq_call Verify 0 k1 k g1 _ 1 HV)
      end.
      rewrite seq_IfThen_enter by reflexivity. step.
      cbn [fst snd trace emit set_buffer set_fsize set_msgBuffer
           set_fixNeeded globals_init app].
      split; [reflexivity|]. repeat constructor.
    + rewrite seq_IfThen_skip by reflexivity.
      rewrite seq_IfThen_enter by reflexivity. step.
      cbn [fst snd trace emit set_buffer set_fsize globals_init app].
      split; [reflexivity|]. repeat constructor.
Qed.

Lemma C6_bad_end_marker_is_fatal_witness :
  (snd (Verify (globals_with bank_bad_end)) = Some 1
   /\ (forall sum, msgBuffer (fst (Verify (globals_with bank_bad_end)))
                   <> Some (Msg_checksum sum))
   /\ (fixNeeded (fst (Verify (globals_with bank_bad_end))) = true ->
       fixNeeded (globals_with bank_bad_end) = true
       \/ header_deviation (buffer (globals_with bank_bad_end))))
  /\ (snd (processFile example_options (example_os bank_bad_end 0) "bank.syx"
                       globals_init) = Some 1
      /\ Forall (fun e => repair_event e = false)
                (trace (fst (processFile example_options
                               (example_os bank_bad_end 0) "bank.syx"
                               globals_init)))).
Proof.
  apply (C6_bad_end_marker_is_fatal (globals_with bank_bad_end) example_options
           (example_os bank_bad_end 0) "bank.syx" bank_bad_end).
  - vm_compute. discriminate.
  - reflexivity.
  - reflexivity.
  - vm_compute. discriminate.
Defined.

(** ** The sub-status test *)

(** C4.  [Verify] on two banks that are canonical but for their
    sub-status/channel byte.  With the byte 0x10 (sub-status 1, channel 0)
    the high nibble is not zero, yet [Verify] returns 0 without setting
    [fixNeeded] or a message.  With the byte 0x01 (sub-status 0, channel 1)
    the high nibble is zero, yet [Verify] sets [fixNeeded] and the
    sub-status message.  The test [subStatusAndChannel & 0xF0 != 0] is
    parsed as [subStatusAndChannel & (0xF0 != 0)] and reads bit 0. *)
Theorem C4_Verify_substatus_test_reads_bit_0 :
  (Z.land (member DX7Sysex.subStatusAndChannel (globals_with bank_substatus_1))
          0xF0 <> 0
   /\ Verify (globals_with bank_substatus_1)
      = (globals_with bank_substatus_1, Some 0)
   /\ fixNeeded (fst (Verify (globals_with bank_substatus_1))) = false)
  /\ (Z.land (member DX7Sysex.subStatusAndChannel (globals_with bank_channel_1))
             0xF0 = 0
      /\ snd (Verify (globals_with bank_channel_1)) = Some 0
      /\ fixNeeded (fst (Verify (globals_with bank_channel_1))) = true
      /\ msgBuffer (fst (Verify (globals_with bank_channel_1)))
         = Some (Msg_substatus 0)).
Proof.
  split.
  - split; [vm_compute; discriminate|]. split; vm_compute; reflexivity.
  - split; [|split; [|split]]; vm_compute; reflexivity.
Qed.

(** ** Single-voice validator *)

(** C5 as stated fails: a single-voice dump whose header and end marker
    are right and whose checksum byte is wrong ends with the error code 2,
    which is not zero, and [VerifySingle] returns 0 all the same. *)
Lemma C5_counterexample_checksum_mismatch_returns_0 :
  snd (VerifySingle_body (globals_with (single_dump 1))) = Some (0, 2)
  /\ snd (VerifySingle (globals_with (single_dump 1))) = Some 0
  /\ ~ (forall rc error,
          snd (VerifySingle_body (globals_with (single_dump 1)))
          = Some (rc, error) ->
          (rc <> 0 <-> error <> 0)).
Proof.
  assert (E : snd (VerifySingle_body (globals_with (single_dump 1)))
              = Some (0, 2)) by (vm_compute; reflexivity).
  split; [exact E|]. split; [vm_compute; reflexivity|].
  intros H. destruct (H 0 2 E) as [_ H2]. apply H2; [discriminate | reflexivity].
Qed.

(** The error code of the seven header and footer tests, bit by bit. *)
Lemma VerifySingle_header_error_bits (sysex : list Z) :
  let error := VerifySingle_header_error sysex in
  Z.testbit error 7 = negb (Z.eqb (load sysex DX7SingleSysex.sysexBeginF0) 0xF0)
  /\ Z.testbit error 6 = negb (Z.eqb (load sysex DX7SingleSysex.yamaha43) 0x43)
  /\ Z.testbit error 5
     = c_true (Z.land (load sysex DX7SingleSysex.subStatusAndChannel) (c_ne 0xF0 0))
  /\ Z.testbit error 4 = negb (Z.eqb (load sysex DX7SingleSysex.format0) 0x00)
  /\ Z.testbit error 3 = negb (Z.eqb (load sysex DX7SingleSysex.sizeMSB) 0x01)
  /\ Z.testbit error 2 = negb (Z.eqb (load sysex DX7SingleSysex.sizeLSB) 0x1B)
  /\ Z.testbit error 0 = negb (Z.eqb (load sysex DX7SingleSysex.sysexEndF7) 0xF7)
  /\ Z.testbit error 1 = false
  /\ 0 <= error < 256
  /\ Z.land error 0xFD = error.
Proof.
  unfold VerifySingle_header_error. rewrite !c_true_c_ne.
  generalize (c_true (Z.land (load sysex DX7SingleSysex.subStatusAndChannel)
                             (c_ne 240 0))).
  intros b5.
  generalize (Z.eqb (load sysex DX7SingleSysex.sysexBeginF0) 240). intros b7.
  generalize (Z.eqb (load sysex DX7SingleSysex.yamaha43) 67). intros b6.
  generalize (Z.eqb (load sysex DX7SingleSysex.format0) 0). intros b4.
  generalize (Z.eqb (load sysex DX7SingleSysex.sizeMSB) 1). intros b3.
  generalize (Z.eqb (load sysex DX7SingleSysex.sizeLSB) 27). intros b2.
  generalize (Z.eqb (load sysex DX7SingleSysex.sysexEndF7) 247). intros b0.
  destruct b7, b6, b5, b4, b3, b2, b0; cbn;
    repeat (split; try reflexivity; try lia).
Qed.

(** The three ways [VerifySingle] ends. *)
Lemma VerifySingle_body_cases (g : globals) :
  let error := VerifySingle_header_error (buffer g) in
  let sum := ChecksumSingle (buffer g) DX7SingleSysex.voice sizeof_VoiceUnpacked in
  VerifySingle_body g =
    if Z.eqb error 0
    then if Z.eqb sum (member DX7SingleSysex.checksum g)
         then (g, Some (0, 0))
         else (emit (Ev_print (Msg_checksum_single sum)) g, Some (0, 2))
    else (g, Some (1, error)).
Proof.
  intros error sum. unfold VerifySingle_body. rewrite eval_step. fold error.
  unfold seq_stmt at 1. unfold IfThen at 1. unfold IfThenElse at 1.
  destruct (Z.eqb_spec error 0) as [E|E]; [|reflexivity].
  rewrite eval_step. fold sum.
  unfold seq_stmt, IfThen, IfThenElse, skip, Return, printf, exec.
  rewrite c_true_c_ne, E.
  destruct (Z.eqb sum (member DX7SingleSysex.checksum g)); reflexivity.
Qed.

(** One side of an equivalence between facts about numerals. *)
Ltac iff_side :=
  let H := fresh in
  intros H;
  first [ reflexivity | assumption | discriminate H | lia
        | exfalso; apply H; reflexivity ].

(** C5, amended.  [VerifySingle] always returns, and its error code is
    made of distinct bits: 128 for the start marker, 64 for the vendor id,
    32 for the sub-status test, 16 for the format id, 8 and 4 for the two
    size bytes, 1 for the end marker.  The sub-status test is the one of
    [Verify], whose defect is C4; on every buffer that the defect leaves
    alone (the lowest bit of the sub-status/channel byte is set exactly
    when its high nibble is not zero, as for the byte 0), the bit 32 is
    set exactly when the high nibble is not zero.  The checksum is
    verified only when the seven bits are clear, and a mismatch then adds
    the bit 2 and prints the checksum message; nothing else is printed
    and no global is changed.  The function returns 1 exactly when one of
    the seven structural bits is set, and 0 otherwise: also on a checksum
    mismatch. *)
Theorem C5_VerifySingle_error_code (g : globals) :
  exists rc error,
    snd (VerifySingle_body g) = Some (rc, error)
    /\ snd (VerifySingle g) = Some rc
    /\ Z.testbit error 7
       = negb (Z.eqb (member DX7SingleSysex.sysexBeginF0 g) 0xF0)
    /\ Z.testbit error 6
       = negb (Z.eqb (member DX7SingleSysex.yamaha43 g) 0x43)
    /\ (Z.testbit (member DX7SingleSysex.subStatusAndChannel g) 0
        = negb (Z.eqb (Z.land (member DX7SingleSysex.subStatusAndChannel g) 0xF0) 0) ->
        Z.testbit error 5
        = negb (Z.eqb (Z.land (member DX7SingleSysex.subStatusAndChannel g) 0xF0) 0))
    /\ Z.testbit error 4
       = negb (Z.eqb (member DX7SingleSysex.format0 g) 0x00)
    /\ Z.testbit error 3
       = negb (Z.eqb (member DX7SingleSysex.sizeMSB g) 0x01)
    /\ Z.testbit error 2
       = negb (Z.eqb (member DX7SingleSysex.sizeLSB g) 0x1B)
    /\ Z.testbit error 0
       = negb (Z.eqb (member DX7SingleSysex.sysexEndF7 g) 0xF7)
    /\ Z.testbit error 1
       = Z.eqb (Z.land error 0xFD) 0
         && negb (Z.eqb (ChecksumSingle (buffer g) DX7SingleSysex.voice
                                        sizeof_VoiceUnpacked)
                        (member DX7SingleSysex.checksum g))
    /\ 0 <= error < 256
    /\ (rc = 1 <-> Z.land error 0xFD <> 0)
    /\ (rc = 0 <-> Z.land error 0xFD = 0)
    /\ fst (VerifySingle g)
       = (if Z.testbit error 1
          then emit (Ev_print (Msg_checksum_single
                                 (ChecksumSingle (buffer g) DX7SingleSysex.voice
                                                 sizeof_VoiceUnpacked))) g
          else g).
Proof.
  unfold VerifySingle. rewrite VerifySingle_body_cases. cbv zeta.
  destruct (VerifySingle_header_error_bits (buffer g))
    as (B7 & B6 & B5 & B4 & B3 & B2 & B0 & B1 & Hrange & Hland).
  cbv zeta in B7, B6, B5, B4, B3, B2, B0, B1, Hrange, Hland.
  rewrite substatus_test in B5.
  unfold member.
  set (error := VerifySingle_header_error (buffer g)) in *.
  set (sum := ChecksumSingle (buffer g) DX7SingleSysex.voice sizeof_VoiceUnpacked).
  set (ck := load (buffer g) DX7SingleSysex.checksum).
  generalize dependent (load (buffer g) DX7SingleSysex.subStatusAndChannel).
  intros sub B5.
  destruct (Z.eqb_spec error 0) as [E|E].
  - rewrite E in B7, B6, B5, B4, B3, B2, B0.
    destruct (Z.eqb sum ck).
    + exists 0, 0. cbn [fst snd fmap option_fmap option_map].
      rewrite <- B7, <- B6, <- B4, <- B3, <- B2, <- B0, <- B5.
      repeat (split; try reflexivity; try lia); iff_side.
    + exists 0, 2. cbn [fst snd fmap option_fmap option_map].
      rewrite <- B7, <- B6, <- B4, <- B3, <- B2, <- B0, <- B5.
      repeat (split; try reflexivity; try lia); iff_side.
  - exists 1, error. cbn [fst snd fmap option_fmap option_map].
    rewrite Hland, B1. apply Z.eqb_neq in E. rewrite E. apply Z.eqb_neq in E.
    repeat (split; try assumption; try reflexivity; try lia); try iff_side.
    intros H. rewrite B5. exact H.
Qed.

(** The scenario of a dump with a right frame and a wrong checksum byte,
    for which the sub-status/channel byte is 0. *)
Lemma C5_VerifySingle_error_code_witness :
  Z.testbit (member DX7SingleSysex.subStatusAndChannel
                    (globals_with (single_dump 1))) 0
  = negb (Z.eqb (Z.land (member DX7SingleSysex.subStatusAndChannel
                                (globals_with (single_dump 1))) 0xF0) 0)
  /\ exists rc error,
       snd (VerifySingle_body (globals_with (single_dump 1))) = Some (rc, error)
       /\ error = 2
       /\ rc = 0
       /\ Z.testbit error 5
          = negb (Z.eqb (Z.land (member DX7SingleSysex.subStatusAndChannel
                                        (globals_with (single_dump 1))) 0xF0) 0)
       /\ fst (VerifySingle (globals_with (single_dump 1)))
          = emit (Ev_print (Msg_checksum_single 0)) (globals_with (single_dump 1)).
Proof.
  split; [reflexivity|].
  destruct (C5_VerifySingle_error_code (globals_with (single_dump 1)))
    as (rc & error & Hbody & _ & _ & _ & H5 & _ & _ & _ & _ & _ & _ & _ & _ & Hfst).
  exists rc, error.
  assert (E : snd (VerifySingle_body (globals_with (single_dump 1)))
              = Some (0, 2)) by (vm_compute; reflexivity).
  rewrite E in Hbody. injection Hbody as <- <-.
  split; [exact E|]. split; [reflexivity|]. split; [reflexivity|].
  split; [apply H5; reflexivity|]. exact Hfst.
Defined.

(** ** Headerless banks *)




(** ** Duplicate detector *)

Lemma memcmp_spec (mem : list Z) (n s1 s2 : nat) :
  memcmp mem s1 s2 n = 0
  <-> forall k, (k < n)%nat -> load mem (s1 + k) = load mem (s2 + k).
Proof.
  revert s1 s2. induction n as [|n IH]; intros s1 s2; simpl.
  - split; [intros _ k Hk; lia | reflexivity].
  - destruct (Z.eqb_spec (load mem s1 - load mem s2) 0) as [E|E].
    + rewrite IH. split.
      * intros H [|k] Hk.
        -- rewrite !Nat.add_0_r. lia.
        -- rewrite <- !Nat.add_succ_comm. apply H. lia.
      * intros H k Hk. rewrite !Nat.add_succ_comm. apply H. lia.
    + split; [intros H; contradiction|].
      intros H. specialize (H 0%nat ltac:(lia)).
      rewrite !Nat.add_0_r in H. lia.
Qed.

Lemma take_drop_eq_load (mem : list Z) (n s1 s2 : nat) :
  (s1 + n <= length mem)%nat -> (s2 + n <= length mem)%nat ->
  take n (drop s1 mem) = take n (drop s2 mem)
  <-> forall k, (k < n)%nat -> load mem (s1 + k) = load mem (s2 + k).
Proof.
  intros H1 H2. split.
  - intros H k Hk.
    rewrite <- !load_drop, <- (load_take (drop s1 mem) n k Hk),
      <- (load_take (drop s2 mem) n k Hk), H.
    reflexivity.
  - intros H. apply list_eq. intros k.
    destruct (decide (k < n)%nat) as [Hk|Hk].
    + rewrite !lookup_take_lt, !lookup_drop by exact Hk.
      specialize (H k Hk). unfold load in H.
      destruct (lookup_lt_is_Some_2 mem (s1 + k) ltac:(lia)) as [x1 E1].
      destruct (lookup_lt_is_Some_2 mem (s2 + k) ltac:(lia)) as [x2 E2].
      rewrite E1, E2 in *. simpl in H. congruence.
    + rewrite !lookup_take_ge by lia. reflexivity.
Qed.

(** The test of [FindDupes] compares the first 118 bytes of two voice
    records. *)
Lemma dupe_spec (sysex : list Z) (i j : nat) :
  length sysex = sysexSize -> (i < 32)%nat -> (j < 32)%nat ->
  dupe sysex i j = true
  <-> take 118 (voice_record sysex i) = take 118 (voice_record sysex j).
Proof.
  intros Hlen Hi Hj. unfold dupe, voice_record.
  rewrite Z.eqb_eq, memcmp_spec, !take_take.
  change (118 `min` sizeof_VoicePacked)%nat with 118%nat.
  change (sizeof_VoicePacked - 10)%nat with 118%nat.
  symmetry. apply take_drop_eq_load;
    unfold voice_addr, DX7Sysex.voices, sizeof_VoicePacked, sysexSize in *; lia.
Qed.

Lemma add_events_nil (g : globals) : add_events [] g = g.
Proof. destruct g. unfold add_events. simpl. rewrite app_nil_r. reflexivity. Qed.

Lemma add_events_emit (e : event) (evs : list event) (g : globals) :
  add_events evs (emit e g) = add_events (e :: evs) g.
Proof. unfold add_events, emit. simpl. rewrite <- app_assoc. reflexivity. Qed.

Lemma add_events_app (evs1 evs2 : list event) (g : globals) :
  add_events evs2 (add_events evs1 g) = add_events (evs1 ++ evs2) g.
Proof. unfold add_events. simpl. rewrite <- app_assoc. reflexivity. Qed.

Lemma for_loop_cons (i : nat) (range : list nat)
    (body : nat -> globals * bool -> globals * bool) (s : globals * bool) :
  for_loop (i :: range) body s = for_loop range body (body i s).
Proof. reflexivity. Qed.

(** The inner loop of [FindDupes]. *)
Lemma FindDupes_inner_loop (i : nat) (js : list nat) (g : globals) (d : bool) :
  exists d',
    for_loop js (fun j '(g, dupeFound) =>
      let rc := memcmp (buffer g) (voice_addr i) (voice_addr j)
                       (sizeof_VoicePacked - 10) in
      if Z.eqb rc 0
      then (emit (found_event i j) g, true)
      else (g, dupeFound)) (g, d)
    = (add_events (map (found_event i) (List.filter (dupe (buffer g) i) js)) g, d').
Proof.
  unfold for_loop. revert g d. induction js as [|j js IH]; intros g d.
  - exists d. simpl. rewrite add_events_nil. reflexivity.
  - cbn [fold_left List.filter]. cbv zeta. fold (dupe (buffer g) i j).
    destruct (dupe (buffer g) i j).
    + destruct (IH (emit (found_event i j) g) true) as [d' E].
      exists d'. rewrite E. cbn [buffer emit map]. rewrite add_events_emit. reflexivity.
    + apply IH.
Qed.

(** The two loops of [FindDupes]. *)
Lemma FindDupes_loops (il : list nat) (g : globals) (d : bool) :
  exists d',
    for_loop il (fun i =>
      for_loop (seq (i + 1) (32 - (i + 1))) (fun j '(g, dupeFound) =>
        let rc := memcmp (buffer g) (voice_addr i) (voice_addr j)
                         (sizeof_VoicePacked - 10) in
        if Z.eqb rc 0
        then (emit (found_event i j) g, true)
        else (g, dupeFound))) (g, d)
    = (add_events
         (flat_map (fun i => map (found_event i)
                      (List.filter (dupe (buffer g) i) (seq (i + 1) (32 - (i + 1)))))
                   il) g, d').
Proof.
  revert g d. induction il as [|i il IH]; intros g d.
  - exists d. simpl. rewrite add_events_nil. reflexivity.
  - rewrite for_loop_cons.
    destruct (FindDupes_inner_loop i (seq (i + 1) (32 - (i + 1))) g d) as [d1 E1].
    rewrite E1.
    destruct (IH (add_events (map (found_event i)
                    (List.filter (dupe (buffer g) i) (seq (i + 1) (32 - (i + 1))))) g) d1)
      as [d' E].
    exists d'. rewrite E.
    cbn [buffer add_events flat_map]. rewrite add_events_app. reflexivity.
Qed.

Lemma reported_pairs_app (t1 t2 : list event) :
  reported_pairs (t1 ++ t2) = reported_pairs t1 ++ reported_pairs t2.
Proof.
  induction t1 as [|e t1 IH]; [reflexivity|].
  destruct e as [m| | | | | | | | |]; simpl; try exact IH.
  destruct m; simpl; try exact IH. rewrite IH. reflexivity.
Qed.

Lemma reported_pairs_found (i : nat) (js : list nat) :
  reported_pairs (map (found_event i) js)
  = map (fun j => (Z.of_nat i, Z.of_nat j)) js.
Proof.
  induction js as [|j js IH]; [reflexivity|].
  simpl. rewrite IH. f_equal. f_equal; lia.
Qed.

Lemma reported_pairs_flat_map (il : list nat) (f : nat -> list nat) :
  reported_pairs (flat_map (fun i => map (found_event i) (f i)) il)
  = map (fun p => (Z.of_nat (fst p), Z.of_nat (snd p)))
        (flat_map (fun i => map (pair i) (f i)) il).
Proof.
  induction il as [|i il IH]; [reflexivity|].
  cbn [flat_map]. rewrite reported_pairs_app, map_app, IH.
  rewrite reported_pairs_found, map_map. reflexivity.
Qed.

(** The pairs [FindDupes] reports are the pairs it finds equal, in the
    order of its loops. *)
Lemma FindDupes_reports (g : globals) :
  reported_pairs (FindDupes_events g)
  = map (fun p => (Z.of_nat (fst p), Z.of_nat (snd p)))
        (dupes_in_loop_order (buffer g)).
Proof.
  unfold FindDupes_events, FindDupes, dupes_in_loop_order.
  rewrite <- reported_pairs_flat_map.
  destruct (FindDupes_loops (seq 0 31) g false) as [d' E].
  unfold found_event in E |- *. rewrite E.
  destruct d'.
  - unfold printf, exec. cbn [fst trace emit add_events].
    rewrite <- app_assoc, drop_app_length, reported_pairs_app.
    cbn [reported_pairs]. apply app_nil_r.
  - cbn [fst trace add_events]. rewrite drop_app_length. reflexivity.
Qed.

(** ** The order of the reported pairs *)

Lemma StronglySorted_seq (a n : nat) : StronglySorted Nat.lt (seq a n).
Proof.
  revert a. induction n as [|n IH]; intros a; simpl; constructor.
  - apply IH.
  - apply List.Forall_forall. intros x Hx. apply in_seq in Hx. unfold Nat.lt. lia.
Qed.

Lemma StronglySorted_filter {A} (R : A -> A -> Prop) (f : A -> bool) (l : list A) :
  StronglySorted R l -> StronglySorted R (List.filter f l).
Proof.
  induction 1 as [|a l Hl IH Ha]; simpl; [constructor|].
  destruct (f a); [|exact IH].
  constructor; [exact IH|].
  apply List.Forall_forall. intros x Hx. apply filter_In in Hx.
  rewrite List.Forall_forall in Ha. apply Ha. tauto.
Qed.

Lemma StronglySorted_map {A B} (R : A -> A -> Prop) (R' : B -> B -> Prop)
    (f : A -> B) (l : list A) :
  (forall x y, R x y -> R' (f x) (f y)) ->
  StronglySorted R l -> StronglySorted R' (map f l).
Proof.
  intros Hf. induction 1 as [|a l Hl IH Ha]; simpl; constructor; [exact IH|].
  apply List.Forall_forall. intros y Hy. apply in_map_iff in Hy.
  destruct Hy as (x & <- & Hx). rewrite List.Forall_forall in Ha. auto.
Qed.

Lemma StronglySorted_append {A} (R : A -> A -> Prop) (l1 l2 : list A) :
  StronglySorted R l1 -> StronglySorted R l2 ->
  (forall x y, In x l1 -> In y l2 -> R x y) ->
  StronglySorted R (l1 ++ l2).
Proof.
  intros H1 H2 H. induction H1 as [|a l Hl IH Ha]; simpl; [exact H2|].
  constructor.
  - apply IH. intros x y Hx Hy. apply H; [right; exact Hx | exact Hy].
  - apply List.Forall_app. split; [exact Ha|].
    apply List.Forall_forall. intros y Hy. apply H; [left; reflexivity | exact Hy].
Qed.

(** Pairs listed block by block, for ascending [i] and ascending [j] in
    each block, are in lexicographic order. *)
Lemma StronglySorted_blocks (il : list nat) (f : nat -> list nat) :
  StronglySorted Nat.lt il ->
  (forall i, StronglySorted Nat.lt (f i)) ->
  StronglySorted pair_lt
    (map (fun p => (Z.of_nat (fst p), Z.of_nat (snd p)))
         (flat_map (fun i => map (pair i) (f i)) il)).
Proof.
  intros Hil Hf. induction Hil as [|i il Hil IH Hi]; simpl; [constructor|].
  rewrite map_app. apply StronglySorted_append.
  - rewrite map_map. simpl.
    apply (StronglySorted_map Nat.lt); [|apply Hf].
    intros x y Hxy. right. simpl. unfold Nat.lt in Hxy. lia.
  - exact IH.
  - intros x y Hx Hy.
    apply in_map_iff in Hx. destruct Hx as ([i1 j1] & <- & Hx).
    apply in_map_iff in Hx. destruct Hx as (j1' & [= <- <-] & _).
    apply in_map_iff in Hy. destruct Hy as ([i2 j2] & <- & Hy).
    apply in_flat_map in Hy. destruct Hy as (i2' & Hi2 & Hy).
    apply in_map_iff in Hy. destruct Hy as (j2' & [= <- <-] & _).
    rewrite List.Forall_forall in Hi. specialize (Hi _ Hi2).
    left. simpl. unfold Nat.lt in Hi. lia.
Qed.

(** C8.  For a bank buffer, [FindDupes] reports the pair (i, j) of voice
    indices exactly when 0 <= i < j < 32 and the two 128-byte voice records
    agree on all their bytes but the trailing 10 name bytes, that is on
    their first 118 bytes; and it reports the pairs in ascending order of
    i, then of j. *)
Theorem C8_FindDupes_reports_duplicates_in_order (g : globals) :
  length (buffer g) = sysexSize ->
  (forall i j : Z,
     In (i, j) (reported_pairs (FindDupes_events g))
     <-> 0 <= i < j /\ j < 32
         /\ take (sizeof_VoicePacked - 10) (voice_record (buffer g) (Z.to_nat i))
            = take (sizeof_VoicePacked - 10) (voice_record (buffer g) (Z.to_nat j)))
  /\ StronglySorted pair_lt (reported_pairs (FindDupes_events g)).
Proof.
  intros Hlen. rewrite FindDupes_reports. split.
  - intros a b. unfold dupes_in_loop_order. rewrite in_map_iff. split.
    + intros ([i j] & [= <- <-] & H).
      apply in_flat_map in H. destruct H as (i' & Hi & H).
      apply in_map_iff in H. destruct H as (j' & [= <- <-] & H).
      apply filter_In in H. destruct H as [Hj Hd].
      apply in_seq in Hi. apply in_seq in Hj. cbn [fst snd].
      rewrite !Nat2Z.id.
      split; [lia|]. split; [lia|].
      apply dupe_spec; [exact Hlen | lia | lia | exact Hd].
    + intros (Hab & Hb & Heq).
      exists (Z.to_nat a, Z.to_nat b). cbn [fst snd].
      split; [f_equal; lia|].
      apply in_flat_map. exists (Z.to_nat a). split; [apply in_seq; lia|].
      apply in_map. apply filter_In. split; [apply in_seq; lia|].
      apply dupe_spec; [exact Hlen | lia | lia | exact Heq].
  - apply StronglySorted_blocks; [apply StronglySorted_seq|].
    intros i. apply StronglySorted_filter, StronglySorted_seq.
Qed.

Lemma C8_FindDupes_reports_duplicates_in_order_witness :
  (forall i j : Z,
     In (i, j) (reported_pairs (FindDupes_events (globals_with bank_dupes)))
     <-> 0 <= i < j /\ j < 32
         /\ take (sizeof_VoicePacked - 10)
                 (voice_record (buffer (globals_with bank_dupes)) (Z.to_nat i))
            = take (sizeof_VoicePacked - 10)
                   (voice_record (buffer (globals_with bank_dupes)) (Z.to_nat j)))
  /\ StronglySorted pair_lt
       (reported_pairs (FindDupes_events (globals_with bank_dupes))).
Proof.
  apply (C8_FindDupes_reports_duplicates_in_order (globals_with bank_dupes)).
  reflexivity.
Defined.

(** * Further properties of the code *)

(** ** More on the repair engine *)

(** A buffer of [sysexSize] bytes is a header of six bytes, the payload and
    two more bytes. *)
Lemma bank_layout (sysex : list Z) :
  length sysex = sysexSize ->
  exists h0 h1 h2 h3 h4 h5 c e,
    sysex = [h0; h1; h2; h3; h4; h5] ++ voices sysex ++ [c; e]
    /\ length (voices sysex) = rawDataSize.
Proof.
  intros Hlen. unfold voices, DX7Sysex.voices.
  assert (Hv : length (take rawDataSize (drop 6 sysex)) = rawDataSize)
    by (rewrite length_take, length_drop; unfold rawDataSize, sysexSize in *; lia).
  assert (H6 : length (take 6 sysex) = 6%nat)
    by (rewrite length_take; unfold sysexSize in Hlen; lia).
  assert (H2 : length (drop rawDataSize (drop 6 sysex)) = 2%nat)
    by (rewrite !length_drop; unfold rawDataSize, sysexSize in *; lia).
  destruct (take 6 sysex) as [|h0 [|h1 [|h2 [|h3 [|h4 [|h5 [|x t]]]]]]] eqn:Eh;
    try discriminate H6.
  destruct (drop rawDataSize (drop 6 sysex)) as [|c [|e [|y t]]] eqn:Ef;
    try discriminate H2.
  exists h0, h1, h2, h3, h4, h5, c, e. split; [|exact Hv].
  rewrite <- Eh, <- Ef, (take_drop rawDataSize), (take_drop 6). reflexivity.
Qed.

Lemma FixFile_bytes_layout (sysex : list Z) :
  length sysex = sysexSize ->
  FixFile_bytes sysex = canonical_header ++ voices sysex ++ [Checksum sysex; 0xF7].
Proof.
  intros Hlen. unfold FixFile_bytes. cbv zeta.
  rewrite !Checksum_store by (offsets; lia).
  destruct (bank_layout sysex Hlen) as (h0 & h1 & h2 & h3 & h4 & h5 & c & e & E & Hv).
  pose proof (to_uchar_Checksum sysex) as Hck.
  set (pl := voices sysex) in *. set (ck := Checksum sysex) in *.
  rewrite E. clear E.
  unfold store. rewrite Hck. clearbody pl ck. clear Hck.
  offsets. unfold canonical_header.
  change (to_uchar 240) with 240. change (to_uchar 67) with 67.
  change (to_uchar 0) with 0. change (to_uchar 9) with 9.
  change (to_uchar 32) with 32. change (to_uchar 247) with 247.
  simpl. do 6 f_equal.
  rewrite !insert_app_r_alt by (rewrite ?length_insert, ?length_app; lia).
  rewrite Hv. replace (4097 - 4096)%nat with 1%nat by lia.
  replace (4096 - 4096)%nat with 0%nat by lia. reflexivity.
Qed.

(** The members of a buffer of [sysexSize] bytes, in layout order. *)
Lemma bank_layout_members (sysex : list Z) :
  length sysex = sysexSize ->
  sysex = [load sysex DX7Sysex.sysexBeginF0; load sysex DX7Sysex.yamaha43;
           load sysex DX7Sysex.subStatusAndChannel; load sysex DX7Sysex.format9;
           load sysex DX7Sysex.sizeMSB; load sysex DX7Sysex.sizeLSB]
          ++ voices sysex
          ++ [load sysex DX7Sysex.checksum; load sysex DX7Sysex.sysexEndF7].
Proof.
  intros Hlen.
  destruct (bank_layout sysex Hlen) as (h0 & h1 & h2 & h3 & h4 & h5 & c & e & E & Hv).
  set (pl := voices sysex) in *. clearbody pl.
  assert (Hc : load sysex DX7Sysex.checksum = c).
  { rewrite E. unfold load, DX7Sysex.checksum.
    change 4102%nat with (length [h0; h1; h2; h3; h4; h5] + 4096)%nat.
    rewrite lookup_app_r by lia.
    replace (length [h0; h1; h2; h3; h4; h5] + 4096 - length [h0; h1; h2; h3; h4; h5])%nat
      with (length pl + 0)%nat by (rewrite Hv; unfold rawDataSize; simpl; lia).
    rewrite lookup_app_r by lia.
    replace (length pl + 0 - length pl)%nat with 0%nat by lia. reflexivity. }
  assert (He : load sysex DX7Sysex.sysexEndF7 = e).
  { rewrite E. unfold load, DX7Sysex.sysexEndF7.
    change 4103%nat with (length [h0; h1; h2; h3; h4; h5] + 4097)%nat.
    rewrite lookup_app_r by lia.
    replace (length [h0; h1; h2; h3; h4; h5] + 4097 - length [h0; h1; h2; h3; h4; h5])%nat
      with (length pl + 1)%nat by (rewrite Hv; unfold rawDataSize; simpl; lia).
    rewrite lookup_app_r by lia.
    replace (length pl + 1 - length pl)%nat with 1%nat by lia. reflexivity. }
  assert (H0 : load sysex DX7Sysex.sysexBeginF0 = h0) by (rewrite E; reflexivity).
  assert (H1 : load sysex DX7Sysex.yamaha43 = h1) by (rewrite E; reflexivity).
  assert (H2 : load sysex DX7Sysex.subStatusAndChannel = h2) by (rewrite E; reflexivity).
  assert (H3 : load sysex DX7Sysex.format9 = h3) by (rewrite E; reflexivity).
  assert (H4 : load sysex DX7Sysex.sizeMSB = h4) by (rewrite E; reflexivity).
  assert (H5 : load sysex DX7Sysex.sizeLSB = h5) by (rewrite E; reflexivity).
  rewrite Hc, He, H0, H1, H2, H3, H4, H5. exact E.
Qed.

Lemma voices_FixFile_bytes (sysex : list Z) :
  voices (FixFile_bytes sysex) = voices sysex.
Proof.
  unfold FixFile_bytes. cbv zeta. rewrite !voices_store by (offsets; lia).
  reflexivity.
Qed.

(** X1.  [FixFile] leaves in a buffer of [sysexSize] bytes the canonical
    header, the 4096 payload bytes as they were, the checksum of that
    payload and the end marker 0xF7: the repair never touches voice data,
    whatever the operating system answers. *)
Theorem X1_FixFile_keeps_payload_and_frames_it
    (opt : options) (w : os) (filename : string) (g : globals) :
  length (buffer g) = sysexSize ->
  buffer (fst (FixFile opt w filename g))
  = canonical_header ++ voices (buffer g) ++ [Checksum (buffer g); 0xF7]
  /\ voices (buffer (fst (FixFile opt w filename g))) = voices (buffer g).
Proof.
  intros Hlen. rewrite FixFile_buffer. split.
  - apply FixFile_bytes_layout, Hlen.
  - apply voices_FixFile_bytes.
Qed.

Lemma X1_FixFile_keeps_payload_and_frames_it_witness :
  buffer (fst (FixFile example_options (example_os bank_recoverable 0)
                       "bank.syx" (globals_with bank_recoverable)))
  = canonical_header ++ voices (buffer (globals_with bank_recoverable))
    ++ [Checksum (buffer (globals_with bank_recoverable)); 0xF7]
  /\ voices (buffer (fst (FixFile example_options (example_os bank_recoverable 0)
                                 "bank.syx" (globals_with bank_recoverable))))
     = voices (buffer (globals_with bank_recoverable)).
Proof.
  apply (X1_FixFile_keeps_payload_and_frames_it example_options
           (example_os bank_recoverable 0) "bank.syx"
           (globals_with bank_recoverable)).
  reflexivity.
Defined.

(** X2.  Repair is idempotent on the buffer: a second [FixFile], with any
    options and any answers of the operating system, leaves the bytes the
    first one produced. *)
Theorem X2_FixFile_idempotent
    (opt1 opt2 : options) (w1 w2 : os) (filename1 filename2 : string)
    (g : globals) :
  length (buffer g) = sysexSize ->
  buffer (fst (FixFile opt2 w2 filename2 (fst (FixFile opt1 w1 filename1 g))))
  = buffer (fst (FixFile opt1 w1 filename1 g)).
Proof.
  intros Hlen. rewrite !FixFile_buffer.
  rewrite (FixFile_bytes_layout (FixFile_bytes (buffer g)))
    by (unfold FixFile_bytes; cbv zeta; rewrite !length_store; exact Hlen).
  rewrite voices_FixFile_bytes, (Checksum_voices (FixFile_bytes _)),
    voices_FixFile_bytes, <- Checksum_voices.
  symmetry. apply FixFile_bytes_layout, Hlen.
Qed.

Lemma X2_FixFile_idempotent_witness :
  buffer (fst (FixFile example_options (example_os bank_recoverable 0) "b.syx"
                 (fst (FixFile example_options (example_os bank_recoverable 0)
                               "a.syx" (globals_with bank_recoverable)))))
  = buffer (fst (FixFile example_options (example_os bank_recoverable 0)
                         "a.syx" (globals_with bank_recoverable))).
Proof.
  apply (X2_FixFile_idempotent example_options example_options
           (example_os bank_recoverable 0) (example_os bank_recoverable 0)
           "a.syx" "b.syx" (globals_with bank_recoverable)).
  reflexivity.
Defined.

(** X3.  A buffer that is already canonical (the six header members hold
    their constants, the checksum member holds the checksum of the payload,
    the end marker is 0xF7) comes out of [FixFile] byte for byte as it
    was. *)
Theorem X3_FixFile_canonical_buffer_unchanged
    (opt : options) (w : os) (filename : string) (g : globals) :
  length (buffer g) = sysexSize ->
  member DX7Sysex.sysexBeginF0 g = 0xF0 ->
  member DX7Sysex.yamaha43 g = 0x43 ->
  member DX7Sysex.subStatusAndChannel g = 0 ->
  member DX7Sysex.format9 g = 0x09 ->
  member DX7Sysex.sizeMSB g = 0x20 ->
  member DX7Sysex.sizeLSB g = 0 ->
  member DX7Sysex.checksum g = Checksum (buffer g) ->
  member DX7Sysex.sysexEndF7 g = 0xF7 ->
  buffer (fst (FixFile opt w filename g)) = buffer g.
Proof.
  unfold member. intros Hlen H0 H1 H2 H3 H4 H5 H6 H7.
  rewrite FixFile_buffer, (FixFile_bytes_layout _ Hlen).
  rewrite (bank_layout_members (buffer g) Hlen) at 3.
  rewrite H0, H1, H2, H3, H4, H5, H6, H7. reflexivity.
Qed.

Lemma X3_FixFile_canonical_buffer_unchanged_witness :
  buffer (fst (FixFile example_options (example_os bank_zero 0) "bank.syx"
                       (globals_with bank_zero)))
  = buffer (globals_with bank_zero).
Proof.
  apply (X3_FixFile_canonical_buffer_unchanged example_options
           (example_os bank_zero 0) "bank.syx" (globals_with bank_zero));
    vm_compute; reflexivity.
Defined.

Lemma add_events_cons (e : event) (evs : list event) (g : globals) :
  add_events (e :: evs) g = add_events evs (emit e g).
Proof. symmetry. apply add_events_emit. Qed.

Lemma take_FixFile_bytes (sysex : list Z) :
  length sysex = sysexSize -> take sysexSize (FixFile_bytes sysex) = FixFile_bytes sysex.
Proof.
  intros H. apply take_ge. unfold FixFile_bytes. cbv zeta.
  rewrite !length_store. lia.
Qed.

(** What [FixFile] returns and what it adds to the trace. *)
Lemma FixFile_run (opt : options) (w : os) (filename : string) (g : globals) :
  FixFile opt w filename g
  = (add_events
       (fst (FixFile_events opt w filename (take sysexSize (FixFile_bytes (buffer g)))))
       (set_buffer (FixFile_bytes (buffer g)) g),
     Some (snd (FixFile_events opt w filename
                  (take sysexSize (FixFile_bytes (buffer g)))))).
Proof.
  unfold FixFile, assign_member, FixFile_events. cbv zeta. rewrite !seq_exec.
  set (data := take sysexSize (FixFile_bytes (buffer g))).
  set (rc := os_rename w filename (filename +:+ ".ORIG")).
  match goal with
  | |- seq_stmt _ _ ?g1 = _ =>
      change g1 with (set_buffer (FixFile_bytes (buffer g)) g)
  end.
  set (g1 := set_buffer (FixFile_bytes (buffer g)) g).
  assert (Hdata : forall evs, take sysexSize (buffer (add_events evs g1)) = data)
    by reflexivity.
  destruct (noBackup opt); cbn [negb andb].
  - rewrite seq_IfThen_skip by reflexivity. step.
    destruct (os_fopen_wb w filename); cbn [negb].
    + rewrite seq_IfThen_skip by reflexivity. rewrite eval_step. cbv beta.
      change (take sysexSize (buffer (emit (Ev_fopen_wb filename true) g1)))
        with data.
      step. destruct (os_fwrite_ok w data); cbn [negb].
      * rewrite seq_IfThen_skip by reflexivity.
        unfold Return. cbn [app fst snd]. rewrite !add_events_cons, add_events_nil.
        reflexivity.
      * rewrite seq_IfThen_enter by reflexivity. step.
        cbn [app fst snd]. rewrite !add_events_cons, add_events_nil. reflexivity.
    + rewrite seq_IfThen_enter by reflexivity. step.
      cbn [app fst snd]. rewrite !add_events_cons, add_events_nil. reflexivity.
  - rewrite seq_IfThen_enter by reflexivity. step.
    unfold c_true. destruct (Z.eqb rc 0); cbn [negb].
    + rewrite seq_IfThen_skip by reflexivity. step.
      destruct (os_fopen_wb w filename); cbn [negb].
      * rewrite seq_IfThen_skip by reflexivity. rewrite eval_step. cbv beta.
        change (take sysexSize (buffer (emit (Ev_fopen_wb filename true)
                  (emit (Ev_rename filename (filename +:+ ".ORIG") rc) g1))))
          with data.
        step. destruct (os_fwrite_ok w data); cbn [negb].
        -- rewrite seq_IfThen_skip by reflexivity.
           unfold Return. cbn [app fst snd]. rewrite !add_events_cons, add_events_nil.
           reflexivity.
        -- rewrite seq_IfThen_enter by reflexivity. step.
           cbn [app fst snd]. rewrite !add_events_cons, add_events_nil. reflexivity.
      * rewrite seq_IfThen_enter by reflexivity. step.
        cbn [app fst snd]. rewrite !add_events_cons, add_events_nil. reflexivity.
    + rewrite seq_IfThen_enter by reflexivity. step.
      cbn [app fst snd]. rewrite !add_events_cons, add_events_nil. reflexivity.
Qed.

(** X4.  [FixFile] returns 0 or 1, and 0 exactly when every step it takes
    succeeds: the backup [rename] (unless [noBackup] is set), the [fopen]
    for writing and the [fwrite] of the repaired buffer. *)
Theorem X4_FixFile_returns_0_iff_every_step_succeeds
    (opt : options) (w : os) (filename : string) (g : globals) :
  (snd (FixFile opt w filename g) = Some 0
   \/ snd (FixFile opt w filename g) = Some 1)
  /\ (snd (FixFile opt w filename g) = Some 0 <->
      (noBackup opt = true \/ os_rename w filename (filename +:+ ".ORIG") = 0)
      /\ os_fopen_wb w filename = true
      /\ os_fwrite_ok w (take sysexSize (buffer (fst (FixFile opt w filename g))))
         = true).
Proof.
  rewrite FixFile_buffer, FixFile_run. cbn [fst snd]. unfold FixFile_events.
  set (data := take sysexSize (FixFile_bytes (buffer g))).
  destruct (noBackup opt); cbn [negb andb];
    [|destruct (Z.eqb_spec (os_rename w filename (filename +:+ ".ORIG")) 0) as [Hrc|Hrc];
      cbn [negb]];
    destruct (os_fopen_wb w filename); cbn [negb];
    try destruct (os_fwrite_ok w data); cbn [negb snd];
    (split; [auto|]);
    (split; [intros H; try discriminate H; auto
            |intros (H1 & H2 & H3); try discriminate H2; try discriminate H3;
             try reflexivity; destruct H1 as [H1|H1]; try discriminate H1;
             contradiction]).
Qed.

(** X5.  [FixFile] touches the file it is given and its backup name only:
    every [rename] it makes is that of [filename] to [filename.ORIG], and
    only when a backup is wanted; every [fopen] for writing is that of
    [filename]; and the only bytes it ever writes are the repaired buffer:
    canonical header, payload, checksum, end marker. *)
Theorem X5_FixFile_writes_only_the_repaired_buffer
    (opt : options) (w : os) (filename : string) (g : globals) (e : event) :
  length (buffer g) = sysexSize ->
  In e (drop (length (trace g)) (trace (fst (FixFile opt w filename g)))) ->
  match e with
  | Ev_rename old new _ =>
      old = filename /\ new = filename +:+ ".ORIG" /\ noBackup opt = false
  | Ev_fopen_wb path _ => path = filename
  | Ev_fwrite data _ =>
      data = canonical_header ++ voices (buffer g) ++ [Checksum (buffer g); 0xF7]
  | Ev_print _ => True
  | _ => False
  end.
Proof.
  intros Hlen. rewrite FixFile_run. cbn [fst trace add_events set_buffer].
  rewrite drop_app_length, (take_FixFile_bytes _ Hlen),
    (FixFile_bytes_layout _ Hlen).
  unfold FixFile_events.
  destruct (noBackup opt); cbn [negb andb];
    [|destruct (Z.eqb (os_rename w filename (filename +:+ ".ORIG")) 0);
      cbn [negb]];
    destruct (os_fopen_wb w filename); cbn [negb];
    try destruct (os_fwrite_ok w _); cbn [negb fst app In];
    intros H; repeat (destruct H as [<-|H]; [auto|]); contradiction.
Qed.

Lemma X5_FixFile_writes_only_the_repaired_buffer_witness :
  match Ev_fwrite bank_zero true with
  | Ev_rename old new _ =>
      old = "bank.syx" /\ new = "bank.syx" +:+ ".ORIG"
      /\ noBackup example_options = false
  | Ev_fopen_wb path _ => path = "bank.syx"
  | Ev_fwrite data _ =>
      data = canonical_header ++ voices (buffer (globals_with bank_zero))
             ++ [Checksum (buffer (globals_with bank_zero)); 0xF7]
  | Ev_print _ => True
  | _ => False
  end.
Proof.
  apply (X5_FixFile_writes_only_the_repaired_buffer example_options
           (example_os bank_zero 0) "bank.syx" (globals_with bank_zero)
           (Ev_fwrite bank_zero true)).
  - reflexivity.
  - vm_compute. right. right. left. reflexivity.
Defined.

(** X6.  When the backup [rename] succeeds and the [fopen] for writing then
    fails, [FixFile] returns 1 having renamed the file and written
    nothing: the data is then under the backup name only. *)
Theorem X6_FixFile_open_failure_after_backup
    (opt : options) (w : os) (filename : string) (g : globals) :
  noBackup opt = false ->
  os_rename w filename (filename +:+ ".ORIG") = 0 ->
  os_fopen_wb w filename = false ->
  snd (FixFile opt w filename g) = Some 1
  /\ drop (length (trace g)) (trace (fst (FixFile opt w filename g)))
     = [Ev_rename filename (filename +:+ ".ORIG") 0;
        Ev_fopen_wb filename false;
        Ev_print (Msg_cant_open_for_writing filename)].
Proof.
  intros Hbackup Hrc Hopen. rewrite FixFile_run.
  cbn [fst snd trace add_events set_buffer]. rewrite drop_app_length.
  unfold FixFile_events. rewrite Hbackup, Hrc, Hopen. split; reflexivity.
Qed.

Lemma X6_FixFile_open_failure_after_backup_witness :
  snd (FixFile example_options os_read_only "bank.syx"
               (globals_with bank_recoverable)) = Some 1
  /\ drop (length (trace (globals_with bank_recoverable)))
          (trace (fst (FixFile example_options os_read_only "bank.syx"
                               (globals_with bank_recoverable))))
     = [Ev_rename "bank.syx" ("bank.syx" +:+ ".ORIG") 0;
        Ev_fopen_wb "bank.syx" false;
        Ev_print (Msg_cant_open_for_writing "bank.syx")].
Proof.
  apply (X6_FixFile_open_failure_after_backup example_options os_read_only
           "bank.syx" (globals_with bank_recoverable)); reflexivity.
Defined.

(** ** More on the structural validator *)

Opaque Checksum.

(** Every path through [Verify]: what it returns, what it leaves in
    [fixNeeded] and which message is the last one written. *)
Lemma Verify_run (g : globals) :
  let b0 := Z.eqb (member DX7Sysex.sysexBeginF0 g) 0xF0 in
  let b1 := Z.eqb (member DX7Sysex.yamaha43 g) 0x43 in
  let d2 := Z.testbit (member DX7Sysex.subStatusAndChannel g) 0 in
  let d3 := negb (Z.eqb (member DX7Sysex.format9 g) 0x09) in
  let d4 := negb (Z.eqb (member DX7Sysex.sizeMSB g) 0x20)
            || negb (Z.eqb (member DX7Sysex.sizeLSB g) 0) in
  let b7 := Z.eqb (member DX7Sysex.sysexEndF7 g) 0xF7 in
  let d6 := negb (Z.eqb (Checksum (buffer g)) (member DX7Sysex.checksum g)) in
  Verify g
  = (set_msgBuffer
       (if negb b0 then Some Msg_no_F0
        else if negb b1 then Some Msg_no_43
        else if negb b7 then Some Msg_no_F7
        else if d6 then Some (Msg_checksum (Checksum (buffer g)))
        else if d4 then Some (Msg_size (member DX7Sysex.sizeMSB g)
                                       (member DX7Sysex.sizeLSB g))
        else if d3 then Some Msg_format9
        else if d2 then Some (Msg_substatus
               (Z.shiftr (Z.land (member DX7Sysex.subStatusAndChannel g) 0xF0) 4))
        else msgBuffer g)
       (set_fixNeeded
          (fixNeeded g || (b0 && b1 && (d2 || d3 || d4 || (b7 && d6))))
          g),
     Some (if b0 && b1 && b7 then 0 else 1)).
Proof.
  destruct g as [fs buf msg se sf fx sv tr]. unfold member. cbn [buffer].
  cbv zeta. unfold Verify.
  step_if E0; unfold member in E0; cbn [buffer] in E0;
    rewrite c_true_c_ne in E0.
  { step. destruct (Z.eqb (load buf DX7Sysex.sysexBeginF0) 240); [discriminate|].
    cbn [negb andb orb fixNeeded msgBuffer]. rewrite orb_false_r. reflexivity. }
  destruct (Z.eqb (load buf DX7Sysex.sysexBeginF0) 240); [|discriminate].
  step_if E1; unfold member in E1; cbn [buffer] in E1;
    rewrite c_true_c_ne in E1.
  { step. destruct (Z.eqb (load buf DX7Sysex.yamaha43) 67); [discriminate|].
    cbn [negb andb orb fixNeeded msgBuffer]. rewrite orb_false_r. reflexivity. }
  destruct (Z.eqb (load buf DX7Sysex.yamaha43) 67); [|discriminate].
  step_if E2; step; unfold member in E2 |- *;
    cbn [buffer set_msgBuffer set_fixNeeded] in E2 |- *;
    rewrite substatus_test in E2; rewrite E2.
  all: (step_if E3; step; unfold member in E3 |- *;
        cbn [buffer set_msgBuffer set_fixNeeded] in E3 |- *;
        rewrite c_true_c_ne in E3; rewrite E3).
  all: (step_if E4; step; unfold member in E4 |- *;
        cbn [buffer set_msgBuffer set_fixNeeded] in E4 |- *;
        rewrite !c_true_c_ne in E4; rewrite E4).
  all: (step_if E5; [step|rewrite eval_step; step_if E6; step; unfold Return]).
  all: (unfold member in *; cbn [buffer set_msgBuffer set_fixNeeded] in * ).
  all: (rewrite c_true_c_ne in E5; try rewrite c_true_c_ne in E6).
  all: (destruct (Z.eqb (load buf DX7Sysex.sysexEndF7) 247); try discriminate E5).
  all: (try rewrite E6).
  all: (cbn [negb andb orb fixNeeded msgBuffer set_msgBuffer set_fixNeeded]).
  all: (rewrite ?orb_true_r, ?orb_false_r).
  all: reflexivity.
Qed.

Transparent Checksum.

(** X7.  [Verify] returns 0 or 1, and 0 exactly when the three boundary
    bytes are right: start marker 0xF0, vendor id 0x43, end marker 0xF7.
    No other byte of the buffer, and no earlier state, changes the return
    value. *)
Theorem X7_Verify_returns_0_iff_boundaries_are_right (g : globals) :
  (snd (Verify g) = Some 0 \/ snd (Verify g) = Some 1)
  /\ (snd (Verify g) = Some 0 <->
      member DX7Sysex.sysexBeginF0 g = 0xF0
      /\ member DX7Sysex.yamaha43 g = 0x43
      /\ member DX7Sysex.sysexEndF7 g = 0xF7).
Proof.
  pose proof (Verify_run g) as E. cbv zeta in E. rewrite E. cbn [snd].
  destruct (Z.eqb_spec (member DX7Sysex.sysexBeginF0 g) 240) as [H0|H0];
    destruct (Z.eqb_spec (member DX7Sysex.yamaha43 g) 67) as [H1|H1];
    destruct (Z.eqb_spec (member DX7Sysex.sysexEndF7 g) 247) as [H7|H7];
    cbn [andb]; (split; [auto|]);
    (split; [intros H; try discriminate H; auto | intros (? & ? & ?); auto;
             contradiction]).
Qed.

(** X8.  When [Verify] returns 0, [fixNeeded] is set afterwards exactly
    when it was set before or one of the recoverable tests fired: bit 0 of
    the sub-status/channel byte (the test the code makes), a format id
    other than 9, a size pair other than 0x20 0x00, or a stored checksum
    other than the computed one. *)
Theorem X8_Verify_sets_fixNeeded_iff_a_recoverable_test_fires (g : globals) :
  snd (Verify g) = Some 0 ->
  (fixNeeded (fst (Verify g)) = true <->
   fixNeeded g = true
   \/ Z.testbit (member DX7Sysex.subStatusAndChannel g) 0 = true
   \/ member DX7Sysex.format9 g <> 0x09
   \/ member DX7Sysex.sizeMSB g <> 0x20
   \/ member DX7Sysex.sizeLSB g <> 0
   \/ member DX7Sysex.checksum g <> Checksum (buffer g)).
Proof.
  pose proof (Verify_run g) as E. cbv zeta in E. rewrite E. clear E.
  cbn [fst snd fixNeeded set_msgBuffer set_fixNeeded].
  destruct (Z.eqb (member DX7Sysex.sysexBeginF0 g) 240); [|discriminate].
  destruct (Z.eqb (member DX7Sysex.yamaha43 g) 67); [|discriminate].
  destruct (Z.eqb (member DX7Sysex.sysexEndF7 g) 247); [|discriminate].
  intros _. cbn [andb].
  destruct (fixNeeded g); [cbn; tauto|].
  destruct (Z.testbit (member DX7Sysex.subStatusAndChannel g) 0); [cbn; tauto|].
  destruct (Z.eqb_spec (member DX7Sysex.format9 g) 9) as [H3|H3];
    [|cbn; tauto].
  destruct (Z.eqb_spec (member DX7Sysex.sizeMSB g) 32) as [H4|H4];
    [|cbn; tauto].
  destruct (Z.eqb_spec (member DX7Sysex.sizeLSB g) 0) as [H5|H5];
    [|cbn; tauto].
  destruct (Z.eqb_spec (Checksum (buffer g)) (member DX7Sysex.checksum g)) as [H6|H6];
    cbn [negb orb].
  - split; [discriminate|].
    intros [H|[H|[H|[H|[H|H]]]]]; try discriminate H; congruence.
  - split; [|reflexivity]. intros _. do 5 right. congruence.
Qed.

Lemma X8_Verify_sets_fixNeeded_iff_a_recoverable_test_fires_witness :
  fixNeeded (fst (Verify (globals_with bank_channel_1))) = true <->
  fixNeeded (globals_with bank_channel_1) = true
  \/ Z.testbit (member DX7Sysex.subStatusAndChannel (globals_with bank_channel_1)) 0
     = true
  \/ member DX7Sysex.format9 (globals_with bank_channel_1) <> 0x09
  \/ member DX7Sysex.sizeMSB (globals_with bank_channel_1) <> 0x20
  \/ member DX7Sysex.sizeLSB (globals_with bank_channel_1) <> 0
  \/ member DX7Sysex.checksum (globals_with bank_channel_1)
     <> Checksum (buffer (globals_with bank_channel_1)).
Proof.
  apply (X8_Verify_sets_fixNeeded_iff_a_recoverable_test_fires
           (globals_with bank_channel_1)).
  vm_compute. reflexivity.
Defined.

(** X9.  [Verify] never clears [fixNeeded] and never empties [msgBuffer];
    and when it starts with both clear and returns 0, it leaves a message
    exactly when it sets [fixNeeded]: a soft error is reported if and only
    if a repair is needed. *)
Theorem X9_Verify_message_iff_fixNeeded (g : globals) :
  (fixNeeded g = true -> fixNeeded (fst (Verify g)) = true)
  /\ (msgBuffer g <> None -> msgBuffer (fst (Verify g)) <> None)
  /\ (msgBuffer g = None -> fixNeeded g = false -> snd (Verify g) = Some 0 ->
      (msgBuffer (fst (Verify g)) <> None <-> fixNeeded (fst (Verify g)) = true)).
Proof.
  pose proof (Verify_run g) as E. cbv zeta in E. rewrite E. clear E.
  cbn [fst snd fixNeeded msgBuffer set_msgBuffer set_fixNeeded].
  generalize (Checksum (buffer g)). intros sum.
  generalize (msgBuffer g) (fixNeeded g). intros m fx.
  generalize (member DX7Sysex.sysexBeginF0 g) (member DX7Sysex.yamaha43 g)
    (member DX7Sysex.subStatusAndChannel g) (member DX7Sysex.format9 g)
    (member DX7Sysex.sizeMSB g) (member DX7Sysex.sizeLSB g)
    (member DX7Sysex.checksum g) (member DX7Sysex.sysexEndF7 g).
  intros h0 h1 h2 h3 h4 h5 ck h7.
  split; [intros ->; reflexivity|]. split.
  - intros Hm.
    repeat match goal with
           | |- context [if ?c then _ else _] => destruct c
           end; try discriminate; exact Hm.
  - intros -> ->.
    destruct (Z.eqb h0 240); [|discriminate].
    destruct (Z.eqb h1 67); [|discriminate].
    destruct (Z.eqb h7 247); [|discriminate].
    intros _. cbn [andb orb negb].
    destruct (Z.testbit h2 0);
      destruct (negb (Z.eqb h3 9));
      destruct (negb (Z.eqb h4 32) || negb (Z.eqb h5 0));
      destruct (negb (Z.eqb sum ck));
      cbn [orb]; split; intros H; try reflexivity; try discriminate;
      try (exfalso; apply H; reflexivity).
Qed.

Lemma X9_Verify_message_iff_fixNeeded_witness :
  (fixNeeded (globals_with bank_recoverable) = true ->
   fixNeeded (fst (Verify (globals_with bank_recoverable))) = true)
  /\ (msgBuffer (globals_with bank_recoverable) <> None ->
      msgBuffer (fst (Verify (globals_with bank_recoverable))) <> None)
  /\ (msgBuffer (globals_with bank_recoverable) = None ->
      fixNeeded (globals_with bank_recoverable) = false ->
      snd (Verify (globals_with bank_recoverable)) = Some 0 ->
      (msgBuffer (fst (Verify (globals_with bank_recoverable))) <> None <->
       fixNeeded (fst (Verify (globals_with bank_recoverable))) = true)).
Proof.
  exact (X9_Verify_message_iff_fixNeeded (globals_with bank_recoverable)).
Defined.

(** X10.  [msgBuffer] holds one message, the last one written.  When
    [Verify] returns 0 and the stored checksum is wrong, the message left
    is the checksum one, whatever header deviations were found before it:
    their messages are overwritten. *)
Theorem X10_Verify_keeps_only_the_last_message (g : globals) :
  snd (Verify g) = Some 0 ->
  member DX7Sysex.checksum g <> Checksum (buffer g) ->
  msgBuffer (fst (Verify g)) = Some (Msg_checksum (Checksum (buffer g))).
Proof.
  pose proof (Verify_run g) as E. cbv zeta in E. rewrite E. clear E.
  cbn [fst snd msgBuffer set_msgBuffer].
  destruct (Z.eqb (member DX7Sysex.sysexBeginF0 g) 240); [|discriminate].
  destruct (Z.eqb (member DX7Sysex.yamaha43 g) 67); [|discriminate].
  destruct (Z.eqb (member DX7Sysex.sysexEndF7 g) 247); [|discriminate].
  intros _ Hck. cbn [negb].
  destruct (Z.eqb_spec (Checksum (buffer g)) (member DX7Sysex.checksum g)) as [H6|H6];
    [congruence | reflexivity].
Qed.

Lemma X10_Verify_keeps_only_the_last_message_witness :
  msgBuffer (fst (Verify (globals_with bank_recoverable)))
  = Some (Msg_checksum (Checksum (buffer (globals_with bank_recoverable)))).
Proof.
  apply (X10_Verify_keeps_only_the_last_message (globals_with bank_recoverable)).
  - vm_compute. reflexivity.
  - vm_compute. discriminate.
Defined.

(** ** More on the checksum engine *)

Lemma negate_mask_mod_256 (s : Z) : negate_mask (s mod 256) = (- s) mod 128.
Proof.
  rewrite negate_mask_spec.
  replace (- (s mod 256)) with (- s + (2 * (s / 256)) * 128)
    by (pose proof (Z.div_mod s 256); lia).
  apply Z.mod_add. lia.
Qed.

Lemma Checksum_mod_128 (sysex : list Z) :
  Checksum sysex = (- sum_7bit (voices sysex)) mod 128.
Proof. rewrite Checksum_voices. apply negate_mask_mod_256. Qed.

Lemma sum_7bit_map_mask (block : list Z) :
  sum_7bit (map (fun b => Z.land b 0x7F) block) = sum_7bit block.
Proof.
  unfold sum_7bit. induction block as [|b block IH]; simpl; [reflexivity|].
  rewrite IH. f_equal. rewrite <- Z.land_assoc. reflexivity.
Qed.

(** X11.  The checksum sees the low seven bits of the payload bytes only:
    two buffers whose payloads agree once every byte is masked with 0x7F
    have the same checksum.  A flipped top bit in the payload is never
    detected. *)
Theorem X11_Checksum_ignores_bit_7 (sysex1 sysex2 : list Z) :
  map (fun b => Z.land b 0x7F) (voices sysex1)
  = map (fun b => Z.land b 0x7F) (voices sysex2) ->
  Checksum sysex1 = Checksum sysex2.
Proof.
  intros H. rewrite !Checksum_voices.
  rewrite <- (sum_7bit_map_mask (voices sysex1)), H, sum_7bit_map_mask.
  reflexivity.
Qed.

Lemma X11_Checksum_ignores_bit_7_witness :
  Checksum bank_zero = Checksum bank_top_bits.
Proof.
  apply (X11_Checksum_ignores_bit_7 bank_zero bank_top_bits).
  vm_compute. reflexivity.
Defined.

Lemma sum_7bit_Permutation (l1 l2 : list Z) :
  Permutation l1 l2 -> sum_7bit l1 = sum_7bit l2.
Proof.
  unfold sum_7bit. induction 1; simpl; lia.
Qed.

(** X12.  The checksum is a sum: it does not change when the payload bytes
    are reordered.  Two banks with the same voices in another order have
    the same checksum. *)
Theorem X12_Checksum_ignores_byte_order (sysex1 sysex2 : list Z) :
  Permutation (voices sysex1) (voices sysex2) ->
  Checksum sysex1 = Checksum sysex2.
Proof.
  intros H. rewrite !Checksum_voices, (sum_7bit_Permutation _ _ H).
  reflexivity.
Qed.

Lemma X12_Checksum_ignores_byte_order_witness :
  Checksum (bank canonical_header (replicate 4095 0 ++ [5]) 0 0xF7)
  = Checksum (bank canonical_header (5 :: replicate 4095 0) 0 0xF7).
Proof.
  apply (X12_Checksum_ignores_byte_order
           (bank canonical_header (replicate 4095 0 ++ [5]) 0 0xF7)
           (bank canonical_header (5 :: replicate 4095 0) 0 0xF7)).
  change (voices (bank canonical_header (replicate 4095 0 ++ [5]) 0 247))
    with (replicate 4095 0 ++ [5]).
  change (voices (bank canonical_header (5 :: replicate 4095 0) 0 247))
    with ([5] ++ replicate 4095 0).
  apply Permutation_app_comm.
Defined.

Lemma sum_7bit_insert (block : list Z) (k : nat) (v : Z) :
  (k < length block)%nat ->
  sum_7bit (<[k := v]> block)
  = sum_7bit block - Z.land (load block k) 0x7F + Z.land v 0x7F.
Proof.
  revert k. induction block as [|b block IH]; intros k Hk; simpl in Hk; [lia|].
  destruct k as [|k].
  - unfold sum_7bit, load. simpl. lia.
  - change (<[S k:=v]> (b :: block)) with (b :: <[k:=v]> block).
    change (load (b :: block) (S k)) with (load block k).
    unfold sum_7bit in *. simpl. rewrite IH by lia. lia.
Qed.

Lemma voices_store_payload (sysex : list Z) (k : nat) (v : Z) :
  (k < rawDataSize)%nat ->
  voices (store sysex (DX7Sysex.voices + k) v)
  = <[k := to_uchar v]> (voices sysex).
Proof.
  intros Hk. unfold voices, store.
  rewrite drop_insert_ge by lia.
  replace (DX7Sysex.voices + k - DX7Sysex.voices)%nat with k by lia.
  rewrite take_insert_lt by lia. reflexivity.
Qed.

(** X13.  The checksum detects every change of a single payload byte that
    changes its low seven bits: after such a store the checksum of the
    buffer differs from the one before. *)
Theorem X13_Checksum_detects_single_byte_change
    (sysex : list Z) (k : nat) (v : Z) :
  length sysex = sysexSize ->
  (k < rawDataSize)%nat ->
  Z.land (to_uchar v) 0x7F <> Z.land (load sysex (DX7Sysex.voices + k)) 0x7F ->
  Checksum (store sysex (DX7Sysex.voices + k) v) <> Checksum sysex.
Proof.
  intros Hlen Hk Hv.
  rewrite !Checksum_mod_128, voices_store_payload by exact Hk.
  assert (Hkl : (k < length (voices sysex))%nat).
  { unfold voices. rewrite length_take, length_drop.
    unfold rawDataSize, sysexSize, DX7Sysex.voices in *. lia. }
  rewrite sum_7bit_insert by exact Hkl.
  assert (Hload : load (voices sysex) k = load sysex (DX7Sysex.voices + k)).
  { unfold voices. rewrite load_take by exact Hk. apply load_drop. }
  rewrite Hload.
  set (old := Z.land (load sysex (DX7Sysex.voices + k)) 127) in *.
  set (new := Z.land (to_uchar v) 127) in *.
  set (s := sum_7bit (voices sysex)).
  assert (Hold : 0 <= old < 128)
    by (subst old; change 127 with (Z.ones 7); rewrite Z.land_ones by lia;
        apply Z.mod_pos_bound; lia).
  assert (Hnew : 0 <= new < 128)
    by (subst new; change 127 with (Z.ones 7); rewrite Z.land_ones by lia;
        apply Z.mod_pos_bound; lia).
  intros E.
  assert (D : (old - new) mod 128 = 0).
  { replace (old - new) with (- (s - old + new) - (- s)) by lia.
    rewrite Zminus_mod, E, Z.sub_diag. reflexivity. }
  apply Z.mod_divide in D; [|lia]. destruct D as [q D]. lia.
Qed.

Lemma X13_Checksum_detects_single_byte_change_witness :
  Checksum (store bank_zero (DX7Sysex.voices + 17) 1) <> Checksum bank_zero.
Proof.
  apply (X13_Checksum_detects_single_byte_change bank_zero 17 1).
  - reflexivity.
  - unfold rawDataSize. lia.
  - vm_compute. discriminate.
Defined.

(** X14.  [ChecksumSingle] over any block, of any size and at any offset,
    is the 7-bit two's complement of the sum of the block's bytes masked to
    7 bits: the masked sum plus the checksum is 0 modulo 128, the checksum
    lies in 0..127, and the checksum of an empty block is 0. *)
Theorem X14_ChecksumSingle_complements_the_block_sum
    (mem : list Z) (voice blocksize : nat) :
  ChecksumSingle mem voice blocksize
  = (- sum_7bit (take blocksize (drop voice mem))) mod 128
  /\ (sum_7bit (take blocksize (drop voice mem))
      + ChecksumSingle mem voice blocksize) mod 128 = 0
  /\ 0 <= ChecksumSingle mem voice blocksize <= 127
  /\ ChecksumSingle mem voice 0 = 0.
Proof.
  assert (E : ChecksumSingle mem voice blocksize
              = (- sum_7bit (take blocksize (drop voice mem))) mod 128)
    by (unfold ChecksumSingle; rewrite sum_loop_spec; apply negate_mask_mod_256).
  split; [exact E|]. rewrite E. split; [|split].
  - rewrite Zplus_mod_idemp_r, Z.add_opp_diag_r. reflexivity.
  - pose proof (Z.mod_pos_bound (- sum_7bit (take blocksize (drop voice mem))) 128).
    lia.
  - reflexivity.
Qed.

(** ** Statements and the trace *)

Section Emits.

Context {R : Type} (P : event -> Prop).

Lemma emits_skip : emits P (@skip R).
Proof. intros g. exists []. rewrite app_nil_r. split; [reflexivity|constructor]. Qed.

Lemma emits_Return (r : R) : emits P (Return r).
Proof. intros g. exists []. rewrite app_nil_r. split; [reflexivity|constructor]. Qed.

Lemma emits_exec_quiet (f : globals -> globals) :
  (forall g, trace (f g) = trace g) -> emits P (@exec R f).
Proof.
  intros H g. exists []. rewrite app_nil_r. split; [apply H|constructor].
Qed.

Lemma emits_exec_emit (e : globals -> event) :
  (forall g, P (e g)) -> emits P (@exec R (fun g => emit (e g) g)).
Proof.
  intros H g. exists [e g]. split; [reflexivity|]. constructor; [apply H|constructor].
Qed.

Lemma emits_seq (s1 s2 : stmt R) :
  emits P s1 -> emits P s2 -> emits P (seq_stmt s1 s2).
Proof.
  intros H1 H2 g. unfold seq_stmt. destruct (H1 g) as (evs1 & E1 & F1).
  destruct (s1 g) as [g1 [r|]]; cbn [fst] in *.
  - exists evs1. split; assumption.
  - destruct (H2 g1) as (evs2 & E2 & F2). exists (evs1 ++ evs2).
    rewrite E2, E1, app_assoc. split; [reflexivity|].
    apply List.Forall_app. split; assumption.
Qed.

Lemma emits_eval {A} (e : globals -> A) (k : A -> stmt R) :
  (forall a, emits P (k a)) -> emits P (eval e k).
Proof. intros H g. apply H. Qed.

Lemma emits_IfThenElse (c : globals -> bool) (s1 s2 : stmt R) :
  emits P s1 -> emits P s2 -> emits P (IfThenElse c s1 s2).
Proof. intros H1 H2 g. unfold IfThenElse. destruct (c g); [apply H1|apply H2]. Qed.

Lemma emits_IfThen (c : globals -> bool) (s : stmt R) :
  emits P s -> emits P (IfThen c s).
Proof. intros H. apply emits_IfThenElse; [exact H|apply emits_skip]. Qed.

Lemma emits_IfThen_never (c : globals -> bool) (s : stmt R) :
  (forall g, c g = false) -> emits P (IfThen c s).
Proof.
  intros H g. unfold IfThen, IfThenElse. rewrite H. apply emits_skip.
Qed.

Lemma emits_printf (m : message) : P (Ev_print m) -> emits P (@printf R m).
Proof. intros H. apply (emits_exec_emit (fun _ => Ev_print m)). intros _. exact H. Qed.

Lemma emits_PrintFilename (filename : string) :
  P (Ev_PrintFilename filename) -> emits P (@PrintFilename R filename).
Proof.
  intros H. apply (emits_exec_emit (fun _ => Ev_PrintFilename filename)).
  intros _. exact H.
Qed.

End Emits.

Lemma emits_call {A R} (P : event -> Prop) (body : stmt A) (dflt : A)
    (k : A -> stmt R) :
  emits P body -> (forall a, emits P (k a)) -> emits P (call body dflt k).
Proof.
  intros H1 H2 g. unfold call. destruct (H1 g) as (evs1 & E1 & F1).
  destruct (body g) as [g1 [a|]]; cbn [fst] in *.
  - destruct (H2 a g1) as (evs2 & E2 & F2). exists (evs1 ++ evs2).
    rewrite E2, E1, app_assoc. split; [reflexivity|].
    apply List.Forall_app. split; assumption.
  - destruct (H2 dflt g1) as (evs2 & E2 & F2). exists (evs1 ++ evs2).
    rewrite E2, E1, app_assoc. split; [reflexivity|].
    apply List.Forall_app. split; assumption.
Qed.

Lemma emits_weaken {R} (P Q : event -> Prop) (s : stmt R) :
  (forall e, P e -> Q e) -> emits P s -> emits Q s.
Proof.
  intros H Hs g. destruct (Hs g) as (evs & E & F). exists evs.
  split; [exact E|]. eapply Forall_impl; eassumption.
Qed.

Lemma is_ingest_not_repair (e : event) : is_ingest e -> repair_event e = false.
Proof. destruct e as [m| | | | | | | | |]; cbn; try easy. destruct m; easy. Qed.

Lemma is_ingest_before_repair (e : event) : is_ingest e -> before_repair e.
Proof. destruct e as [m| | | | | | | | |]; cbn; easy. Qed.

Lemma Verify_emits_nothing : emits (fun _ => False) Verify.
Proof.
  intros g. exists []. rewrite app_nil_r. split; [|constructor].
  pose proof (Verify_run g) as E. cbv zeta in E. rewrite E. reflexivity.
Qed.

Lemma VerifySingle_emits_prints : emits is_ingest VerifySingle.
Proof.
  intros g. unfold VerifySingle.
  pose proof (VerifySingle_body_cases g) as E. cbv zeta in E. rewrite E.
  destruct (Z.eqb _ 0); [destruct (Z.eqb _ _)|]; cbn [fst].
  - exists []. rewrite app_nil_r. split; [reflexivity|constructor].
  - eexists [_]. split; [reflexivity|]. repeat constructor.
  - exists []. rewrite app_nil_r. split; [reflexivity|constructor].
Qed.

Lemma FindDupes_emits_prints : emits is_report FindDupes.
Proof.
  intros g. unfold FindDupes.
  destruct (FindDupes_loops (seq 0 31) g false) as [d' E].
  unfold found_event in E. rewrite E.
  set (evs := flat_map _ _).
  assert (F : Forall is_report evs).
  { unfold evs. apply List.Forall_forall. intros e He.
    apply in_flat_map in He. destruct He as (i & _ & He).
    apply in_map_iff in He. destruct He as (j & <- & _). exact I. }
  destruct d'.
  - exists (evs ++ [Ev_print Msg_empty_line]). unfold printf, exec.
    cbn [fst trace emit add_events]. rewrite app_assoc. split; [reflexivity|].
    apply List.Forall_app. split; [exact F|]. repeat constructor.
  - exists evs. split; [reflexivity|exact F].
Qed.

Lemma FixFile_emits_repair_or_print (opt : options) (w : os) (filename : string) :
  emits (fun e => repair_event e = true \/ is_report e) (FixFile opt w filename).
Proof.
  intros g. rewrite FixFile_run. cbn [fst trace add_events set_buffer].
  eexists. split; [reflexivity|].
  unfold FixFile_events.
  destruct (noBackup opt); cbn [negb andb];
    [|destruct (Z.eqb (os_rename w filename (filename +:+ ".ORIG")) 0);
      cbn [negb]];
    destruct (os_fopen_wb w filename); cbn [negb];
    try destruct (os_fwrite_ok w _); cbn [negb fst app];
    repeat (apply List.Forall_cons; [cbn; auto|]); apply List.Forall_nil.
Qed.

Lemma emits_drop {R} (P : event -> Prop) (s : stmt R) (g : globals) :
  emits P s -> Forall P (drop (length (trace g)) (trace (fst (s g)))).
Proof.
  intros H. destruct (H g) as (evs & E & F). rewrite E, drop_app_length. exact F.
Qed.

Lemma is_report_not_repair (e : event) : is_report e -> repair_event e = false.
Proof. destruct e as [m| | | | | | | | |]; try contradiction. destruct m; easy. Qed.

(** Building [emits] facts for the statements of [processFile]. *)
Ltac emits_step side :=
  lazymatch goal with
  | |- emits _ (seq_stmt _ _) => apply emits_seq
  | |- emits _ (IfThenElse _ _ _) => apply emits_IfThenElse
  | |- emits _ (IfThen _ _) => apply emits_IfThen
  | |- emits _ (eval ?e ?k) => apply (emits_eval _ e k); intros ?
  | |- emits _ (Return _) => apply emits_Return
  | |- emits _ skip => apply emits_skip
  | |- emits _ (printf _) => apply emits_printf; side
  | |- emits _ (PrintFilename _) => apply emits_PrintFilename; side
  | |- emits _ (exec (emit ?e)) =>
      apply (emits_exec_emit _ (fun _ => e)); intros ?; side
  | |- emits _ (exec (fun g => emit _ g)) =>
      apply emits_exec_emit; intros ?; side
  | |- emits _ (exec _) => apply emits_exec_quiet; intros ?; reflexivity
  end.

Lemma processFile_read_emits (w : os) (filename : string) :
  emits is_ingest (processFile_read w filename).
Proof.
  unfold processFile_read, fread.
  destruct (os_fopen_r w filename) as [file|]; cbv zeta;
    repeat emits_step ltac:(reflexivity).
Qed.

(** ** More on [processFile] *)

Lemma processFile_emits_no_repair (opt : options) (w : os) (filename : string) :
  fixFiles opt = false ->
  emits (fun e => repair_event e = false) (processFile opt w filename).
Proof.
  intros Hfix. unfold processFile, processFile_with. apply emits_seq.
  { apply (emits_weaken is_ingest);
      [apply is_ingest_not_repair|apply processFile_read_emits]. }
  unfold processFile_rest.
  repeat lazymatch goal with
    | |- emits _ (IfThen (fun g => fixFiles opt && fixNeeded g) _) =>
        apply emits_IfThen_never; intros ?; rewrite Hfix; reflexivity
    | |- emits _ (call Verify _ _) =>
        apply emits_call;
        [ apply (emits_weaken (fun _ => False));
          [intros ? []|apply Verify_emits_nothing]
        | intros ? ]
    | |- emits _ (call VerifySingle _ _) =>
        apply emits_call;
        [ apply (emits_weaken is_ingest);
          [apply is_ingest_not_repair|apply VerifySingle_emits_prints]
        | intros ? ]
    | |- emits _ (call FindDupes _ _) =>
        apply emits_call;
        [ apply (emits_weaken is_report);
          [apply is_report_not_repair|apply FindDupes_emits_prints]
        | intros ? ]
    | |- _ => emits_step ltac:(reflexivity)
    end.
Qed.

(** X15.  Without the option [--fix] ([fixFiles] off), [processFile] never
    asks whether to fix and never renames, opens for writing or writes a
    file, whatever the file holds and whatever the operating system
    answers. *)
Theorem X15_processFile_without_fix_changes_no_file
    (opt : options) (w : os) (filename : string) (g : globals) :
  fixFiles opt = false ->
  Forall (fun e => repair_event e = false)
         (drop (length (trace g)) (trace (fst (processFile opt w filename g)))).
Proof.
  intros Hfix. apply emits_drop, processFile_emits_no_repair, Hfix.
Qed.

Lemma X15_processFile_without_fix_changes_no_file_witness :
  Forall (fun e => repair_event e = false)
         (drop (length (trace globals_init))
               (trace (fst (processFile options_list_only
                              (example_os bank_recoverable 0) "bank.syx"
                              globals_init)))).
Proof.
  apply (X15_processFile_without_fix_changes_no_file options_list_only
           (example_os bank_recoverable 0) "bank.syx" globals_init).
  reflexivity.
Defined.

(** ** Return values of statements *)

Lemma returns_only_skip {R} (r : R) : returns_only r (@skip R).
Proof. intros g. left. reflexivity. Qed.

Lemma returns_only_exec {R} (r : R) (f : globals -> globals) :
  returns_only r (@exec R f).
Proof. intros g. left. reflexivity. Qed.

Lemma returns_only_Return {R} (r : R) : returns_only r (Return r).
Proof. intros g. right. reflexivity. Qed.

Lemma returns_only_seq {R} (r : R) (s1 s2 : stmt R) :
  returns_only r s1 -> returns_only r s2 -> returns_only r (seq_stmt s1 s2).
Proof.
  intros H1 H2 g. unfold seq_stmt. specialize (H1 g).
  destruct (s1 g) as [g1 [r1|]]; cbn [snd] in *; [exact H1|apply H2].
Qed.

Lemma returns_only_eval {A R} (r : R) (e : globals -> A) (k : A -> stmt R) :
  (forall a, returns_only r (k a)) -> returns_only r (eval e k).
Proof. intros H g. apply H. Qed.

Lemma returns_only_IfThenElse {R} (r : R) (c : globals -> bool) (s1 s2 : stmt R) :
  returns_only r s1 -> returns_only r s2 -> returns_only r (IfThenElse c s1 s2).
Proof. intros H1 H2 g. unfold IfThenElse. destruct (c g); [apply H1|apply H2]. Qed.

Lemma returns_only_IfThen {R} (r : R) (c : globals -> bool) (s : stmt R) :
  returns_only r s -> returns_only r (IfThen c s).
Proof. intros H. apply returns_only_IfThenElse; [exact H|apply returns_only_skip]. Qed.

Lemma returns_only_call {A R} (r : R) (body : stmt A) (dflt : A) (k : A -> stmt R) :
  (forall a, returns_only r (k a)) -> returns_only r (call body dflt k).
Proof.
  intros H g. unfold call. destruct (body g) as [g1 [a|]]; apply H.
Qed.

Lemma returns_only_then_Return {R} (r : R) (s : stmt R) (g : globals) :
  returns_only r s -> snd (seq_stmt s (Return r) g) = Some r.
Proof.
  intros H. unfold seq_stmt. specialize (H g).
  destruct (s g) as [g1 [r1|]]; cbn [snd] in *; [|reflexivity].
  destruct H as [H|H]; [discriminate|exact H].
Qed.

Ltac returns_step :=
  lazymatch goal with
  | |- returns_only _ (seq_stmt _ _) => apply returns_only_seq
  | |- returns_only _ (IfThenElse _ _ _) => apply returns_only_IfThenElse
  | |- returns_only _ (IfThen _ _) => apply returns_only_IfThen
  | |- returns_only _ (eval ?e ?k) => apply (returns_only_eval _ e k); intros ?
  | |- returns_only _ (call _ _ _) => apply returns_only_call; intros ?
  | |- returns_only _ (Return _) => apply returns_only_Return
  | |- returns_only _ skip => apply returns_only_skip
  | |- returns_only _ (printf _) => apply returns_only_exec
  | |- returns_only _ (PrintFilename _) => apply returns_only_exec
  | |- returns_only _ (exec _) => apply returns_only_exec
  end.

(** The statements of [processFile] are its read part and three tests that
    can end it with 1, then the listing, the repair and the duplicate
    search. *)
Lemma seq_regroup {R} (s1 s2 s3 s4 t : stmt R) (g : globals) :
  seq_stmt s1 (seq_stmt s2 (seq_stmt s3 (seq_stmt s4 t))) g
  = seq_stmt (seq_stmt s1 (seq_stmt s2 (seq_stmt s3 s4))) t g.
Proof.
  unfold seq_stmt. destruct (s1 g) as [g1 [r|]]; [reflexivity|].
  destruct (s2 g1) as [g2 [r|]]; [reflexivity|].
  destruct (s3 g2) as [g3 [r|]]; [reflexivity|].
  destruct (s4 g3) as [g4 [r|]]; reflexivity.
Qed.

(** X16.  [processFile] returns 0 or 1.  When it returns 1 it has neither
    listed the bank nor started a repair: among the events it added there
    is no listing, no question whether to fix, no rename, no open for
    writing and no write. *)
Theorem X16_processFile_error_return_lists_and_repairs_nothing
    (opt : options) (w : os) (filename : string) (g : globals) :
  (snd (processFile opt w filename g) = Some 0
   \/ snd (processFile opt w filename g) = Some 1)
  /\ (snd (processFile opt w filename g) = Some 1 ->
      Forall (fun e => repair_event e = false
                       /\ forall sysex, e <> Ev_Format sysex)
             (drop (length (trace g))
                   (trace (fst (processFile opt w filename g))))).
Proof.
  unfold processFile, processFile_with, processFile_rest.
  rewrite seq_regroup.
  match goal with
  | |- context [seq_stmt ?p1 ?p2 g] => set (P1 := p1); set (P2 := p2)
  end.
  assert (H1 : emits is_ingest P1).
  { unfold P1. apply emits_seq; [apply processFile_read_emits|].
    repeat lazymatch goal with
      | |- emits _ (call Verify _ _) =>
          apply emits_call;
          [ apply (emits_weaken (fun _ => False));
            [intros ? []|apply Verify_emits_nothing]
          | intros ? ]
      | |- emits _ (call VerifySingle _ _) =>
          apply emits_call;
          [ apply VerifySingle_emits_prints | intros ? ]
      | |- _ => emits_step ltac:(reflexivity)
      end. }
  assert (R1 : returns_only 1 P1).
  { unfold P1, processFile_read, fread.
    destruct (os_fopen_r w filename); cbv zeta; repeat returns_step. }
  assert (R2 : forall g', snd (P2 g') = Some 0).
  { intros g'. unfold P2.
    rewrite <- !seq_assoc. apply returns_only_then_Return.
    repeat returns_step. }
  unfold seq_stmt. destruct (H1 g) as (evs & E & F). specialize (R1 g).
  destruct (P1 g) as [g1 [r|]]; cbn [fst snd] in *.
  - destruct R1 as [R1|R1]; [discriminate|]. split; [right; exact R1|].
    intros _. rewrite E, drop_app_length.
    eapply Forall_impl; [exact F|]. intros e He.
    split; [apply is_ingest_not_repair, He|].
    intros sysex ->. exact He.
  - rewrite R2. split; [left; reflexivity|]. discriminate.
Qed.

Lemma X16_processFile_error_return_lists_and_repairs_nothing_witness :
  Forall (fun e => repair_event e = false /\ forall sysex, e <> Ev_Format sysex)
         (drop (length (trace globals_init))
               (trace (fst (processFile example_options
                              (example_os bank_bad_end 0) "bank.syx"
                              globals_init)))).
Proof.
  apply (X16_processFile_error_return_lists_and_repairs_nothing example_options
           (example_os bank_bad_end 0) "bank.syx" globals_init).
  vm_compute. reflexivity.
Defined.

Lemma IfThen_true {R} (c : globals -> bool) (s : stmt R) (g : globals) :
  c g = true -> IfThen c s g = s g.
Proof. intros H. unfold IfThen, IfThenElse. rewrite H. reflexivity. Qed.

Lemma IfThen_false {R} (c : globals -> bool) (s : stmt R) (g : globals) :
  c g = false -> IfThen c s g = (g, None).
Proof. intros H. unfold IfThen, IfThenElse. rewrite H. reflexivity. Qed.

Lemma seq_regroup5 {R} (s1 s2 s3 s4 s5 t : stmt R) (g : globals) :
  seq_stmt s1 (seq_stmt s2 (seq_stmt s3 (seq_stmt s4 (seq_stmt s5 t)))) g
  = seq_stmt (seq_stmt s1 (seq_stmt s2 (seq_stmt s3 (seq_stmt s4 s5)))) t g.
Proof.
  unfold seq_stmt. destruct (s1 g) as [g1 [r|]]; [reflexivity|].
  destruct (s2 g1) as [g2 [r|]]; [reflexivity|].
  destruct (s3 g2) as [g3 [r|]]; [reflexivity|].
  destruct (s4 g3) as [g4 [r|]]; [reflexivity|].
  destruct (s5 g4) as [g5 [r|]]; reflexivity.
Qed.

(** X17.  When the question "Fix this file?" is answered with 'N' or 'n',
    [processFile] changes no file: it makes no rename, no open for writing
    and no write.  It then returns 0 at once, so that with this answer no
    duplicate is reported either, even when the duplicate search is on. *)
Theorem X17_processFile_declined_fix_changes_no_file
    (opt : options) (w : os) (filename : string) (g : globals) :
  askToFix opt = true ->
  os_fgets w = 78 \/ os_fgets w = 110 ->
  Forall (fun e => file_change_event e = false)
         (drop (length (trace g)) (trace (fst (processFile opt w filename g))))
  /\ (In (Ev_print Msg_fix_this_file)
         (drop (length (trace g)) (trace (fst (processFile opt w filename g)))) ->
      snd (processFile opt w filename g) = Some 0
      /\ forall a b,
           ~ In (Ev_print (Msg_found_duplicate a b))
                (drop (length (trace g))
                      (trace (fst (processFile opt w filename g))))).
Proof.
  intros Hask Hchoice.
  unfold processFile, processFile_with, processFile_rest.
  rewrite seq_regroup5.
  match goal with
  | |- context [seq_stmt ?p1 (seq_stmt ?x ?t) g] =>
      set (P1 := p1); set (X := x); set (T := t)
  end.
  assert (H1 : emits before_repair P1).
  { unfold P1. apply emits_seq.
    { apply (emits_weaken is_ingest);
        [apply is_ingest_before_repair|apply processFile_read_emits]. }
    repeat lazymatch goal with
      | |- emits _ (call Verify _ _) =>
          apply emits_call;
          [ apply (emits_weaken (fun _ => False));
            [intros ? []|apply Verify_emits_nothing]
          | intros ? ]
      | |- emits _ (call VerifySingle _ _) =>
          apply emits_call;
          [ apply (emits_weaken is_ingest);
            [apply is_ingest_before_repair|apply VerifySingle_emits_prints]
          | intros ? ]
      | |- _ => emits_step ltac:(reflexivity)
      end. }
  assert (HX : forall g1,
             X g1 = (g1, None)
             \/ X g1 = (emit (Ev_fgets (os_fgets w))
                          (emit (Ev_print Msg_fix_this_file) g1), Some 0)).
  { intros g1. unfold X.
    destruct (fixFiles opt && fixNeeded g1) eqn:Hc;
      [right; rewrite IfThen_true by exact Hc
      |left; rewrite IfThen_false by exact Hc; reflexivity].
    rewrite seq_IfThen_enter by exact Hask. step.
    rewrite seq_IfThen_enter
      by (destruct Hchoice as [-> | ->]; reflexivity).
    reflexivity. }
  assert (HT : emits (fun e => is_report e) T).
  { unfold T. apply emits_seq; [|apply emits_Return].
    apply emits_IfThen, emits_call; [apply FindDupes_emits_prints|].
    intros ?. apply emits_skip. }
  remember (seq_stmt P1 (seq_stmt X T) g) as res eqn:Hres.
  unfold seq_stmt at 1 in Hres. destruct (H1 g) as (evs1 & E1 & F1).
  destruct (P1 g) as [g1 [r|]]; cbn [fst snd] in *.
  - subst res. cbn [fst snd]. rewrite E1, drop_app_length. split.
    + eapply Forall_impl; [exact F1|]. intros e He.
      destruct e as [m| | | | | | | | |]; cbn in He |- *; try easy.
    + intros Hin. rewrite List.Forall_forall in F1.
      destruct (F1 _ Hin).
  - unfold seq_stmt at 1 in Hres. destruct (HX g1) as [HX1 | HX1];
      rewrite HX1 in Hres.
    + destruct (HT g1) as (evs2 & E2 & F2). subst res.
      rewrite E2, E1, <- app_assoc.
      rewrite drop_app_length. split.
      * apply List.Forall_app. split.
        -- eapply Forall_impl; [exact F1|]. intros e He.
           destruct e as [m| | | | | | | | |]; cbn in He |- *; try easy.
        -- eapply Forall_impl; [exact F2|]. intros e He.
           destruct e as [m| | | | | | | | |]; cbn in He |- *; easy.
      * intros Hin. apply in_app_or in Hin. rewrite List.Forall_forall in F1, F2.
        destruct Hin as [Hin|Hin]; [destruct (F1 _ Hin)|destruct (F2 _ Hin)].
    + subst res. cbn [fst snd trace emit].
      rewrite E1, <- !app_assoc, drop_app_length. cbn [app].
      split.
      * apply List.Forall_app. split.
        -- eapply Forall_impl; [exact F1|]. intros e He.
           destruct e as [m| | | | | | | | |]; cbn in He |- *; try easy.
        -- repeat constructor.
      * intros _. split; [reflexivity|]. intros a b Hin.
        apply in_app_or in Hin. rewrite List.Forall_forall in F1.
        destruct Hin as [Hin|Hin]; [destruct (F1 _ Hin)|].
        destruct Hin as [Hin|[Hin|[]]]; discriminate Hin.
Qed.

Lemma X17_processFile_declined_fix_changes_no_file_witness :
  Forall (fun e => file_change_event e = false)
         (drop (length (trace globals_init))
               (trace (fst (processFile example_options os_answer_no "bank.syx"
                                        globals_init))))
  /\ (In (Ev_print Msg_fix_this_file)
         (drop (length (trace globals_init))
               (trace (fst (processFile example_options os_answer_no "bank.syx"
                                        globals_init)))) ->
      snd (processFile example_options os_answer_no "bank.syx" globals_init)
      = Some 0
      /\ forall a b,
           ~ In (Ev_print (Msg_found_duplicate a b))
                (drop (length (trace globals_init))
                      (trace (fst (processFile example_options os_answer_no
                                     "bank.syx" globals_init))))).
Proof.
  apply (X17_processFile_declined_fix_changes_no_file example_options
           os_answer_no "bank.syx" globals_init).
  - reflexivity.
  - right. reflexivity.
Defined.

(** For a file of less than 2^31 bytes [fsize] is the size of the file,
    and so is what the comparisons see. *)
Lemma fsize_exact (n : Z) :
  0 <= n < 2 ^ 31 -> to_int n = n /\ to_unsigned (to_int n) = n.
Proof.
  intros H. unfold to_int, to_unsigned.
  assert (E : (n + 2 ^ 31) mod 2 ^ 32 = n + 2 ^ 31) by (apply Z.mod_small; lia).
  rewrite E. replace (n + 2 ^ 31 - 2 ^ 31) with n by lia.
  split; [reflexivity | apply Z.mod_small; lia].
Qed.

(** X18.  A file whose size, as the program measures it ([ftell] kept in
    the [int] [fsize] and compared as [unsigned]), is none of 4104, 4096
    and 163 is refused: [processFile] reads nothing, prints the file name
    and "File too big" when the size is above 4104, "File too small"
    otherwise (so also for sizes between the known ones), returns 1, and
    leaves the buffer and every flag as they were.  For a file of less
    than 2^31 bytes the size measured is the size of the file. *)
Theorem X18_processFile_refuses_other_sizes
    (opt : options) (w : os) (filename : string) (file : list Z) (g : globals) :
  os_fopen_r w filename = Some file ->
  to_unsigned (to_int (Z.of_nat (length file))) <> Z.of_nat sysexSize ->
  to_unsigned (to_int (Z.of_nat (length file))) <> Z.of_nat rawDataSize ->
  to_unsigned (to_int (Z.of_nat (length file))) <> Z.of_nat singleSysexSize ->
  processFile opt w filename g
  = (emit (Ev_print
             (if Z.ltb (Z.of_nat sysexSize)
                       (to_unsigned (to_int (Z.of_nat (length file))))
              then Msg_too_big (to_int (Z.of_nat (length file)))
              else Msg_too_small (to_int (Z.of_nat (length file)))))
       (emit (Ev_PrintFilename filename)
          (set_fsize (to_int (Z.of_nat (length file)))
             (emit (Ev_fopen_r filename true) g))),
     Some 1)
  /\ (Z.of_nat (length file) < 2 ^ 31 ->
      to_int (Z.of_nat (length file)) = Z.of_nat (length file)
      /\ to_unsigned (to_int (Z.of_nat (length file))) = Z.of_nat (length file)).
Proof.
  intros Hopen H1 H2 H3. split; [|intros H; apply fsize_exact; lia].
  unfold processFile, processFile_with, processFile_read. rewrite Hopen.
  step.
  apply Z.eqb_neq in H1, H2, H3.
  unfold seq_stmt at 1. unfold IfThenElse at 1. cbn [fsize set_fsize emit].
  rewrite H1. unfold IfThenElse at 1. cbn [fsize set_fsize emit]. rewrite H2.
  unfold IfThenElse at 1. cbn [fsize set_fsize emit]. rewrite H3.
  unfold IfThenElse at 1. cbn [fsize set_fsize emit].
  destruct (Z.ltb (Z.of_nat sysexSize)
                  (to_unsigned (to_int (Z.of_nat (length file)))));
    reflexivity.
Qed.

Lemma X18_processFile_refuses_other_sizes_witness :
  processFile example_options (example_os (replicate 4105 0) 0) "big.syx"
              globals_init
  = (emit (Ev_print
             (if Z.ltb (Z.of_nat sysexSize)
                       (to_unsigned (to_int (Z.of_nat (length (replicate 4105 0)))))
              then Msg_too_big (to_int (Z.of_nat (length (replicate 4105 0))))
              else Msg_too_small (to_int (Z.of_nat (length (replicate 4105 0))))))
       (emit (Ev_PrintFilename "big.syx")
          (set_fsize (to_int (Z.of_nat (length (replicate 4105 0))))
             (emit (Ev_fopen_r "big.syx" true) globals_init))),
     Some 1)
  /\ (Z.of_nat (length (replicate 4105 0)) < 2 ^ 31 ->
      to_int (Z.of_nat (length (replicate 4105 0)))
      = Z.of_nat (length (replicate 4105 0))
      /\ to_unsigned (to_int (Z.of_nat (length (replicate 4105 0))))
         = Z.of_nat (length (replicate 4105 0))).
Proof.
  apply (X18_processFile_refuses_other_sizes example_options
           (example_os (replicate 4105 0) 0) "big.syx" (replicate 4105 0)
           globals_init).
  - reflexivity.
  - vm_compute. discriminate.
  - vm_compute. discriminate.
  - vm_compute. discriminate.
Defined.

(** The sizes that wrap.  A file of 2^32 + 4104 bytes is measured as 4104
    bytes and takes the branch of a bank, and a file of 2^31 bytes is
    measured as -2^31 and compared as 2^31. *)
Example fsize_wraps :
  to_unsigned (to_int (2 ^ 32 + 4104)) = Z.of_nat sysexSize
  /\ to_int (2 ^ 31) = - 2 ^ 31
  /\ Z.ltb (Z.of_nat sysexSize) (to_unsigned (to_int (2 ^ 31))) = true.
Proof. split; [|split]; reflexivity. Qed.

(** Reading a single-voice dump into the buffer. *)
Lemma fread_single_dump (file buf : list Z) :
  length file = singleSysexSize ->
  length buf = sysexSize ->
  list_inserts 0 (take singleSysexSize file) buf
  = file ++ drop singleSysexSize buf.
Proof.
  intros Hfile Hbuf. rewrite <- Hfile, firstn_all.
  rewrite <- (take_drop (length file) buf) at 1.
  apply list_inserts_0_r. rewrite length_take.
  unfold singleSysexSize, sysexSize in *. lia.
Qed.

Lemma load_app_l (l1 l2 : list Z) (i : nat) :
  (i < length l1)%nat -> load (l1 ++ l2) i = load l1 i.
Proof. intros H. unfold load. rewrite lookup_app_l by exact H. reflexivity. Qed.

Lemma VerifySingle_header_error_app (file rest : list Z) :
  length file = singleSysexSize ->
  VerifySingle_header_error (file ++ rest) = VerifySingle_header_error file.
Proof.
  intros H. unfold VerifySingle_header_error.
  rewrite !load_app_l
    by (rewrite H; unfold singleSysexSize, DX7SingleSysex.sysexBeginF0,
          DX7SingleSysex.yamaha43, DX7SingleSysex.subStatusAndChannel,
          DX7SingleSysex.format0, DX7SingleSysex.sizeMSB,
          DX7SingleSysex.sizeLSB, DX7SingleSysex.sysexEndF7; lia).
  reflexivity.
Qed.

Lemma ChecksumSingle_app (file rest : list Z) :
  length file = singleSysexSize ->
  ChecksumSingle (file ++ rest) DX7SingleSysex.voice sizeof_VoiceUnpacked
  = ChecksumSingle file DX7SingleSysex.voice sizeof_VoiceUnpacked.
Proof.
  intros H. unfold ChecksumSingle. rewrite !sum_loop_spec. do 3 f_equal.
  rewrite drop_app_le
    by (rewrite H; unfold singleSysexSize, DX7SingleSysex.voice; lia).
  apply take_app_le. rewrite length_drop, H.
  unfold singleSysexSize, DX7SingleSysex.voice, sizeof_VoiceUnpacked. lia.
Qed.

Lemma seq_IfThenElse_false {R} (c : globals -> bool) (s1 s2 k : stmt R)
    (g : globals) :
  c g = false -> seq_stmt (IfThenElse c s1 s2) k g = seq_stmt s2 k g.
Proof. intros H. unfold seq_stmt, IfThenElse. rewrite H. reflexivity. Qed.

(** X19.  A file of 163 bytes that is read without error goes to the
    single-voice validator and never further: [processFile] returns 1 in
    every case, after the file name and either the line "File is a Single
    Voice Dump" with the ten name bytes, when the seven header and footer
    tests pass (preceded by the checksum message when the checksum byte is
    wrong), or else the line "File too small (163 Bytes)". *)
Theorem X19_processFile_single_voice_file
    (opt : options) (w : os) (filename : string) (file : list Z) (g : globals) :
  os_fopen_r w filename = Some file ->
  length file = singleSysexSize ->
  os_fread_ok w = true ->
  length (buffer g) = sysexSize ->
  snd (processFile opt w filename g) = Some 1
  /\ drop (length (trace g)) (trace (fst (processFile opt w filename g)))
     = [Ev_fopen_r filename true; Ev_fread 0 singleSysexSize true;
        Ev_PrintFilename filename]
       ++ (if Z.eqb (VerifySingle_header_error file) 0
           then (if Z.eqb (ChecksumSingle file DX7SingleSysex.voice
                                          sizeof_VoiceUnpacked)
                          (load file DX7SingleSysex.checksum)
                 then []
                 else [Ev_print (Msg_checksum_single
                         (ChecksumSingle file DX7SingleSysex.voice
                                         sizeof_VoiceUnpacked))])
                ++ [Ev_print (Msg_single_voice_dump (take 10 (drop 151 file)))]
           else [Ev_print (Msg_too_small (Z.of_nat singleSysexSize))]).
Proof.
  intros Hopen Hlen Hread Hbuf.
  unfold processFile, processFile_with, processFile_read. rewrite Hopen.
  step.
  rewrite seq_IfThenElse_false
    by (cbn [fsize set_fsize]; rewrite Hlen; reflexivity).
  rewrite seq_IfThenElse_false
    by (cbn [fsize set_fsize]; rewrite Hlen; reflexivity).
  rewrite seq_IfThenElse_true
    by (cbn [fsize set_fsize]; rewrite Hlen; reflexivity).
  unfold fread. cbv zeta. rewrite Hread. step.
  rewrite seq_IfThen_enter by reflexivity. step.
  rewrite seq_IfThen_skip by reflexivity. step.
  unfold processFile_rest.
  rewrite seq_IfThen_enter by reflexivity. step.
  cbn [buffer emit set_fsize].
  rewrite (fread_single_dump file (buffer g) Hlen Hbuf).
  set (buf := file ++ drop singleSysexSize (buffer g)).
  match goal with
  | |- context [seq_stmt (call VerifySingle 0 ?k1) ?k ?g1] =>
      set (g2 := g1);
      pose proof (VerifySingle_body_cases g2) as EV; cbv zeta in EV;
      assert (EV' : VerifySingle g2
                    = (fst (VerifySingle_body g2),
                       fst <$> snd (VerifySingle_body g2)))
        by (unfold VerifySingle; destruct (VerifySingle_body g2); reflexivity)
  end.
  assert (Hb : buffer g2 = buf) by reflexivity.
  assert (Ht : trace g2 = trace g ++ [Ev_fopen_r filename true;
                 Ev_fread 0 singleSysexSize true; Ev_PrintFilename filename]).
  { unfold g2. cbn [trace emit set_singleVoiceFile set_buffer set_fsize].
    rewrite <- !app_assoc. reflexivity. }
  assert (Hf : fsize g2 = Z.of_nat singleSysexSize)
    by (unfold g2; cbn [fsize emit set_singleVoiceFile set_buffer set_fsize];
        rewrite Hlen; reflexivity).
  unfold member in EV. rewrite Hb in EV. unfold buf in EV.
  rewrite (VerifySingle_header_error_app _ _ Hlen),
    (ChecksumSingle_app _ _ Hlen),
    (load_app_l file _ DX7SingleSysex.checksum)
    in EV by (rewrite Hlen; unfold singleSysexSize, DX7SingleSysex.checksum; lia).
  assert (Hname : take 10 (drop 151 buf) = take 10 (drop 151 file)).
  { unfold buf. rewrite drop_app_le by (rewrite Hlen; unfold singleSysexSize; lia).
    apply take_app_le. rewrite length_drop, Hlen. unfold singleSysexSize. lia. }
  clearbody g2.
  destruct (Z.eqb (VerifySingle_header_error file) 0).
  - destruct (Z.eqb _ (load file DX7SingleSysex.checksum)).
    + rewrite EV in EV'. cbn [fst snd fmap option_fmap option_map] in EV'.
      rewrite (seq_call VerifySingle 0 _ _ g2 g2 0 EV').
      rewrite seq_IfThenElse_true by reflexivity. step.
      cbn [fst snd trace emit]. rewrite Hb, Hname, Ht, <- !app_assoc.
      rewrite drop_app_length. split; reflexivity.
    + rewrite EV in EV'. cbn [fst snd fmap option_fmap option_map] in EV'.
      rewrite (seq_call VerifySingle 0 _ _ g2 _ 0 EV').
      rewrite seq_IfThenElse_true by reflexivity. step.
      cbn [fst snd trace emit buffer]. rewrite Hb, Hname, Ht, <- !app_assoc.
      rewrite drop_app_length. split; reflexivity.
  - rewrite EV in EV'. cbn [fst snd fmap option_fmap option_map] in EV'.
    rewrite (seq_call VerifySingle 0 _ _ g2 g2 1 EV').
    rewrite seq_IfThenElse_false by reflexivity. step.
    cbn [fst snd trace emit]. rewrite Hf, Ht, <- !app_assoc.
    rewrite drop_app_length. split; reflexivity.
Qed.

Lemma X19_processFile_single_voice_file_witness :
  snd (processFile example_options (example_os (single_dump 1) 0) "voice.syx"
                   globals_init) = Some 1
  /\ drop (length (trace globals_init))
          (trace (fst (processFile example_options (example_os (single_dump 1) 0)
                                   "voice.syx" globals_init)))
     = [Ev_fopen_r "voice.syx" true; Ev_fread 0 singleSysexSize true;
        Ev_PrintFilename "voice.syx"]
       ++ (if Z.eqb (VerifySingle_header_error (single_dump 1)) 0
           then (if Z.eqb (ChecksumSingle (single_dump 1) DX7SingleSysex.voice
                                          sizeof_VoiceUnpacked)
                          (load (single_dump 1) DX7SingleSysex.checksum)
                 then []
                 else [Ev_print (Msg_checksum_single
                         (ChecksumSingle (single_dump 1) DX7SingleSysex.voice
                                         sizeof_VoiceUnpacked))])
                ++ [Ev_print (Msg_single_voice_dump
                                (take 10 (drop 151 (single_dump 1))))]
           else [Ev_print (Msg_too_small (Z.of_nat singleSysexSize))]).
Proof.
  apply (X19_processFile_single_voice_file example_options
           (example_os (single_dump 1) 0) "voice.syx" (single_dump 1)
           globals_init); reflexivity.
Defined.

Example UnpackVoice_voice_steps : UnpackVoice voice_steps = voice_steps_unpacked.
Proof. vm_compute. reflexivity. Qed.

(** The named bits of [voice_steps] are its bytes under the masks of the
    128 bytes. *)
Example named_bits_voice_steps :
  named_bits voice_steps
  = zip_with Z.land voice_steps
      (concat (replicate 6 OperatorPacked_named_bits) ++ VoicePacked_named_bits).
Proof. vm_compute. reflexivity. Qed.

(** ** Bit-fields *)

Lemma bitfield_div_mod (a pos w : Z) :
  0 <= pos -> 0 <= w -> bitfield a pos w = (a / 2 ^ pos) mod 2 ^ w.
Proof.
  intros Hp Hw. unfold bitfield.
  rewrite Z.land_ones by exact Hw. rewrite Z.shiftr_div_pow2 by exact Hp.
  reflexivity.
Qed.

Lemma bitfield_range (a pos w : Z) :
  0 <= pos -> 0 <= w -> 0 <= bitfield a pos w < 2 ^ w.
Proof.
  intros Hp Hw. rewrite bitfield_div_mod by assumption.
  apply Z.mod_pos_bound. apply Z.pow_pos_nonneg; lia.
Qed.

Lemma to_uchar_bitfield (a pos w : Z) :
  0 <= pos -> 0 <= w <= 8 -> to_uchar (bitfield a pos w) = bitfield a pos w.
Proof.
  intros Hp Hw. unfold to_uchar. apply Z.mod_small.
  pose proof (bitfield_range a pos w Hp (proj1 Hw)) as R.
  assert (2 ^ w <= 2 ^ 8) by (apply Z.pow_le_mono_r; lia).
  change (2 ^ 8) with 256 in *. lia.
Qed.

Lemma land_0xFF (a : Z) : Z.land a 0xFF = to_uchar a.
Proof. change 0xFF with (Z.ones 8). rewrite Z.land_ones by lia. reflexivity. Qed.

(** The low [n] bits of a byte determine the bit-fields inside them. *)
Lemma bitfield_low_bits (n pos w a : Z) :
  0 <= pos -> 0 <= w -> pos + w <= n ->
  bitfield (Z.land a (Z.ones n)) pos w = bitfield a pos w.
Proof.
  intros Hp Hw Hn. unfold bitfield. apply Z.bits_inj'. intros k Hk.
  rewrite !Z.land_spec, !Z.shiftr_spec, Z.land_spec by exact Hk.
  destruct (Z.ltb_spec k w) as [L|L].
  - rewrite (Z.ones_spec_low n (k + pos)) by lia.
    rewrite andb_true_r. reflexivity.
  - rewrite (Z.ones_spec_high w k) by lia. rewrite !andb_false_r. reflexivity.
Qed.

Lemma field_of_named_bits (n pos w a b : Z) :
  0 <= pos -> 0 <= w -> pos + w <= n ->
  Z.land a (Z.ones n) = Z.land b (Z.ones n) ->
  to_uchar (bitfield a pos w) = to_uchar (bitfield b pos w).
Proof.
  intros Hp Hw Hn H.
  rewrite <- (bitfield_low_bits n pos w a), <- (bitfield_low_bits n pos w b)
    by assumption.
  rewrite H. reflexivity.
Qed.

(** Two adjacent bit-fields are the low bits of their byte. *)
Lemma bitfield_adjacent (a pos w1 w2 : Z) :
  0 <= pos -> 0 <= w1 -> 0 <= w2 ->
  bitfield a pos (w1 + w2)
  = bitfield a pos w1 + 2 ^ w1 * bitfield a (pos + w1) w2.
Proof.
  intros Hp H1 H2. rewrite !bitfield_div_mod by lia.
  rewrite Z.pow_add_r by lia.
  rewrite Z.rem_mul_r by (apply Z.pow_nonzero || apply Z.pow_pos_nonneg; lia).
  rewrite (Z.pow_add_r 2 pos w1) by lia.
  rewrite Z.div_div by (try apply Z.pow_pos_nonneg; try apply Z.pow_nonzero; lia).
  reflexivity.
Qed.

Lemma bitfield_0 (a n : Z) : 0 <= n -> bitfield a 0 n = Z.land a (Z.ones n).
Proof. intros H. unfold bitfield. rewrite Z.shiftr_0_r. reflexivity. Qed.

Lemma named_bits_of_fields_1 (n a b : Z) :
  0 <= n <= 8 ->
  to_uchar (bitfield a 0 n) = to_uchar (bitfield b 0 n) ->
  Z.land a (Z.ones n) = Z.land b (Z.ones n).
Proof.
  intros Hn H. rewrite !to_uchar_bitfield in H by lia.
  rewrite <- !bitfield_0 by lia. exact H.
Qed.

Lemma named_bits_of_fields_2 (w1 w2 a b : Z) :
  0 <= w1 -> 0 <= w2 -> w1 + w2 <= 8 ->
  to_uchar (bitfield a 0 w1) = to_uchar (bitfield b 0 w1) ->
  to_uchar (bitfield a w1 w2) = to_uchar (bitfield b w1 w2) ->
  Z.land a (Z.ones (w1 + w2)) = Z.land b (Z.ones (w1 + w2)).
Proof.
  intros H1 H2 H8 E1 E2. rewrite !to_uchar_bitfield in E1, E2 by lia.
  rewrite <- !bitfield_0 by lia.
  rewrite !bitfield_adjacent by lia. rewrite !Z.add_0_l, E1, E2. reflexivity.
Qed.

Lemma named_bits_of_fields_3 (w1 w2 w3 a b : Z) :
  0 <= w1 -> 0 <= w2 -> 0 <= w3 -> w1 + w2 + w3 <= 8 ->
  to_uchar (bitfield a 0 w1) = to_uchar (bitfield b 0 w1) ->
  to_uchar (bitfield a w1 w2) = to_uchar (bitfield b w1 w2) ->
  to_uchar (bitfield a (w1 + w2) w3) = to_uchar (bitfield b (w1 + w2) w3) ->
  Z.land a (Z.ones (w1 + w2 + w3)) = Z.land b (Z.ones (w1 + w2 + w3)).
Proof.
  intros H1 H2 H3 H8 E1 E2 E3. rewrite !to_uchar_bitfield in E1, E2, E3 by lia.
  rewrite <- !bitfield_0 by lia.
  rewrite !(bitfield_adjacent _ 0 (w1 + w2) w3) by lia.
  rewrite !(bitfield_adjacent _ 0 w1 w2) by lia.
  rewrite !Z.add_0_l, E1, E2, E3. reflexivity.
Qed.

Lemma named_bits_of_byte (a b : Z) :
  to_uchar a = to_uchar b -> Z.land a 0xFF = Z.land b 0xFF.
Proof. rewrite !land_0xFF. exact (fun H => H). Qed.

Lemma byte_of_named_bits (a b : Z) :
  Z.land a 0xFF = Z.land b 0xFF -> to_uchar a = to_uchar b.
Proof. rewrite !land_0xFF. exact (fun H => H). Qed.

Lemma cons_eq {A} (x y : A) (l k : list A) : x = y -> l = k -> x :: l = y :: k.
Proof. intros -> ->. reflexivity. Qed.

(** The named bits of one byte from the members unpacked from it. *)
Ltac named_bits_of_members :=
  lazymatch goal with
  | |- Z.land ?a 255 = Z.land ?b 255 =>
      match goal with
      | H : to_uchar a = to_uchar b |- _ => exact (named_bits_of_byte a b H)
      end
  | |- Z.land ?a ?M = Z.land ?b ?M =>
      match goal with
      | H1 : to_uchar (bitfield a 0 ?w1) = to_uchar (bitfield b 0 ?w1),
        H2 : to_uchar (bitfield a ?w1 ?w2) = to_uchar (bitfield b ?w1 ?w2),
        H3 : to_uchar (bitfield a 4 ?w3) = to_uchar (bitfield b 4 ?w3) |- _ =>
          exact (named_bits_of_fields_3 w1 w2 w3 a b ltac:(lia) ltac:(lia)
                   ltac:(lia) ltac:(lia) H1 H2 H3)
      | H1 : to_uchar (bitfield a 0 ?w1) = to_uchar (bitfield b 0 ?w1),
        H2 : to_uchar (bitfield a ?w1 ?w2) = to_uchar (bitfield b ?w1 ?w2) |- _ =>
          exact (named_bits_of_fields_2 w1 w2 a b ltac:(lia) ltac:(lia)
                   ltac:(lia) H1 H2)
      | H1 : to_uchar (bitfield a 0 ?w1) = to_uchar (bitfield b 0 ?w1) |- _ =>
          exact (named_bits_of_fields_1 w1 a b ltac:(lia) H1)
      end
  end.

(** A member from the named bits of its byte. *)
Ltac member_of_named_bits :=
  lazymatch goal with
  | |- to_uchar (bitfield ?a ?pos ?w) = to_uchar (bitfield ?b ?pos ?w) =>
      match goal with
      | H : Z.land a ?M = Z.land b ?M |- _ =>
          let n := lazymatch M with
                   | 15 => constr:(4) | 127 => constr:(7)
                   | 31 => constr:(5) | 63 => constr:(6)
                   end in
          exact (field_of_named_bits n pos w a b ltac:(lia) ltac:(lia)
                   ltac:(lia) H)
      end
  | |- to_uchar ?a = to_uchar ?b =>
      match goal with
      | H : Z.land a 255 = Z.land b 255 |- _ => exact (byte_of_named_bits a b H)
      end
  end.

Ltac unfold_members :=
  unfold UnpackOperator, operator_named_bits,
    OperatorPacked.EG_R1, OperatorPacked.EG_R2, OperatorPacked.EG_R3,
    OperatorPacked.EG_R4, OperatorPacked.EG_L1, OperatorPacked.EG_L2,
    OperatorPacked.EG_L3, OperatorPacked.EG_L4,
    OperatorPacked.levelScalingBreakPoint, OperatorPacked.scaleLeftDepth,
    OperatorPacked.scaleRightDepth, OperatorPacked.scaleLeftCurve,
    OperatorPacked.scaleRightCurve, OperatorPacked.rateScale,
    OperatorPacked.detune, OperatorPacked.amplitudeModulationSensitivity,
    OperatorPacked.keyVelocitySensitivity, OperatorPacked.outputLevel,
    OperatorPacked.oscillatorMode, OperatorPacked.frequencyCoarse,
    OperatorPacked.frequencyFine,
    VoicePacked.pitchEGR1, VoicePacked.pitchEGR2, VoicePacked.pitchEGR3,
    VoicePacked.pitchEGR4, VoicePacked.pitchEGL1, VoicePacked.pitchEGL2,
    VoicePacked.pitchEGL3, VoicePacked.pitchEGL4, VoicePacked.algorithm,
    VoicePacked.feedback, VoicePacked.oscKeySync, VoicePacked.lfoSpeed,
    VoicePacked.lfoDelay, VoicePacked.lfoPitchModDepth, VoicePacked.lfoAMDepth,
    VoicePacked.lfoSync, VoicePacked.lfoWave,
    VoicePacked.lfoPitchModSensitivity, VoicePacked.transpose,
    VoicePacked.name, VoicePacked_named_bits,
    OperatorPacked_named_bits, sizeof_OperatorPacked in *;
  cbn [map seq app zip_with replicate Nat.add] in *.

Lemma cons_inj {A} (x y : A) (l k : list A) : x :: l = y :: k -> x = y /\ l = k.
Proof. intros [= -> ->]. split; reflexivity. Qed.

Ltac split_list H :=
  repeat (let E := fresh "E" in apply cons_inj in H; destruct H as [E H]).

Lemma UnpackOperator_named_bits (p q : list Z) (i : nat) :
  UnpackOperator p i = UnpackOperator q i
  <-> operator_named_bits p i = operator_named_bits q i.
Proof.
  split; intros H.
  - unfold_members. split_list H.
    repeat (apply cons_eq; [named_bits_of_members|]). reflexivity.
  - unfold_members. split_list H.
    repeat (apply cons_eq; [member_of_named_bits|]). reflexivity.
Qed.

(** The members of a voice after its operators. *)
Lemma UnpackVoice_rest_named_bits (p q : list Z) :
  map to_uchar
    [ VoicePacked.pitchEGR1 p; VoicePacked.pitchEGR2 p; VoicePacked.pitchEGR3 p;
      VoicePacked.pitchEGR4 p; VoicePacked.pitchEGL1 p; VoicePacked.pitchEGL2 p;
      VoicePacked.pitchEGL3 p; VoicePacked.pitchEGL4 p; VoicePacked.algorithm p;
      VoicePacked.feedback p; VoicePacked.oscKeySync p; VoicePacked.lfoSpeed p;
      VoicePacked.lfoDelay p; VoicePacked.lfoPitchModDepth p;
      VoicePacked.lfoAMDepth p; VoicePacked.lfoSync p; VoicePacked.lfoWave p;
      VoicePacked.lfoPitchModSensitivity p; VoicePacked.transpose p ]
  ++ map (fun k => to_uchar (VoicePacked.name p k)) (seq 0 10)
  = map to_uchar
      [ VoicePacked.pitchEGR1 q; VoicePacked.pitchEGR2 q; VoicePacked.pitchEGR3 q;
        VoicePacked.pitchEGR4 q; VoicePacked.pitchEGL1 q; VoicePacked.pitchEGL2 q;
        VoicePacked.pitchEGL3 q; VoicePacked.pitchEGL4 q; VoicePacked.algorithm q;
        VoicePacked.feedback q; VoicePacked.oscKeySync q; VoicePacked.lfoSpeed q;
        VoicePacked.lfoDelay q; VoicePacked.lfoPitchModDepth q;
        VoicePacked.lfoAMDepth q; VoicePacked.lfoSync q; VoicePacked.lfoWave q;
        VoicePacked.lfoPitchModSensitivity q; VoicePacked.transpose q ]
    ++ map (fun k => to_uchar (VoicePacked.name q k)) (seq 0 10)
  <-> zip_with Z.land (map (load p) (seq 102 26)) VoicePacked_named_bits
      = zip_with Z.land (map (load q) (seq 102 26)) VoicePacked_named_bits.
Proof.
  split; intros H.
  - unfold_members. split_list H.
    repeat (apply cons_eq; [named_bits_of_members|]). reflexivity.
  - unfold_members. split_list H.
    repeat (apply cons_eq; [member_of_named_bits|]). reflexivity.
Qed.

Lemma flat_map_eq_iff {A B} (f g : A -> list B) (l : list A) :
  (forall i, length (f i) = length (g i)) ->
  flat_map f l = flat_map g l <-> Forall (fun i => f i = g i) l.
Proof.
  intros Hlen. induction l as [|i l IH]; cbn [flat_map].
  - split; [intros _; apply List.Forall_nil | reflexivity].
  - rewrite List.Forall_cons_iff, <- IH. split.
    + intros H. apply app_inj_1 in H; [exact H | apply Hlen].
    + intros [-> ->]. reflexivity.
Qed.

(** X20.  Unpacking a voice loses the unnamed bit-fields and nothing else:
    two packed voices unpack to the same 155 bytes if and only if they
    agree on every bit that belongs to a named member. *)
Theorem X20_UnpackVoice_loses_only_the_unnamed_bits (p q : list Z) :
  UnpackVoice p = UnpackVoice q <-> named_bits p = named_bits q.
Proof.
  unfold UnpackVoice, named_bits. split; intros H.
  - apply app_inj_1 in H; [|rewrite !length_flat_map; reflexivity].
    destruct H as [H1 H2].
    apply flat_map_eq_iff in H1; [|reflexivity].
    apply UnpackVoice_rest_named_bits in H2. rewrite H2. f_equal.
    apply flat_map_eq_iff; [reflexivity|].
    eapply List.Forall_impl; [|exact H1].
    intros i Hi. apply UnpackOperator_named_bits. exact Hi.
  - apply app_inj_1 in H; [|rewrite !length_flat_map; reflexivity].
    destruct H as [H1 H2].
    apply flat_map_eq_iff in H1; [|reflexivity].
    apply UnpackVoice_rest_named_bits in H2. rewrite H2. f_equal.
    apply flat_map_eq_iff; [reflexivity|].
    eapply List.Forall_impl; [|exact H1].
    intros i Hi. apply UnpackOperator_named_bits. exact Hi.
Qed.

(** ** The voice data that [Format] prints *)

Lemma length_UnpackVoice (pVoice : list Z) :
  length (UnpackVoice pVoice) = sizeof_VoiceUnpacked.
Proof. reflexivity. Qed.

Lemma ChecksumSingle_range (mem : list Z) (voice blocksize : nat) :
  0 <= ChecksumSingle mem voice blocksize < 128.
Proof.
  unfold ChecksumSingle, negate_mask, to_uchar.
  change 0x7F with (Z.ones 7). rewrite Z.land_ones by lia.
  change (2 ^ 7) with 128.
  pose proof (Z.mod_pos_bound ((Z.lnot (sum_loop mem voice blocksize) + 1) mod 256)
                128 ltac:(lia)) as H.
  rewrite (Z.mod_small _ 256) by lia. exact H.
Qed.

Lemma VerifySingle_single_voice_message (voice rest : list Z) (g : globals) :
  length voice = sizeof_VoiceUnpacked ->
  VerifySingle (set_buffer (single_voice_message voice ++ rest) g)
  = (set_buffer (single_voice_message voice ++ rest) g, Some 0).
Proof.
  intros Hlen. unfold VerifySingle. rewrite VerifySingle_body_cases. cbv zeta.
  unfold member. cbn [buffer set_buffer].
  assert (Hmsg : length (single_voice_message voice) = singleSysexSize).
  { unfold single_voice_message. rewrite !length_app, Hlen. reflexivity. }
  rewrite (VerifySingle_header_error_app _ _ Hmsg), (ChecksumSingle_app _ _ Hmsg).
  rewrite (load_app_l _ rest DX7SingleSysex.checksum)
    by (rewrite Hmsg; unfold singleSysexSize, DX7SingleSysex.checksum; lia).
  assert (Herr : VerifySingle_header_error (single_voice_message voice) = 0).
  { unfold VerifySingle_header_error, single_voice_message.
    assert (E : load ([0xF0; 0x43; 0; 0; 0x01; 0x1B] ++ voice
                      ++ [ChecksumSingle voice 0 sizeof_VoiceUnpacked; 0xF7])
                     DX7SingleSysex.sysexEndF7 = 0xF7).
    { unfold load, DX7SingleSysex.sysexEndF7.
      rewrite lookup_app_r by (cbn [length]; lia).
      rewrite lookup_app_r
        by (cbn [length]; rewrite Hlen; unfold sizeof_VoiceUnpacked; lia).
      rewrite Hlen. reflexivity. }
    rewrite E. reflexivity. }
  assert (Hck : load (single_voice_message voice) DX7SingleSysex.checksum
                = ChecksumSingle voice 0 sizeof_VoiceUnpacked).
  { unfold single_voice_message, load, DX7SingleSysex.checksum.
    rewrite lookup_app_r by (cbn [length]; lia).
    rewrite lookup_app_r
      by (cbn [length]; rewrite Hlen; unfold sizeof_VoiceUnpacked; lia).
    rewrite Hlen. reflexivity. }
  assert (Hsum : ChecksumSingle (single_voice_message voice) DX7SingleSysex.voice
                                sizeof_VoiceUnpacked
                 = ChecksumSingle voice 0 sizeof_VoiceUnpacked).
  { unfold ChecksumSingle. rewrite !sum_loop_spec. do 3 f_equal.
    unfold single_voice_message.
    change (drop DX7SingleSysex.voice ([0xF0; 0x43; 0; 0; 0x01; 0x1B] ++ ?l))
      with l.
    rewrite take_app_le by (rewrite Hlen; lia). reflexivity. }
  rewrite Herr, Hck, Hsum, !Z.eqb_refl. reflexivity.
Qed.

(** X21.  The voice data and the checksum that [Format] prints for a voice
    with the option [--hex] are a single-voice dump that [VerifySingle]
    accepts: behind the six header bytes and before the end marker named
    in the declaration of [DX7SingleSysex], they give the return value 0
    and no checksum message, whatever the bytes of the packed voice. *)
Theorem X21_printed_voice_data_passes_VerifySingle
    (pVoice rest : list Z) (g : globals) :
  VerifySingle
    (set_buffer (single_voice_message (UnpackVoice pVoice) ++ rest) g)
  = (set_buffer (single_voice_message (UnpackVoice pVoice) ++ rest) g, Some 0).
Proof.
  apply VerifySingle_single_voice_message. apply length_UnpackVoice.
Qed.

(** ** Proofs: conversion of data to text *)

(** A property of the numbers [0 .. n - 1] that a computation checks. *)
Lemma forall_below (n : nat) (P : Z -> bool) :
  forallb (fun k => P (Z.of_nat k)) (seq 0 n) = true ->
  forall x, 0 <= x < Z.of_nat n -> P x = true.
Proof.
  intros H x Hx. rewrite forallb_forall in H.
  rewrite <- (Z2Nat.id x) by lia. apply H. apply in_seq. lia.
Qed.

(** X22.  Inside the range 0..99 [Breakpoint] names a key: the note of
    [x + 9] and the octave [(x - 3) / 12] rounded down, which is -1 for the
    three lowest keys, and [snprintf] cuts nothing off; so does [Transpose]
    inside 0..48 with the note of [y] and the octave [y / 12 + 1]. *)
Theorem X22_Breakpoint_and_Transpose_name_a_key (tabularListing : bool) (x y : Z) :
  0 <= x <= 99 ->
  0 <= y <= 48 ->
  Breakpoint tabularListing x = Note (x + 9) +:+ pretty ((x - 3) / 12)
  /\ Transpose tabularListing y = Note y +:+ pretty (y / 12 + 1).
Proof.
  intros Hx Hy. split.
  - apply String.eqb_eq.
    apply (forall_below 100
             (fun x => String.eqb (Breakpoint tabularListing x)
                         (Note (x + 9) +:+ pretty ((x - 3) / 12))));
      [vm_compute; reflexivity | lia].
  - apply String.eqb_eq.
    apply (forall_below 49
             (fun x => String.eqb (Transpose tabularListing x)
                         (Note x +:+ pretty (x / 12 + 1))));
      [vm_compute; reflexivity | lia].
Qed.

Lemma X22_Breakpoint_and_Transpose_name_a_key_witness :
  Breakpoint false 2 = Note (2 + 9) +:+ pretty ((2 - 3) / 12)
  /\ Transpose false 24 = Note 24 +:+ pretty (24 / 12 + 1).
Proof.
  apply (X22_Breakpoint_and_Transpose_name_a_key false 2 24); lia.
Defined.

Lemma in_range_text_differs (n : nat) (f : bool -> Z -> string) :
  (forall t, forallb (fun k => forallb (fun m =>
       implb (String.eqb (f t (Z.of_nat k)) (f t (Z.of_nat m)))
             (Z.eqb (Z.of_nat k) (Z.of_nat m))) (seq 0 n)) (seq 0 n) = true) ->
  forall t x y, 0 <= x < Z.of_nat n -> 0 <= y < Z.of_nat n ->
    f t x = f t y -> x = y.
Proof.
  intros H t x y Hx Hy E.
  pose proof (forall_below n
                (fun x => forallb (fun m =>
                   implb (String.eqb (f t x) (f t (Z.of_nat m)))
                         (Z.eqb x (Z.of_nat m))) (seq 0 n)) (H t) x Hx) as H1.
  cbv beta in H1.
  pose proof (forall_below n
                (fun y => implb (String.eqb (f t x) (f t y)) (Z.eqb x y))
                H1 y Hy) as H2.
  cbv beta in H2. rewrite E, String.eqb_refl in H2. apply Z.eqb_eq. exact H2.
Qed.

Lemma in_range_text_is_not_OutOfRange (n : nat) (f : bool -> Z -> string) :
  (forall t, forallb (fun k =>
       negb (String.eqb (f t (Z.of_nat k)) (OutOfRange t))) (seq 0 n) = true) ->
  forall t x, 0 <= x < Z.of_nat n -> f t x <> OutOfRange t.
Proof.
  intros H t x Hx E.
  pose proof (forall_below n
                (fun x => negb (String.eqb (f t x) (OutOfRange t))) (H t) x Hx) as H1.
  cbv beta in H1. rewrite E, String.eqb_refl in H1. discriminate H1.
Qed.

(** X23.  The text of [Breakpoint] tells the value: two values give the
    same text only when they are equal or both above 99, where the text is
    that of [OutOfRange]; likewise for [Transpose] and 48. *)
Theorem X23_Breakpoint_and_Transpose_texts_are_distinct
    (tabularListing : bool) (x y : Z) :
  0 <= x -> 0 <= y ->
  (Breakpoint tabularListing x = Breakpoint tabularListing y
   <-> x = y \/ (99 < x /\ 99 < y))
  /\ (Transpose tabularListing x = Transpose tabularListing y
      <-> x = y \/ (48 < x /\ 48 < y)).
Proof.
  intros Hx Hy.
  assert (OB : forall z, 99 < z -> Breakpoint tabularListing z
                                   = OutOfRange tabularListing).
  { intros z Hz. unfold Breakpoint.
    destruct (Z.ltb_spec 99 z); [reflexivity | lia]. }
  assert (OT : forall z, 48 < z -> Transpose tabularListing z
                                   = OutOfRange tabularListing).
  { intros z Hz. unfold Transpose.
    destruct (Z.ltb_spec 48 z); [reflexivity | lia]. }
  assert (IB := in_range_text_differs 100 Breakpoint
                  ltac:(intros []; vm_compute; reflexivity) tabularListing).
  assert (IT := in_range_text_differs 49 Transpose
                  ltac:(intros []; vm_compute; reflexivity) tabularListing).
  assert (NB := in_range_text_is_not_OutOfRange 100 Breakpoint
                  ltac:(intros []; vm_compute; reflexivity) tabularListing).
  assert (NT := in_range_text_is_not_OutOfRange 49 Transpose
                  ltac:(intros []; vm_compute; reflexivity) tabularListing).
  split; split.
  - intros E. destruct (Z.le_gt_cases x 99), (Z.le_gt_cases y 99).
    + left. apply IB; [lia | lia | exact E].
    + exfalso. rewrite (OB y) in E by lia. apply (NB x); [lia | exact E].
    + exfalso. rewrite (OB x) in E by lia. apply (NB y); [lia | symmetry; exact E].
    + right. lia.
  - intros [->|[H1 H2]]; [reflexivity|]. rewrite !OB by lia. reflexivity.
  - intros E. destruct (Z.le_gt_cases x 48), (Z.le_gt_cases y 48).
    + left. apply IT; [lia | lia | exact E].
    + exfalso. rewrite (OT y) in E by lia. apply (NT x); [lia | exact E].
    + exfalso. rewrite (OT x) in E by lia. apply (NT y); [lia | symmetry; exact E].
    + right. lia.
  - intros [->|[H1 H2]]; [reflexivity|]. rewrite !OT by lia. reflexivity.
Qed.

Lemma X23_Breakpoint_and_Transpose_texts_are_distinct_witness :
  (Breakpoint true 100 = Breakpoint true 255
   <-> 100 = 255 \/ (99 < 100 /\ 99 < 255))
  /\ (Transpose true 100 = Transpose true 255
      <-> 100 = 255 \/ (48 < 100 /\ 48 < 255)).
Proof.
  apply (X23_Breakpoint_and_Transpose_texts_are_distinct true 100 255); lia.
Defined.

Example Breakpoint_lowest : Breakpoint false 0 = "A-1".
Proof. reflexivity. Qed.

Example Breakpoint_highest : Breakpoint false 99 = "C8".
Proof. reflexivity. Qed.

Example Transpose_middle : Transpose false 24 = "C3".
Proof. reflexivity. Qed.

Lemma testbit_bitfield (a pos w k : Z) :
  0 <= k < w -> Z.testbit (bitfield a pos w) k = Z.testbit a (k + pos).
Proof.
  intros Hk. unfold bitfield.
  rewrite Z.land_spec, Z.shiftr_spec, Z.ones_spec_low by lia.
  apply andb_true_r.
Qed.

(** X24.  The members that [Format] hands to [OnOff], [Mode] and [Curve]
    are bit-fields of one or two bits, so that these calls never give the
    text of [OutOfRange], whatever the bytes of the voice.  [LFOWave] gets
    a field of three bits and gives that text exactly when bits 2 and 3 of
    the byte are both set. *)
Theorem X24_bit_field_members_and_OutOfRange
    (tabularListing : bool) (pVoice : list Z) (i : nat) :
  OnOff tabularListing (VoicePacked.oscKeySync pVoice) <> OutOfRange tabularListing
  /\ OnOff tabularListing (VoicePacked.lfoSync pVoice) <> OutOfRange tabularListing
  /\ Mode tabularListing (OperatorPacked.oscillatorMode pVoice i)
     <> OutOfRange tabularListing
  /\ Curve tabularListing (OperatorPacked.scaleLeftCurve pVoice i)
     <> OutOfRange tabularListing
  /\ Curve tabularListing (OperatorPacked.scaleRightCurve pVoice i)
     <> OutOfRange tabularListing
  /\ (LFOWave tabularListing (VoicePacked.lfoWave pVoice) = OutOfRange tabularListing
      <-> Z.testbit (load pVoice 116) 2 = true
          /\ Z.testbit (load pVoice 116) 3 = true).
Proof.
  assert (NO := in_range_text_is_not_OutOfRange 2 OnOff
                  ltac:(intros []; vm_compute; reflexivity) tabularListing).
  assert (NM := in_range_text_is_not_OutOfRange 2 Mode
                  ltac:(intros []; vm_compute; reflexivity) tabularListing).
  assert (NC := in_range_text_is_not_OutOfRange 4 Curve
                  ltac:(intros []; vm_compute; reflexivity) tabularListing).
  assert (NW := in_range_text_is_not_OutOfRange 6 LFOWave
                  ltac:(intros []; vm_compute; reflexivity) tabularListing).
  split; [|split; [|split; [|split; [|split]]]].
  - apply NO. unfold VoicePacked.oscKeySync.
    pose proof (bitfield_range (load pVoice 111) 3 1 ltac:(lia) ltac:(lia)).
    change (2 ^ 1) with 2 in *. change (Z.of_nat 2) with 2. lia.
  - apply NO. unfold VoicePacked.lfoSync.
    pose proof (bitfield_range (load pVoice 116) 0 1 ltac:(lia) ltac:(lia)).
    change (2 ^ 1) with 2 in *. change (Z.of_nat 2) with 2. lia.
  - apply NM. unfold OperatorPacked.oscillatorMode.
    pose proof (bitfield_range (OperatorPacked.byte pVoice i 15) 0 1
                  ltac:(lia) ltac:(lia)).
    change (2 ^ 1) with 2 in *. change (Z.of_nat 2) with 2. lia.
  - apply NC. unfold OperatorPacked.scaleLeftCurve.
    pose proof (bitfield_range (OperatorPacked.byte pVoice i 11) 0 2
                  ltac:(lia) ltac:(lia)).
    change (2 ^ 2) with 4 in *. change (Z.of_nat 4) with 4. lia.
  - apply NC. unfold OperatorPacked.scaleRightCurve.
    pose proof (bitfield_range (OperatorPacked.byte pVoice i 11) 2 2
                  ltac:(lia) ltac:(lia)).
    change (2 ^ 2) with 4 in *. change (Z.of_nat 4) with 4. lia.
  - unfold VoicePacked.lfoWave.
    change 2 with (1 + 1) at 1. change 3 with (2 + 1) at 2.
    rewrite <- !(testbit_bitfield (load pVoice 116) 1 3) by lia.
    pose proof (bitfield_range (load pVoice 116) 1 3 ltac:(lia) ltac:(lia)) as R.
    change (2 ^ 3) with 8 in R.
    generalize dependent (bitfield (load pVoice 116) 1 3). intros v R.
    assert (C : v = 0 \/ v = 1 \/ v = 2 \/ v = 3 \/ v = 4 \/ v = 5
                \/ v = 6 \/ v = 7) by lia.
    split.
    + intros E.
      destruct C as [->|[->|[->|[->|[->|[->|[->| ->]]]]]]];
        try (exfalso; revert E; apply NW; change (Z.of_nat 6) with 6; lia);
        split; reflexivity.
    + intros [H1 H2].
      destruct C as [->|[->|[->|[->|[->|[->|[->| ->]]]]]]];
        try discriminate H1; try discriminate H2; reflexivity.
Qed.

Example Name2Ascii_name_brass : Name2Ascii name_brass = Some "BRASS   1 ".
Proof. reflexivity. Qed.

Example Name2Ascii_outside_table :
  Name2Ascii [66; 82; 65; 83; 83; 32; 32; 32; 49; 0x80] = None.
Proof. reflexivity. Qed.

Example lcdTableAscii_quote :
  lcdTableAscii !! 0x22%nat = Some (Ascii.ascii_of_nat 0x22)
  /\ lcdTableAscii !! 0x5C%nat = Some (Ascii.ascii_of_nat 0x59)
  /\ length lcdTableAscii = 128%nat.
Proof. split; [|split]; reflexivity. Qed.

(** ** Proofs: voice names *)

Lemma lcdTableAscii_printable (n : nat) (c : Ascii.ascii) :
  lcdTableAscii !! n = Some c -> printable c = true.
Proof.
  revert n c. apply Forall_lookup. apply List.Forall_forall.
  apply forallb_forall. vm_compute. reflexivity.
Qed.

Lemma lcdTableAscii_identity (n : nat) :
  (32 <= n <= 125)%nat -> n <> 92%nat ->
  lcdTableAscii !! n = Some (Ascii.ascii_of_nat n).
Proof.
  intros Hn H92.
  assert (H : forallb (fun n => bool_decide (n = 92%nat)
                         || bool_decide (lcdTableAscii !! n
                                         = Some (Ascii.ascii_of_nat n)))
                      (seq 32 94) = true) by (vm_compute; reflexivity).
  rewrite forallb_forall in H. specialize (H n ltac:(apply in_seq; lia)).
  apply orb_true_iff in H. destruct H as [H|H]; apply bool_decide_eq_true in H.
  - contradiction.
  - exact H.
Qed.

Lemma Forall2_Forall_r {A B} (R : A -> B -> Prop) (P : B -> Prop)
    (l : list A) (k : list B) :
  (forall x y, R x y -> P y) -> Forall2 R l k -> Forall P k.
Proof.
  intros H F. induction F as [|x y l k HR F IH]; constructor; eauto.
Qed.

(** X25.  With [useUnicode] off [Name2Ascii] reads inside its table of 128
    characters exactly when each of the ten bytes of the name is below
    128; the program tests this nowhere.  The text it then gives has ten
    printable characters, and every byte from 0x20 to 0x7D but 0x5C stands
    for itself. *)
Theorem X25_Name2Ascii_reads_inside_its_table (nameLcd : list Z) :
  (is_Some (Name2Ascii nameLcd)
   <-> forallb (fun i => Z.ltb (load nameLcd i) 128) (seq 0 10) = true)
  /\ forall s, Name2Ascii nameLcd = Some s ->
       length (String.list_ascii_of_string s) = 10%nat
       /\ Forall (fun c => printable c = true) (String.list_ascii_of_string s)
       /\ forall i, (i < 10)%nat ->
            32 <= load nameLcd i <= 125 -> load nameLcd i <> 92 ->
            String.list_ascii_of_string s !! i
            = Some (Ascii.ascii_of_nat (Z.to_nat (load nameLcd i))).
Proof.
  unfold Name2Ascii. split.
  - rewrite fmap_is_Some, mapM_is_Some, forallb_forall, List.Forall_forall.
    split; intros H i Hi; specialize (H i Hi).
    + apply lookup_lt_is_Some in H. change (length lcdTableAscii) with 128%nat in H.
      apply Z.ltb_lt. lia.
    + apply lookup_lt_is_Some. change (length lcdTableAscii) with 128%nat.
      apply Z.ltb_lt in H. lia.
  - intros s Hs. apply fmap_Some in Hs. destruct Hs as (k & Hk & ->).
    apply mapM_Some in Hk. rewrite String.list_ascii_of_string_of_list_ascii.
    split; [|split].
    + apply Forall2_length in Hk. rewrite <- Hk. reflexivity.
    + eapply Forall2_Forall_r; [|exact Hk].
      intros i c Hc. exact (lcdTableAscii_printable _ _ Hc).
    + intros i Hi Hb H92.
      destruct (Forall2_lookup_l _ _ _ i i Hk (lookup_seq_lt 0 10 i Hi))
        as (c & Hc & Hf).
      rewrite Hc, <- Hf. apply lcdTableAscii_identity; lia.
Qed.

(** X26.  Whatever the options [tabularListing] and [showHex], the name
    listing names each of the 32 voices exactly once (so every
    [sysex->voices[voiceNum]] it reads is inside the bank), and the
    numbers go down the columns: each line continues the line above it by
    one. *)
Theorem X26_name_listing_names_every_voice_once (tabularListing showHex : bool) :
  Permutation (concat (name_listing tabularListing showHex)) (seq 0 32)
  /\ forall r line below,
       name_listing tabularListing showHex !! r = Some line ->
       name_listing tabularListing showHex !! S r = Some below ->
       below = map S line.
Proof.
  split.
  - destruct tabularListing, showHex;
      apply (bool_decide_unpack _); vm_compute; reflexivity.
  - intros r line below Hl Hb.
    assert (Hr : (r < 32)%nat).
    { apply lookup_lt_Some in Hl.
      destruct tabularListing, showHex; cbn in Hl; lia. }
    destruct tabularListing, showHex;
      do 32 (destruct r as [|r];
             [cbn in Hl, Hb; try congruence;
              injection Hl as <-; injection Hb as <-; reflexivity|]);
      lia.
Qed.

(** ** Proofs: the flag of the duplicate detector *)

Lemma nonempty_app {A} (l k : list A) :
  nonempty (l ++ k) = nonempty l || nonempty k.
Proof. destruct l; reflexivity. Qed.

Lemma nonempty_map {A B} (f : A -> B) (l : list A) :
  nonempty (map f l) = nonempty l.
Proof. destruct l; reflexivity. Qed.

(** The inner loop of [FindDupes], with the flag it leaves. *)
Lemma FindDupes_inner_loop_flag (i : nat) (js : list nat) (g : globals) (d : bool) :
  for_loop js (fun j '(g, dupeFound) =>
    let rc := memcmp (buffer g) (voice_addr i) (voice_addr j)
                     (sizeof_VoicePacked - 10) in
    if Z.eqb rc 0
    then (emit (found_event i j) g, true)
    else (g, dupeFound)) (g, d)
  = (add_events (map (found_event i) (List.filter (dupe (buffer g) i) js)) g,
     d || nonempty (map (found_event i) (List.filter (dupe (buffer g) i) js))).
Proof.
  unfold for_loop. revert g d. induction js as [|j js IH]; intros g d.
  - simpl. rewrite add_events_nil, orb_false_r. reflexivity.
  - cbn [fold_left List.filter]. cbv zeta. fold (dupe (buffer g) i j).
    destruct (dupe (buffer g) i j).
    + rewrite IH. cbn [buffer emit map nonempty].
      rewrite add_events_emit, orb_true_r. reflexivity.
    + apply IH.
Qed.

(** The two loops of [FindDupes], with the flag they leave. *)
Lemma FindDupes_loops_flag (il : list nat) (g : globals) (d : bool) :
  for_loop il (fun i =>
    for_loop (seq (i + 1) (32 - (i + 1))) (fun j '(g, dupeFound) =>
      let rc := memcmp (buffer g) (voice_addr i) (voice_addr j)
                       (sizeof_VoicePacked - 10) in
      if Z.eqb rc 0
      then (emit (found_event i j) g, true)
      else (g, dupeFound))) (g, d)
  = (add_events
       (flat_map (fun i => map (found_event i)
                    (List.filter (dupe (buffer g) i) (seq (i + 1) (32 - (i + 1)))))
                 il) g,
     d || nonempty
            (flat_map (fun i => map (found_event i)
                         (List.filter (dupe (buffer g) i)
                                      (seq (i + 1) (32 - (i + 1)))))
                      il)).
Proof.
  revert g d. induction il as [|i il IH]; intros g d.
  - simpl. rewrite add_events_nil, orb_false_r. reflexivity.
  - rewrite for_loop_cons, FindDupes_inner_loop_flag, IH.
    cbn [buffer add_events flat_map].
    rewrite add_events_app, nonempty_app, orb_assoc. reflexivity.
Qed.

Lemma emit_add_events (e : event) (evs : list event) (g : globals) :
  emit e (add_events evs g) = add_events (evs ++ [e]) g.
Proof. unfold add_events, emit. simpl. rewrite <- app_assoc. reflexivity. Qed.

(** What [FindDupes] does, in one equation. *)
Lemma FindDupes_run (g : globals) :
  let lines := map (fun p => found_event (fst p) (snd p))
                   (dupes_in_loop_order (buffer g)) in
  FindDupes g
  = (add_events (lines ++ (if nonempty lines then [Ev_print Msg_empty_line] else []))
                g, None).
Proof.
  cbv zeta. unfold FindDupes.
  pose proof (FindDupes_loops_flag (seq 0 31) g false) as E.
  unfold found_event in E |- *. rewrite E. clear E. cbn [orb].
  assert (L : flat_map (fun i => map (fun j => Ev_print (Msg_found_duplicate
                                        (Z.of_nat i + 1) (Z.of_nat j + 1)))
                          (List.filter (dupe (buffer g) i)
                                       (seq (i + 1) (32 - (i + 1)))))
                       (seq 0 31)
              = map (fun p => Ev_print (Msg_found_duplicate
                                (Z.of_nat (fst p) + 1) (Z.of_nat (snd p) + 1)))
                    (dupes_in_loop_order (buffer g))).
  { unfold dupes_in_loop_order. generalize (seq 0 31). intros il.
    induction il as [|i il IH]; [reflexivity|].
    cbn [flat_map]. rewrite map_app, IH, map_map. reflexivity. }
  rewrite L. destruct (nonempty _).
  - unfold printf, exec. rewrite emit_add_events. reflexivity.
  - rewrite app_nil_r. reflexivity.
Qed.

Lemma FindDupes_events_run (g : globals) :
  let lines := map (fun p => found_event (fst p) (snd p))
                   (dupes_in_loop_order (buffer g)) in
  FindDupes_events g
  = lines ++ (if nonempty lines then [Ev_print Msg_empty_line] else []).
Proof.
  cbv zeta. unfold FindDupes_events. rewrite FindDupes_run.
  cbn [fst trace add_events]. apply drop_app_length.
Qed.

Lemma found_line_reported_pairs (ps : list (nat * nat)) :
  map found_line (reported_pairs (map (fun p => found_event (fst p) (snd p)) ps))
  = map (fun p => found_event (fst p) (snd p)) ps.
Proof.
  induction ps as [|[i j] ps IH]; [reflexivity|].
  cbn [map reported_pairs found_event fst snd]. rewrite IH.
  unfold found_line, found_event. cbn [fst snd]. do 3 f_equal; lia.
Qed.

(** X27.  [FindDupes] changes nothing but the output.  It prints its
    "Found duplicate" lines and then one empty line; when it reports no
    pair it prints nothing at all. *)
Theorem X27_FindDupes_prints_reports_then_an_empty_line (g : globals) :
  FindDupes g = (add_events (FindDupes_events g) g, None)
  /\ FindDupes_events g
     = map found_line (reported_pairs (FindDupes_events g))
       ++ (if nonempty (reported_pairs (FindDupes_events g))
           then [Ev_print Msg_empty_line] else []).
Proof.
  pose proof (FindDupes_events_run g) as E. cbv zeta in E.
  split.
  - rewrite E. apply FindDupes_run.
  - rewrite E at 1. rewrite FindDupes_reports.
    set (ps := dupes_in_loop_order (buffer g)).
    assert (R : map (fun p : nat * nat => (Z.of_nat (fst p), Z.of_nat (snd p))) ps
                = reported_pairs (map (fun p => found_event (fst p) (snd p)) ps)).
    { induction ps as [|[i j] ps IH]; [reflexivity|].
      cbn [map reported_pairs found_event fst snd]. rewrite IH.
      f_equal. f_equal; lia. }
    rewrite R, found_line_reported_pairs. f_equal.
    rewrite <- R, !nonempty_map. reflexivity.
Qed.

(** A store to a byte of a voice name does not change what [memcmp] reads
    in [FindDupes]. *)
Lemma dupe_store_name (sysex : list Z) (i k : nat) (v : Z) (a b : nat) :
  (k < 10)%nat ->
  dupe (store sysex (voice_addr i + (sizeof_VoicePacked - 10) + k) v) a b
  = dupe sysex a b.
Proof.
  intros Hk. unfold dupe.
  assert (E : forall m, m = sysex \/ m = store sysex (voice_addr i + (sizeof_VoicePacked - 10) + k) v ->
              forall c n, (n < sizeof_VoicePacked - 10)%nat ->
                load m (voice_addr c + n) = load sysex (voice_addr c + n)).
  { intros m [->| ->] c n Hn; [reflexivity|].
    apply load_store_ne.
    unfold voice_addr, DX7Sysex.voices, sizeof_VoicePacked in *. lia. }
  apply eq_true_iff_eq. rewrite !Z.eqb_eq, !memcmp_spec.
  split; intros H n Hn.
  - rewrite <- !(E _ (or_intror eq_refl)) by exact Hn. apply H. exact Hn.
  - rewrite !(E _ (or_intror eq_refl)) by exact Hn. apply H. exact Hn.
Qed.

(** X28.  [FindDupes] does not look at the names: a store to any of the
    ten name bytes of a voice leaves its output as it was. *)
Theorem X28_FindDupes_ignores_the_names
    (g : globals) (i k : nat) (v : Z) :
  (k < 10)%nat ->
  FindDupes_events
    (set_buffer (store (buffer g) (voice_addr i + (sizeof_VoicePacked - 10) + k) v) g)
  = FindDupes_events g.
Proof.
  intros Hk. rewrite !FindDupes_events_run. cbv zeta. cbn [buffer set_buffer].
  assert (E : dupes_in_loop_order
                (store (buffer g) (voice_addr i + (sizeof_VoicePacked - 10) + k) v)
              = dupes_in_loop_order (buffer g)).
  { unfold dupes_in_loop_order. apply flat_map_ext. intros a. f_equal.
    apply filter_ext. intros b. apply dupe_store_name. exact Hk. }
  rewrite E. reflexivity.
Qed.

Lemma X28_FindDupes_ignores_the_names_witness :
  FindDupes_events
    (set_buffer (store (buffer (globals_with bank_dupes))
                       (voice_addr 1 + (sizeof_VoicePacked - 10) + 0) 0x41)
                (globals_with bank_dupes))
  = FindDupes_events (globals_with bank_dupes).
Proof.
  apply (X28_FindDupes_ignores_the_names (globals_with bank_dupes) 1 0 0x41). lia.
Defined.

(** ** Headerless banks, to the end of [processFile] *)













(** The scenario of a headerless dump with the repair on and the answer
    'Y': the header is canonical afterwards, and it was not when the bank
    was listed. *)
Example headerless_bank_repaired :
  take 6 (buffer (fst (processFile example_options (example_os raw_dump 0)
                                   "raw.syx" globals_init)))
  = canonical_header
  /\ trace (fst (processFile example_options (example_os raw_dump 0) "raw.syx"
                             globals_init)) !! 4%nat
     = Some (Ev_Format (bank [0; 0; 0; 0; 0; 0] raw_dump 0 0)).
Proof. split; vm_compute; reflexivity. Qed.
